(** * Resume extractor: a shallow embedding of the Python sources

    The development follows the two source files:
    - [Py]        : the fragment of Python the sources rely on (JSON-like
                    values, dictionaries, truthiness, exceptions, strings);
    - [Extractor] : [main/resume_extractor.py] (PDF text pipeline, LLM retry
                    loop, JSON repair, pydantic validation, HTTP endpoint);
    - [Enhancer]  : [advanced_features.py] (the analytics of ResumeEnhancer);
    - [Stateful]  : [advanced_features.py] (the four analytics again, run on
                    a store of objects with identity, on [self] and on the
                    standard output);
    - [Reports]   : [advanced_features.py] (the methods of ResumeEnhancer that
                    report suggestions, achievements and industry keywords).

    Conventions.  A Python [str] is a Rocq [string] whose characters are
    read as the code points 0..255.  A Python [float] is modelled by the
    exact rational it approximates and [round(x, k)] by rounding to [k]
    decimals, ties to even (the binary64 computation is modelled
    separately where a claim depends on it: the operations of [Py] on
    binary64 numbers, and the machine's own).  External libraries (dateutil,
    nltk, json, ollama, PyMuPDF, PaddleOCR) and the clock are fields of a
    [World] record. *)

From Stdlib Require Import ZArith QArith Qround Qpower String Ascii List Lia Floats Uint63.
From stdpp Require Import base gmap strings list.

Set Warnings "-register-all,-clear-no-such-hyp".
Open Scope string_scope.
Open Scope Z_scope.

Module Py.

(** ** Values *)

(** What [json.loads] produces and what the functions pass around. A
    dictionary keeps its insertion order; its keys are strings. *)
Inductive value : Type :=
| VNone
| VBool (b : bool)
| VInt (z : Z)
| VFloat (q : Q)
| VStr (s : string)
| VList (l : list value)
| VDict (d : list (string * value)).

Definition dict := list (string * value).

(** ** Exceptions and results

    An exception has a class and a message.  The messages that the
    sources write themselves are literal; those of exceptions raised by
    Python or by a library are abridged, and nothing below depends on
    their wording. *)

Inductive exn_class :=
| AttributeError | TypeError | ValueError | KeyError
| JSONDecodeError | ValidationError | OverflowError | RuntimeError.

Record exn := Exn { exn_cls : exn_class; exn_msg : string }.

(** [str(e)] *)
Definition str_exn (e : exn) : string := exn_msg e.

Inductive result (A : Type) : Type :=
| Ok (a : A)
| Raise (e : exn).
Arguments Ok {A} a.
Arguments Raise {A} e.

Definition bind {A B} (r : result A) (k : A -> result B) : result B :=
  match r with
  | Ok a => k a
  | Raise e => Raise e
  end.

Notation "x <- r ;; k" := (bind r (fun x => k))
  (at level 100, r at next level, right associativity).

Definition is_ok {A} (r : result A) : bool :=
  match r with Ok _ => true | Raise _ => false end.

(** [[f(x) for x in l]], stopping at the first exception *)
Fixpoint mapM {A B} (f : A -> result B) (l : list A) : result (list B) :=
  match l with
  | [] => Ok []
  | x :: r => y <- f x ;; ys <- mapM f r ;; Ok (y :: ys)
  end.

(** [all(f(x) for x in l)]: stops at the first falsy item *)
Fixpoint py_all {A} (f : A -> result bool) (l : list A) : result bool :=
  match l with
  | [] => Ok true
  | x :: r => b <- f x ;; if b then py_all f r else Ok false
  end.

(** ** Dictionaries *)

Fixpoint dict_lookup (d : dict) (k : string) : option value :=
  match d with
  | [] => None
  | (k', v) :: r => if String.eqb k' k then Some v else dict_lookup r k
  end.

(** [k in d] *)
Definition dict_contains (d : dict) (k : string) : bool :=
  match dict_lookup d k with Some _ => true | None => false end.

(** [d[k] = v]: overwrite in place, or append a new key *)
Fixpoint dict_set (d : dict) (k : string) (v : value) : dict :=
  match d with
  | [] => [(k, v)]
  | (k', v') :: r =>
      if String.eqb k' k then (k', v) :: r else (k', v') :: dict_set r k v
  end.

(** [d.get(k, default)] *)
Definition dict_get (d : dict) (k : string) (default : value) : value :=
  match dict_lookup d k with Some v => v | None => default end.

(** [x.get(k, default)] on an arbitrary value: only a dict has [get] *)
Definition py_get (x : value) (k : string) (default : value) : result value :=
  match x with
  | VDict d => Ok (dict_get d k default)
  | _ => Raise (Exn AttributeError "object has no attribute 'get'")
  end.

(** ** Truthiness, length, iteration *)

Definition truthy (v : value) : bool :=
  match v with
  | VNone => false
  | VBool b => b
  | VInt z => negb (z =? 0)
  | VFloat q => negb (Qeq_bool q 0)
  | VStr s => negb (String.eqb s "")
  | VList l => match l with [] => false | _ => true end
  | VDict d => match d with [] => false | _ => true end
  end.

Definition chars (s : string) : list string :=
  map (fun c => String c EmptyString) (list_ascii_of_string s).

(** [len(v)] *)
Definition py_len (v : value) : result Z :=
  match v with
  | VStr s => Ok (Z.of_nat (String.length s))
  | VList l => Ok (Z.of_nat (length l))
  | VDict d => Ok (Z.of_nat (length d))
  | _ => Raise (Exn TypeError "object has no len()")
  end.

(** [for x in v]: a list yields its items, a string its characters, a
    dict its keys; anything else is not iterable *)
Definition py_iter (v : value) : result (list value) :=
  match v with
  | VList l => Ok l
  | VStr s => Ok (map VStr (chars s))
  | VDict d => Ok (map (fun kv => VStr (fst kv)) d)
  | _ => Raise (Exn TypeError "object is not iterable")
  end.

(** ** Strings *)

Definition code (c : ascii) : N := N_of_ascii c.

(** [c.isspace()] on the code points below 256 (also the class [\s] of
    [re] on a [str] pattern) *)
Definition is_space (c : ascii) : bool :=
  let n := code c in
  ((9 <=? n) && (n <=? 13) || (28 <=? n) && (n <=? 32)
   || (n =? 133) || (n =? 160))%N.

(** the class [\d] of [re] on the code points below 256 *)
Definition is_digit (c : ascii) : bool :=
  let n := code c in ((48 <=? n) && (n <=? 57))%N.

Definition is_lower (c : ascii) : bool :=
  let n := code c in ((97 <=? n) && (n <=? 122))%N.

Definition is_upper (c : ascii) : bool :=
  let n := code c in ((65 <=? n) && (n <=? 90))%N.

Definition lower_char (c : ascii) : ascii :=
  let n := code c in
  if ((65 <=? n) && (n <=? 90)
      || (192 <=? n) && (n <=? 222) && negb (n =? 215))%N
  then ascii_of_N (n + 32) else c.

(** [s.lower()] *)
Fixpoint lower (s : string) : string :=
  match s with
  | EmptyString => EmptyString
  | String c r => String (lower_char c) (lower r)
  end.

Fixpoint lstrip (s : string) : string :=
  match s with
  | EmptyString => EmptyString
  | String c r => if is_space c then lstrip r else s
  end.

Fixpoint rstrip (s : string) : string :=
  match s with
  | EmptyString => EmptyString
  | String c r =>
      match rstrip r with
      | EmptyString => if is_space c then EmptyString else String c EmptyString
      | r' => String c r'
      end
  end.

(** [s.strip()] *)
Definition strip (s : string) : string := rstrip (lstrip s).

(** [needle in hay] for two strings *)
Fixpoint str_in (needle hay : string) : bool :=
  if String.prefix needle hay then true
  else match hay with
       | EmptyString => false
       | String _ r => str_in needle r
       end.

(** [s.endswith(suffix)] *)
Definition endswith (s suffix : string) : bool :=
  let n := String.length s in
  let m := String.length suffix in
  (m <=? n)%nat && String.eqb (String.substring (n - m) m s) suffix.

(** [s.replace(a, b)] for single characters *)
Fixpoint replace_char (a b : ascii) (s : string) : string :=
  match s with
  | EmptyString => EmptyString
  | String c r =>
      String (if Ascii.eqb c a then b else c) (replace_char a b r)
  end.

(** [s.find(c)] and [s.rfind(c)] for a single character; [None] is -1 *)
Fixpoint find_char (c : ascii) (s : string) : option nat :=
  match s with
  | EmptyString => None
  | String c' r =>
      if Ascii.eqb c' c then Some 0%nat else option_map S (find_char c r)
  end.

Fixpoint rfind_char (c : ascii) (s : string) : option nat :=
  match s with
  | EmptyString => None
  | String c' r =>
      match rfind_char c r with
      | Some i => Some (S i)
      | None => if Ascii.eqb c' c then Some 0%nat else None
      end
  end.

(** [s[i:j]] for 0 <= i *)
Definition slice (s : string) (i j : nat) : string :=
  String.substring i (j - i) s.

(** [sep.join(v)]: every item must be a string *)
Definition py_join (sep : string) (v : value) : result string :=
  items <- py_iter v ;;
  strs <- mapM (fun x => match x with
                         | VStr s => Ok s
                         | _ => Raise (Exn TypeError "expected str instance")
                         end) items ;;
  Ok (String.concat sep strs).

(** [x.lower()] on an arbitrary value *)
Definition py_lower (x : value) : result string :=
  match x with
  | VStr s => Ok (lower s)
  | _ => Raise (Exn AttributeError "object has no attribute 'lower'")
  end.

(** ** Rounding *)

(** nearest integer, ties to the even one *)
Definition round_half_even (q : Q) : Z :=
  let f := Qfloor q in
  match Qcompare (q - inject_Z f) (1 # 2) with
  | Lt => f
  | Gt => f + 1
  | Eq => if Z.even f then f else f + 1
  end.

(** [round(q, ndigits)] *)
Definition py_round (q : Q) (ndigits : nat) : Q :=
  let scale := Z.pow 10 (Z.of_nat ndigits) in
  Qmake (round_half_even (q * inject_Z scale)) (Z.to_pos scale).

(** ** Binary64 arithmetic

    A finite [float] is the rational it stands for.  An operation on
    floats gives the binary64 number nearest to the exact result, ties
    to the even significand: the number with 53 binary places at the
    size of the result, and with the last place at 2^-1074 for the
    smallest ones.  The numbers met here are far below the largest
    binary64 number, so that no operation overflows. *)

(** floor of the binary logarithm of a positive rational *)
Definition Qlog2 (x : Q) : Z :=
  let k := Z.log2 (Qnum x) - Z.log2 (Zpos (Qden x)) in
  if Qle_bool (2 ^ k) x then k else k - 1.

(** the exponent of the last binary place of the binary64 numbers of
    the size of [x] *)
Definition ulp_exponent (x : Q) : Z :=
  Z.max (Qlog2 (Z.abs (Qnum x) # Qden x) - 52) (-1074).

(** the binary64 number nearest to [x] *)
Definition binary64 (x : Q) : Q :=
  let e := ulp_exponent x in
  (inject_Z (round_half_even (x * 2 ^ (- e))) * 2 ^ e)%Q.

(** [a / b] on two integers *)
Definition true_div (a b : Z) : Q := binary64 (inject_Z a / inject_Z b).

(** [x * y] on two floats *)
Definition float_mul (x y : Q) : Q := binary64 (x * y).

(** [round(x, ndigits)] on a float: the double nearest to the decimal
    with [ndigits] digits nearest to [x] *)
Definition round_float (x : Q) (ndigits : nat) : Q :=
  binary64 (py_round x ndigits).

End Py.

Module Extractor.
Import Py.

(** ** The pydantic models *)

Module Experience.
Record t := mk {
  company : string;
  position : string;
  start_date : option string;
  end_date : option string;
  location : option string;
  responsibilities : list string }.
End Experience.

Module Education.
Record t := mk {
  institution : string;
  degree : string;
  field_of_study : option string;
  start_date : option string;
  end_date : option string;
  gpa : option string;
  location : option string }.
End Education.

Module PersonalInfo.
Record t := mk {
  name : string;
  email : option string;
  phone : option string;
  location : option string;
  linkedin : option string;
  github : option string;
  website : option string }.
End PersonalInfo.

Module Skills.
Record t := mk {
  technical : list string;
  soft : list string;
  languages : list string;
  tools : list string }.
End Skills.

Module ResumeData.
Record t := mk {
  personal_info : PersonalInfo.t;
  summary : option string;
  experience : list Experience.t;
  education : list Education.t;
  skills : Skills.t;
  certifications : list string;
  projects : list (list (string * string));
  achievements : list string }.
End ResumeData.

(** *** Validation of a field against its declared type

    The checks are the type-presence checks of the declarations: a
    required field must be there, a [str] must be a string, an
    [Optional[str]] may be absent or [None], a list field defaults to the
    empty list.  pydantic's coercions between scalar types are not
    modelled. *)

Definition invalid {A} (msg : string) : result A :=
  Raise (Exn ValidationError msg).

Definition as_str (v : value) : result string :=
  match v with
  | VStr s => Ok s
  | _ => invalid "str type expected"
  end.

Definition as_opt_str (v : value) : result (option string) :=
  match v with
  | VNone => Ok None
  | VStr s => Ok (Some s)
  | _ => invalid "str type expected"
  end.

(** [k: str] *)
Definition field_str (d : dict) (k : string) : result string :=
  match dict_lookup d k with
  | Some v => as_str v
  | None => invalid "field required"
  end.

(** [k: Optional[str] = None] *)
Definition field_opt_str (d : dict) (k : string) : result (option string) :=
  match dict_lookup d k with
  | Some v => as_opt_str v
  | None => Ok None
  end.

(** [k: List[T] = []] *)
Definition field_list {A} (item : value -> result A) (d : dict) (k : string)
  : result (list A) :=
  match dict_lookup d k with
  | Some (VList l) => mapM item l
  | Some _ => invalid "value is not a valid list"
  | None => Ok []
  end.

Definition present_words : list string := ["present"; "current"; "now"].

Definition is_present_word (s : string) : bool :=
  existsb (String.eqb s) present_words.

(** [Experience.parse_dates], a [pre=True] validator of [start_date] and
    [end_date] *)
Definition parse_dates (v : value) : result value :=
  if truthy v then
    s <- py_lower v ;;
    if is_present_word s then Ok (VStr "Present") else Ok v
  else Ok v.

Definition field_date (d : dict) (k : string) : result (option string) :=
  match dict_lookup d k with
  | Some v => v' <- parse_dates v ;; as_opt_str v'
  | None => Ok None
  end.

Definition validate_Experience (v : value) : result Experience.t :=
  match v with
  | VDict d =>
      company <- field_str d "company" ;;
      position <- field_str d "position" ;;
      start_date <- field_date d "start_date" ;;
      end_date <- field_date d "end_date" ;;
      location <- field_opt_str d "location" ;;
      responsibilities <- field_list as_str d "responsibilities" ;;
      Ok (Experience.mk company position start_date end_date location
            responsibilities)
  | _ => invalid "value is not a valid dict"
  end.

Definition validate_Education (v : value) : result Education.t :=
  match v with
  | VDict d =>
      institution <- field_str d "institution" ;;
      degree <- field_str d "degree" ;;
      field_of_study <- field_opt_str d "field_of_study" ;;
      start_date <- field_opt_str d "start_date" ;;
      end_date <- field_opt_str d "end_date" ;;
      gpa <- field_opt_str d "gpa" ;;
      location <- field_opt_str d "location" ;;
      Ok (Education.mk institution degree field_of_study start_date end_date
            gpa location)
  | _ => invalid "value is not a valid dict"
  end.

Definition validate_PersonalInfo (v : value) : result PersonalInfo.t :=
  match v with
  | VDict d =>
      name <- field_str d "name" ;;
      email <- field_opt_str d "email" ;;
      phone <- field_opt_str d "phone" ;;
      location <- field_opt_str d "location" ;;
      linkedin <- field_opt_str d "linkedin" ;;
      github <- field_opt_str d "github" ;;
      website <- field_opt_str d "website" ;;
      Ok (PersonalInfo.mk name email phone location linkedin github website)
  | _ => invalid "value is not a valid dict"
  end.

Definition validate_Skills (v : value) : result Skills.t :=
  match v with
  | VDict d =>
      technical <- field_list as_str d "technical" ;;
      soft <- field_list as_str d "soft" ;;
      languages <- field_list as_str d "languages" ;;
      tools <- field_list as_str d "tools" ;;
      Ok (Skills.mk technical soft languages tools)
  | _ => invalid "value is not a valid dict"
  end.

(** an item of [projects: List[Dict[str, str]]] *)
Definition validate_project (v : value) : result (list (string * string)) :=
  match v with
  | VDict d => mapM (fun kv => s <- as_str (snd kv) ;; Ok (fst kv, s)) d
  | _ => invalid "value is not a valid dict"
  end.

(** the constructor call of [ResumeData] on the keys of [data] *)
Definition validate_ResumeData (data : dict) : result ResumeData.t :=
  personal_info <-
    match dict_lookup data "personal_info" with
    | Some v => validate_PersonalInfo v
    | None => invalid "field required"
    end ;;
  summary <- field_opt_str data "summary" ;;
  experience <- field_list validate_Experience data "experience" ;;
  education <- field_list validate_Education data "education" ;;
  skills <-
    match dict_lookup data "skills" with
    | Some v => validate_Skills v
    | None => Ok (Skills.mk [] [] [] [])
    end ;;
  certifications <- field_list as_str data "certifications" ;;
  projects <- field_list validate_project data "projects" ;;
  achievements <- field_list as_str data "achievements" ;;
  Ok (ResumeData.mk personal_info summary experience education skills
        certifications projects achievements).

(** *** [.dict()] *)

Definition opt_str (o : option string) : value :=
  match o with Some s => VStr s | None => VNone end.

Definition str_list (l : list string) : value := VList (map VStr l).

Definition Experience_dict (e : Experience.t) : dict :=
  [ ("company", VStr (Experience.company e));
    ("position", VStr (Experience.position e));
    ("start_date", opt_str (Experience.start_date e));
    ("end_date", opt_str (Experience.end_date e));
    ("location", opt_str (Experience.location e));
    ("responsibilities", str_list (Experience.responsibilities e)) ].

Definition Education_dict (e : Education.t) : dict :=
  [ ("institution", VStr (Education.institution e));
    ("degree", VStr (Education.degree e));
    ("field_of_study", opt_str (Education.field_of_study e));
    ("start_date", opt_str (Education.start_date e));
    ("end_date", opt_str (Education.end_date e));
    ("gpa", opt_str (Education.gpa e));
    ("location", opt_str (Education.location e)) ].

Definition PersonalInfo_dict (p : PersonalInfo.t) : dict :=
  [ ("name", VStr (PersonalInfo.name p));
    ("email", opt_str (PersonalInfo.email p));
    ("phone", opt_str (PersonalInfo.phone p));
    ("location", opt_str (PersonalInfo.location p));
    ("linkedin", opt_str (PersonalInfo.linkedin p));
    ("github", opt_str (PersonalInfo.github p));
    ("website", opt_str (PersonalInfo.website p)) ].

Definition Skills_dict (k : Skills.t) : dict :=
  [ ("technical", str_list (Skills.technical k));
    ("soft", str_list (Skills.soft k));
    ("languages", str_list (Skills.languages k));
    ("tools", str_list (Skills.tools k)) ].

Definition project_dict (p : list (string * string)) : dict :=
  map (fun kv => (fst kv, VStr (snd kv))) p.

Definition to_dict (r : ResumeData.t) : dict :=
  [ ("personal_info", VDict (PersonalInfo_dict (ResumeData.personal_info r)));
    ("summary", opt_str (ResumeData.summary r));
    ("experience",
      VList (map (fun e => VDict (Experience_dict e)) (ResumeData.experience r)));
    ("education",
      VList (map (fun e => VDict (Education_dict e)) (ResumeData.education r)));
    ("skills", VDict (Skills_dict (ResumeData.skills r)));
    ("certifications", str_list (ResumeData.certifications r));
    ("projects",
      VList (map (fun p => VDict (project_dict p)) (ResumeData.projects r)));
    ("achievements", str_list (ResumeData.achievements r)) ].

(** ** [sorted(items, key=..., reverse=True)]

    The keys are computed first, one per item; the sort is stable, also
    with [reverse=True]: items whose keys compare equal keep their order. *)

Section Sorted.
Context {A : Type}.

(** insert before the first item whose key is not greater *)
Fixpoint insert_desc (x : bool * A) (l : list (bool * A)) : list (bool * A) :=
  match l with
  | [] => [x]
  | y :: r => if implb (fst y) (fst x) then x :: y :: r
              else y :: insert_desc x r
  end.

Fixpoint sort_desc (l : list (bool * A)) : list (bool * A) :=
  match l with
  | [] => []
  | x :: r => insert_desc x (sort_desc r)
  end.

Definition sorted_reverse (key : A -> result bool) (items : list A)
  : result (list A) :=
  keyed <- mapM (fun x => k <- key x ;; Ok (k, x)) items ;;
  Ok (map snd (sort_desc keyed)).
End Sorted.

(** ** [validate_and_enhance] *)

(** [v == s] for a string literal [s] *)
Definition eq_str (v : value) (s : string) : bool :=
  match v with VStr s' => String.eqb s' s | _ => false end.

(** [s in v] for a string [s] *)
Definition py_contains (s : string) (v : value) : result bool :=
  match v with
  | VDict d => Ok (dict_contains d s)
  | VList l => Ok (existsb (fun x => eq_str x s) l)
  | VStr hay => Ok (str_in s hay)
  | _ => Raise (Exn TypeError "argument is not iterable")
  end.

(** [v[k]] for a string key *)
Definition py_getitem (v : value) (k : string) : result value :=
  match v with
  | VDict d =>
      match dict_lookup d k with
      | Some x => Ok x
      | None => Raise (Exn KeyError k)
      end
  | VList _ | VStr _ => Raise (Exn TypeError "indices must be integers")
  | _ => Raise (Exn TypeError "object is not subscriptable")
  end.

(** [v[k] = x] for a string key *)
Definition py_setitem (v : value) (k : string) (x : value) : result value :=
  match v with
  | VDict d => Ok (VDict (dict_set d k x))
  | _ => Raise (Exn TypeError "object does not support item assignment")
  end.

(** first statement: make sure the key is there *)
Definition ensure_personal_info (data : dict) : dict :=
  if negb (dict_contains data "personal_info")
  then dict_set data "personal_info" (VDict [])
  else data.

(** second statement: drop an email without an at sign *)
Definition check_email (data : dict) : result dict :=
  info <- py_getitem (VDict data) "personal_info" ;;
  has <- py_contains "email" info ;;
  if has then
    email <- py_getitem info "email" ;;
    if truthy email then
      has_at <- py_contains "@" email ;;
      if negb has_at then
        info' <- py_setitem info "email" VNone ;;
        Ok (dict_set data "personal_info" info')
      else Ok data
    else Ok data
  else Ok data.

(** the sort key: [x.get('end_date', 'Present') == 'Present'] *)
Definition present_key (x : value) : result bool :=
  e <- py_get x "end_date" (VStr "Present") ;;
  Ok (eq_str e "Present").

(** third statement: current positions first *)
Definition sort_experience (data : dict) : result dict :=
  if dict_contains data "experience"
     && truthy (dict_get data "experience" VNone)
  then
    items <- py_iter (dict_get data "experience" VNone) ;;
    sorted <- sorted_reverse present_key items ;;
    Ok (dict_set data "experience" (VList sorted))
  else Ok data.

(** The function updates [data] in place: the first component is the
    dictionary as the call leaves it, the second what the call returns
    or raises. *)
Definition validate_and_enhance (data : dict) : dict * result ResumeData.t :=
  let data1 := ensure_personal_info data in
  match check_email data1 with
  | Raise e => (data1, Raise e)
  | Ok data2 =>
      match sort_experience data2 with
      | Raise e => (data2, Raise e)
      | Ok data3 => (data3, validate_ResumeData data3)
      end
  end.

(** ** [validate_and_enhance] on whatever the model answered

    [extract_resume] hands the parsed reply to [validate_and_enhance] as
    it is: a dictionary if the reply was a JSON object, another value
    otherwise.  The statements below are those of the function, written
    with the operations of Python on an arbitrary value; on a dictionary
    they are the statements above. *)

(** first statement *)
Definition ensure_personal_info_of (data : value) : result value :=
  has <- py_contains "personal_info" data ;;
  if negb has then py_setitem data "personal_info" (VDict []) else Ok data.

(** second statement *)
Definition check_email_of (data : value) : result value :=
  info <- py_getitem data "personal_info" ;;
  has <- py_contains "email" info ;;
  if has then
    email <- py_getitem info "email" ;;
    if truthy email then
      has_at <- py_contains "@" email ;;
      if negb has_at then
        info' <- py_setitem info "email" VNone ;;
        py_setitem data "personal_info" info'
      else Ok data
    else Ok data
  else Ok data.

(** third statement *)
Definition sort_experience_of (data : value) : result value :=
  has <- py_contains "experience" data ;;
  if has then
    experience <- py_getitem data "experience" ;;
    if truthy experience then
      items <- py_iter experience ;;
      sorted <- sorted_reverse present_key items ;;
      py_setitem data "experience" (VList sorted)
    else Ok data
  else Ok data.

(** the constructor call of [ResumeData] on the items of [data], which
    must be a mapping *)
Definition construct_ResumeData (data : value) : result ResumeData.t :=
  match data with
  | VDict d => validate_ResumeData d
  | _ => Raise (Exn TypeError "argument must be a mapping")
  end.

Definition validate_and_enhance_value (data : value)
  : value * result ResumeData.t :=
  match ensure_personal_info_of data with
  | Raise e => (data, Raise e)
  | Ok data1 =>
      match check_email_of data1 with
      | Raise e => (data1, Raise e)
      | Ok data2 =>
          match sort_experience_of data2 with
          | Raise e => (data2, Raise e)
          | Ok data3 => (data3, construct_ResumeData data3)
          end
      end
  end.

(** ** The outside world of the extractor *)

(** a page of a PyMuPDF document: its text layer and its rendering as
    PNG bytes under a zoom matrix *)
Record Page := {
  get_text : string;
  get_pixmap : Z * Z -> string }.

(** an item of the list PaddleOCR returns: [None], or the recognised
    words of a line (the text [word_info[1][0]] of each) *)
Definition ocr_line := option (list string).

(** what [ollama.chat] does on a call: it raises, or it answers with the
    text [response['message']['content']] *)
Inductive chat_reply :=
| ChatFails (e : exn)
| ChatContent (content : string).

Record World := {
  (** [fitz.open] on a file, the file being given by its bytes *)
  fitz_open : string -> result (list Page);
  (** the module-level [ocr], [None] when its initialisation failed;
      [ocr.ocr] is given the image that the source writes to a
      temporary file and removes afterwards *)
  ocr : option (string -> list ocr_line);
  (** the fixed text of the prompt before and after the resume text *)
  prompt_head : string;
  prompt_tail : string;
  (** the reply to the n-th call of [ollama.chat], given its prompt *)
  ollama_chat : nat -> string -> chat_reply;
  json_loads : string -> result value }.

(** ** [clean_text] *)

(** [re.sub(r'\s+', ' ', text)]; [in_run] tells that the previous
    character was white space *)
Fixpoint sub_spaces (in_run : bool) (s : string) : string :=
  match s with
  | EmptyString => EmptyString
  | String c r =>
      if is_space c then
        if in_run then sub_spaces true r
        else String " " (sub_spaces true r)
      else String c (sub_spaces false r)
  end.

Definition newline : ascii := ascii_of_N 10.

(** [re.sub(r'\n\s*\n', '\n\n', text)].  The state is [None] outside a
    candidate match; inside one, opened by a newline, it is
    [Some (closed, buf)]: [closed] tells that a later newline was met
    (the match extends to the last of them), [buf] holds the white space
    read since. *)
Fixpoint sub_blank_lines (st : option (bool * string)) (s : string) : string :=
  let flush st :=
    match st with
    | None => EmptyString
    | Some (closed, buf) =>
        String newline (if closed : bool then String newline buf else buf)
    end in
  match s with
  | EmptyString => flush st
  | String c r =>
      match st with
      | None =>
          if Ascii.eqb c newline
          then sub_blank_lines (Some (false, EmptyString)) r
          else String c (sub_blank_lines None r)
      | Some (closed, buf) =>
          if Ascii.eqb c newline
          then sub_blank_lines (Some (true, EmptyString)) r
          else if is_space c
          then sub_blank_lines (Some (closed, buf ++ String c EmptyString)) r
          else flush st ++ String c (sub_blank_lines None r)
      end
  end.

(** [re.sub(r'(?<=[a-z])(?=[A-Z])', ' ', text)] *)
Fixpoint split_camel (s : string) : string :=
  match s with
  | EmptyString => EmptyString
  | String c r =>
      String c
        match r with
        | String c' _ =>
            if is_lower c && is_upper c' then String " " (split_camel r)
            else split_camel r
        | EmptyString => EmptyString
        end
  end.

Definition clean_text (text : string) : string :=
  let text := sub_spaces false text in
  let text := sub_blank_lines None text in
  let text := replace_char "|" "I" text in
  let text := split_camel text in
  strip text.

(** ** [extract_text_from_pdf] *)

(** the loop over the OCR result *)
Definition append_ocr (page_text : string) (result : list ocr_line) : string :=
  fold_left
    (fun page_text line =>
       match line with
       | Some (w :: ws) =>
           fold_left (fun t word => t ++ word ++ " ") (w :: ws) page_text
             ++ String newline EmptyString
       | _ => page_text
       end)
    result page_text.

(** an OCR call: the page number and the image handed to the engine *)
Definition ocr_call := (nat * string)%type.

Definition needs_ocr (page : Page) : bool :=
  Z.of_nat (String.length (strip (get_text page))) <? 50.

(** the loop over the pages, from page [page_num] on; [text] is the
    accumulator, [calls] the OCR calls made so far *)
Fixpoint pages_loop (w : World) (page_num : nat) (pages : list Page)
    (text : string) (calls : list ocr_call)
  : result string * list ocr_call :=
  match pages with
  | [] => (Ok text, calls)
  | page :: rest =>
      let page_text := get_text page in
      if needs_ocr page then
        let img_data := get_pixmap page (2, 2) in
        match ocr w with
        | None =>
            (Raise (Exn AttributeError "object has no attribute 'ocr'"), calls)
        | Some engine =>
            let page_text := append_ocr page_text (engine img_data) in
            pages_loop w (S page_num) rest
              (text ++ page_text ++ String newline EmptyString)
              (calls ++ [(page_num, img_data)])
        end
      else
        pages_loop w (S page_num) rest
          (text ++ page_text ++ String newline EmptyString) calls
  end.

Definition extract_text_from_pdf (w : World) (pdf : string)
  : result string * list ocr_call :=
  match fitz_open w pdf with
  | Raise e => (Raise e, [])
  | Ok pages =>
      let '(r, calls) := pages_loop w 0 pages EmptyString [] in
      (text <- r ;; Ok (clean_text text), calls)
  end.

(** ** The LLM call and the repair of its JSON *)

Definition create_extraction_prompt (w : World) (resume_text : string)
  : string :=
  prompt_head w ++ resume_text ++ prompt_tail w.

(** [re.sub(marker + r'\s*', '', text)] for a literal, non-empty
    [marker]: [skip] counts the characters of a matched marker still to
    drop, [in_ws] tells that the white space after a marker is being
    dropped *)
Fixpoint sub_marker (marker : string) (skip : nat) (in_ws : bool)
    (s : string) : string :=
  match s with
  | EmptyString => EmptyString
  | String c r =>
      match skip with
      | S k => sub_marker marker k true r
      | O =>
          if in_ws && is_space c then sub_marker marker 0 true r
          else if String.prefix marker s
          then sub_marker marker (String.length marker - 1) true r
          else String c (sub_marker marker 0 false r)
      end
  end.

Definition clean_json_response (text : string) : string :=
  let text := sub_marker "```json" 0 false text in
  let text := sub_marker "```" 0 false text in
  let start_idx := find_char "{" text in
  let end_idx := rfind_char "}" text in
  match start_idx, end_idx with
  | Some i, Some j => slice text i (j + 1)
  | _, _ => text
  end.

(** [re.sub(r',\s*' + close, close, text)] for a closing bracket
    [close]: [pending] holds a comma and the white space read after it *)
Fixpoint sub_trailing_comma (close : ascii) (pending : option string)
    (s : string) : string :=
  let held := match pending with Some buf => buf | None => EmptyString end in
  match s with
  | EmptyString => held
  | String c r =>
      if Ascii.eqb c "," then held ++ sub_trailing_comma close (Some ",") r
      else
        match pending with
        | Some buf =>
            if is_space c
            then sub_trailing_comma close (Some (buf ++ String c EmptyString)) r
            else if Ascii.eqb c close
            then String close (sub_trailing_comma close None r)
            else buf ++ String c (sub_trailing_comma close None r)
        | None => String c (sub_trailing_comma close None r)
        end
  end.

Definition double_quote : ascii := ascii_of_N 34.

(** the minimal structure returned when the repair fails too *)
Definition placeholder : value :=
  VDict [ ("personal_info", VDict [("name", VStr "Error parsing resume")]);
          ("experience", VList []);
          ("education", VList []);
          ("skills", VDict [ ("technical", VList []); ("soft", VList []);
                             ("languages", VList []); ("tools", VList []) ]) ].

(** the repairs made before the second parse *)
Definition repair_json (json_text : string) : string :=
  let json_text := replace_char "'" double_quote json_text in
  let json_text := sub_trailing_comma "}" None json_text in
  sub_trailing_comma "]" None json_text.

(** the body is one [try] with a bare [except] *)
Definition fix_json_errors (w : World) (json_text : string) : result value :=
  match json_loads w (repair_json json_text) with
  | Ok data => Ok data
  | Raise _ => Ok placeholder
  end.

Definition is_JSONDecodeError (e : exn) : bool :=
  match exn_cls e with JSONDecodeError => true | _ => false end.

(** The loop [for attempt in range(max_retries)], from [attempt] on with
    [remaining] iterations to go.  [json_text] is the local variable of
    that name, unbound before its first assignment.  The second
    component counts the calls of [ollama.chat]. *)
Fixpoint retry_loop (w : World) (prompt : string) (max_retries : Z)
    (attempt remaining : nat) (json_text : option string)
  : result value * nat :=
  match remaining with
  | O => (Ok VNone, attempt)
  | S remaining' =>
      let last := Z.of_nat attempt =? max_retries - 1 in
      let on_decode_error (json_text : option string) :=
        if last then
          match json_text with
          | Some t => (fix_json_errors w t, S attempt)
          | None =>
              (Raise (Exn RuntimeError "local variable 'json_text' referenced before assignment"),
               S attempt)
          end
        else retry_loop w prompt max_retries (S attempt) remaining' json_text in
      let on_exception (e : exn) (json_text : option string) :=
        if last then (Raise e, S attempt)
        else retry_loop w prompt max_retries (S attempt) remaining' json_text in
      match ollama_chat w attempt prompt with
      | ChatFails e =>
          if is_JSONDecodeError e then on_decode_error json_text
          else on_exception e json_text
      | ChatContent content =>
          let cleaned := clean_json_response content in
          match json_loads w cleaned with
          | Ok data => (Ok data, S attempt)
          | Raise e =>
              if is_JSONDecodeError e then on_decode_error (Some cleaned)
              else on_exception e (Some cleaned)
          end
      end
  end.

Definition extract_with_llm (w : World) (text : string) (max_retries : Z)
  : result value * nat :=
  let prompt := create_extraction_prompt w text in
  retry_loop w prompt max_retries 0 (Z.to_nat max_retries) None.

Definition default_max_retries : Z := 3.

(** ** [ResumeExtractor.extract_resume] and the endpoint *)

Definition extract_resume (w : World) (pdf : string) : result ResumeData.t :=
  text <- fst (extract_text_from_pdf w pdf) ;;
  if Z.of_nat (String.length (strip text)) <? 100 then
    Raise (Exn ValueError "Could not extract sufficient text from PDF")
  else
    raw_data <- fst (extract_with_llm w text default_max_retries) ;;
    snd (validate_and_enhance_value raw_data).

Inductive http_response :=
| JSONResponse (content : dict)
| HTTPException (status_code : Z) (detail : string).

(** [POST /extract]: [filename] and [file] are the name and the bytes of
    the upload *)
Definition extract_endpoint (w : World) (filename file : string)
  : http_response :=
  if negb (endswith filename ".pdf") then
    HTTPException 400 "Only PDF files are supported"
  else
    match extract_resume w file with
    | Ok resume_data => JSONResponse (to_dict resume_data)
    | Raise e => HTTPException 500 (str_exn e)
    end.

End Extractor.

Module Enhancer.
Import Py.

(** ** The outside world of the analytics *)

Record datetime := { year : Z; month : Z; day : Z }.

Record World := {
  (** [datetime.now()] *)
  now : datetime;
  (** [dateutil.parser.parse(s, fuzzy=b)] *)
  dateutil_parse : bool -> string -> result datetime;
  (** [re.search(pattern, s)]: the groups of the first match *)
  re_search : string -> string -> option (list string);
  (** [nltk.tokenize.word_tokenize] *)
  word_tokenize : string -> list string }.

(** the attributes [__init__] sets and no method changes afterwards *)
Record ResumeEnhancer := { stop_words : gset string }.

(** Every method below is written as a function of [self], of the world
    it runs in and of the values of its arguments.  [Stateful] runs the
    same methods on a store of objects, where what a call does to its
    arguments and to [self] can be told. *)

(** ** [_parse_date] *)

Definition patterns : list string :=
  [ "(\d{4})"; "(\d{1,2})/(\d{4})"; "(\w+)\s+(\d{4})"; "(\w+)\s*,?\s*(\d{4})" ].

(** [int(s)] on a string of decimal digits *)
Fixpoint digits_value (acc : Z) (s : string) : option Z :=
  match s with
  | EmptyString => Some acc
  | String c r =>
      if is_digit c
      then digits_value (10 * acc + Z.of_N (code c - 48)) r
      else None
  end.

Definition py_int (s : string) : result Z :=
  match s with
  | EmptyString => Raise (Exn ValueError "invalid literal for int()")
  | _ => match digits_value 0 s with
         | Some z => Ok z
         | None => Raise (Exn ValueError "invalid literal for int()")
         end
  end.

(** [s.isdigit()] on the code points below 256: the decimal digits and
    the superscripts one, two and three *)
Definition isdigit_char (c : ascii) : bool :=
  is_digit c || (code c =? 178)%N || (code c =? 179)%N || (code c =? 185)%N.

Definition isdigit (s : string) : bool :=
  match s with
  | EmptyString => false
  | _ => forallb isdigit_char (list_ascii_of_string s)
  end.

(** [datetime(y, m, 1)] *)
Definition first_of_month (y m : Z) : result datetime :=
  if (1 <=? y) && (y <=? 9999) && (1 <=? m) && (m <=? 12)
  then Ok {| year := y; month := m; day := 1 |}
  else Raise (Exn ValueError "year or month is out of range").

(** the loop over the patterns, run in the handler of the first [try] *)
Fixpoint try_patterns (w : World) (pats : list string) (date_str : string)
  : result (option datetime) :=
  match pats with
  | [] => Ok None
  | pattern :: rest =>
      match re_search w pattern date_str with
      | None => try_patterns w rest date_str
      | Some [g1] =>
          y <- py_int g1 ;;
          d <- first_of_month y 1 ;;
          Ok (Some d)
      | Some [g1; g2] =>
          let attempt :=
            if isdigit g1 then
              y <- py_int g2 ;; m <- py_int g1 ;; first_of_month y m
            else dateutil_parse w false (g1 ++ " 1, " ++ g2) in
          match attempt with
          | Ok d => Ok (Some d)
          | Raise _ => try_patterns w rest date_str
          end
      | Some _ => try_patterns w rest date_str
      end
  end.

Definition _parse_date (w : World) (date_str : value)
  : result (option datetime) :=
  if negb (truthy date_str) then Ok None
  else
    match date_str with
    | VStr s =>
        match dateutil_parse w true s with
        | Ok d => Ok (Some d)
        | Raise _ => try_patterns w patterns s
        end
    | _ => Raise (Exn TypeError "expected string or bytes-like object")
    end.

(** ** [calculate_experience_years] *)

Definition present_words : list string := ["present"; "current"; "now"].

Definition months_between (start end_ : datetime) : Z :=
  (year end_ - year start) * 12 + (month end_ - month start).

(** the [try] block of one iteration: the months it adds to the total,
    [None] where it says [continue] *)
Definition entry_months (w : World) (start_date end_date : value)
  : result (option Z) :=
  start <- _parse_date w start_date ;;
  match start with
  | None => Ok None
  | Some start =>
      is_present <-
        (if truthy end_date then
           s <- py_lower end_date ;; Ok (existsb (String.eqb s) present_words)
         else Ok false) ;;
      if is_present : bool then
        Ok (Some (Z.max 0 (months_between start (now w))))
      else
        end_ <- _parse_date w end_date ;;
        match end_ with
        | None => Ok None
        | Some end_ => Ok (Some (Z.max 0 (months_between start end_)))
        end
  end.

Fixpoint experience_loop (w : World) (experience : list value)
    (total_months : Z) : result Z :=
  match experience with
  | [] => Ok total_months
  | exp :: rest =>
      start_date <- py_get exp "start_date" VNone ;;
      end_date <- py_get exp "end_date" VNone ;;
      if negb (truthy start_date) then experience_loop w rest total_months
      else
        match entry_months w start_date end_date with
        | Ok (Some months) => experience_loop w rest (total_months + months)
        | Ok None => experience_loop w rest total_months
        | Raise _ => experience_loop w rest total_months
        end
  end.

Definition calculate_experience_years (self : ResumeEnhancer) (w : World)
    (experience : value) : result Q :=
  items <- py_iter experience ;;
  total_months <- experience_loop w items 0 ;;
  Ok (py_round (inject_Z total_months / 12) 1).

(** ** [calculate_skill_match] *)

Definition skill_types : list string :=
  ["technical"; "soft"; "languages"; "tools"].

(** [for skill_type in ...: resume_skills.update([s.lower() for s in
    skills.get(skill_type, [])])] *)
Fixpoint skills_loop (skills : value) (types : list string)
    (resume_skills : gset string) : result (gset string) :=
  match types with
  | [] => Ok resume_skills
  | skill_type :: rest =>
      entries <- py_get skills skill_type (VList []) ;;
      items <- py_iter entries ;;
      lowered <- mapM py_lower items ;;
      skills_loop skills rest (resume_skills ∪ list_to_set lowered)
  end.

(** the words of one responsibility that are kept as skills *)
Definition kept_words (self : ResumeEnhancer) (w : World) (resp : string)
  : list string :=
  filter (fun word => (2 <? Z.of_nat (String.length word)) = true
                      ∧ word ∉ stop_words self)
         (word_tokenize w resp).

Fixpoint responsibilities_loop (self : ResumeEnhancer) (w : World)
    (resps : list value) (resume_skills : gset string)
  : result (gset string) :=
  match resps with
  | [] => Ok resume_skills
  | resp :: rest =>
      lowered <- py_lower resp ;;
      responsibilities_loop self w rest
        (resume_skills ∪ list_to_set (kept_words self w lowered))
  end.

Fixpoint experience_skills_loop (self : ResumeEnhancer) (w : World)
    (experience : list value) (resume_skills : gset string)
  : result (gset string) :=
  match experience with
  | [] => Ok resume_skills
  | exp :: rest =>
      resps <- py_get exp "responsibilities" (VList []) ;;
      items <- py_iter resps ;;
      resume_skills <- responsibilities_loop self w items resume_skills ;;
      experience_skills_loop self w rest resume_skills
  end.

(** [any(req in skill for skill in resume_skills)] *)
Definition matches_some (resume_skills : gset string) (req : string) : bool :=
  existsb (str_in req) (elements resume_skills).

Definition count_matches (resume_skills : gset string)
    (job_requirements_lower : list string) : Z :=
  Z.of_nat (length (filter (fun req => matches_some resume_skills req = true)
                      job_requirements_lower)).

Definition calculate_skill_match (self : ResumeEnhancer) (w : World)
    (resume_data : dict) (job_requirements : list string) : result Q :=
  let skills := dict_get resume_data "skills" (VDict []) in
  resume_skills <- skills_loop skills skill_types ∅ ;;
  experience <- py_iter (dict_get resume_data "experience" (VList [])) ;;
  resume_skills <- experience_skills_loop self w experience resume_skills ;;
  let job_requirements_lower := map lower job_requirements in
  let matches := count_matches resume_skills job_requirements_lower in
  match job_requirements with
  | [] => Ok 0%Q
  | _ =>
      Ok (round_float
            (float_mul (true_div matches (Z.of_nat (length job_requirements)))
               100)
            2)
  end.

(** ** [analyze_career_progression] *)

Definition number_of (v : value) : option Q :=
  match v with
  | VBool b => Some (if b then 1 else 0)%Q
  | VInt z => Some (inject_Z z)
  | VFloat q => Some q
  | _ => None
  end.

(** [a == b] *)
Fixpoint py_eq (a b : value) {struct a} : bool :=
  match a, b with
  | VNone, VNone => true
  | VStr s, VStr t => String.eqb s t
  | VList l, VList m =>
      (fix eq_items (l m : list value) {struct l} : bool :=
         match l, m with
         | [], [] => true
         | x :: l', y :: m' => py_eq x y && eq_items l' m'
         | _, _ => false
         end) l m
  | VDict d, VDict e =>
      (length d =? length e)%nat
      && (fix eq_entries (d : list (string * value)) {struct d} : bool :=
            match d with
            | [] => true
            | (k, x) :: d' =>
                match dict_lookup e k with
                | Some y => py_eq x y && eq_entries d'
                | None => false
                end
            end) d
  | _, _ =>
      match number_of a, number_of b with
      | Some p, Some q => Qeq_bool p q
      | _, _ => false
      end
  end.

Definition hashable (v : value) : bool :=
  match v with
  | VList _ | VDict _ => false
  | _ => true
  end.

(** [len(set(items))] *)
Fixpoint distinct (items : list value) : list value :=
  match items with
  | [] => []
  | x :: r => if existsb (py_eq x) r then distinct r else x :: distinct r
  end.

Definition len_set (items : list value) : result Z :=
  if forallb hashable items then Ok (Z.of_nat (length (distinct items)))
  else Raise (Exn TypeError "unhashable type").

Definition promotion : list string :=
  ["senior"; "lead"; "manager"; "director"; "vp"; "chief"].

(** the loop over the indicators for one pair of neighbours *)
Definition pair_score (current previous : string) (same_company : bool) : Z :=
  fold_left
    (fun score indicator =>
       if str_in indicator current && negb (str_in indicator previous)
       then score + 2
       else if str_in indicator current && str_in indicator previous
       then (if same_company then score + 1 else score)
       else score)
    promotion 0.

(** the loop [for i in range(len(positions) - 1)]: [positions] and
    [companies] are the lists from index [i] on *)
Fixpoint progression_loop (positions companies : list value) (score : Z)
  : result Z :=
  match positions, companies with
  | p :: ((p' :: _) as positions'), c :: ((c' :: _) as companies') =>
      current <- py_lower p ;;
      previous <- py_lower p' ;;
      progression_loop positions' companies'
        (score + pair_score current previous (py_eq c c'))
  | _, _ => Ok score
  end.

Definition analyze_career_progression (self : ResumeEnhancer) (w : World)
    (experience : value) : result value :=
  if negb (truthy experience) then
    Ok (VDict [("progression", VStr "No experience data")])
  else
    items <- py_iter experience ;;
    positions <- mapM (fun exp => py_get exp "position" (VStr "")) items ;;
    companies <- mapM (fun exp => py_get exp "company" (VStr "")) items ;;
    progression_score <- progression_loop positions companies 0 ;;
    let progression_type :=
      if 4 <=? progression_score then "Strong upward progression"
      else if 2 <=? progression_score then "Steady career growth"
      else "Lateral movement or early career" in
    unique <- len_set companies ;;
    Ok (VDict [ ("progression_type", VStr progression_type);
                ("progression_score", VInt progression_score);
                ("total_positions", VInt (Z.of_nat (length positions)));
                ("unique_companies", VInt unique) ]).

(** ** [calculate_ats_score] *)

Module Breakdown.
Record t := mk {
  personal_info : Z;
  experience : Z;
  education : Z;
  skills : Z;
  keywords : Z }.
End Breakdown.

Record ats_score := {
  total_score : Z;
  max_score : Z;
  percentage : Q;
  breakdown : Breakdown.t }.

(** [if x.get(k): score += points] *)
Definition points_if (x : value) (k : string) (points : Z) : result Z :=
  v <- py_get x k VNone ;;
  Ok (if truthy v then points else 0).

(** [sum(len(skills.get(k, [])) for k in [...])] *)
Definition total_skills (skills : value) : result Z :=
  lens <- mapM (fun k => v <- py_get skills k (VList []) ;; py_len v)
            skill_types ;;
  Ok (fold_left Z.add lens 0).

Definition action_verbs : list string :=
  ["managed"; "led"; "developed"; "created"; "implemented"; "achieved"].

Fixpoint skip_digits (s : string) : string :=
  match s with
  | String c r => if is_digit c then skip_digits r else s
  | EmptyString => EmptyString
  end.

(** a match of [\d+%|\$\d+|\d+\+] at the head of [s] *)
Definition quantity_here (s : string) : bool :=
  match s with
  | String c r =>
      if is_digit c then
        match skip_digits r with
        | String c' _ => Ascii.eqb c' "%" || Ascii.eqb c' "+"
        | EmptyString => false
        end
      else if Ascii.eqb c "$" then
        match r with
        | String c' _ => is_digit c'
        | EmptyString => false
        end
      else false
  | EmptyString => false
  end.

(** [re.search(r'\d+%|\$\d+|\d+\+', s)] finds a match *)
Fixpoint has_quantity (s : string) : bool :=
  quantity_here s
  || match s with
     | String _ r => has_quantity r
     | EmptyString => false
     end.

Definition calculate_ats_score (self : ResumeEnhancer) (w : World)
    (resume_data : dict) : result ats_score :=
  let max_score := 100 in
  (* personal information *)
  let personal_info := dict_get resume_data "personal_info" (VDict []) in
  p1 <- points_if personal_info "name" 5 ;;
  p2 <- points_if personal_info "email" 5 ;;
  p3 <- points_if personal_info "phone" 5 ;;
  p4 <- points_if personal_info "location" 5 ;;
  let personal_score := p1 + p2 + p3 + p4 in
  (* experience section *)
  let experience := dict_get resume_data "experience" (VList []) in
  experience_score <-
    (if truthy experience then
       items <- py_iter experience ;;
       dated <- py_all (fun exp => v <- py_get exp "start_date" VNone ;;
                                   Ok (truthy v)) items ;;
       described <- py_all (fun exp =>
                              v <- py_get exp "responsibilities" (VList []) ;;
                              n <- py_len v ;; Ok (2 <=? n)) items ;;
       Ok (10 + (if dated then 10 else 0) + (if described then 10 else 0))
     else Ok 0) ;;
  (* education *)
  let education := dict_get resume_data "education" (VList []) in
  education_score <-
    (if truthy education then
       items <- py_iter education ;;
       complete <- py_all (fun edu =>
                             d <- py_get edu "degree" VNone ;;
                             if truthy d then
                               i <- py_get edu "institution" VNone ;;
                               Ok (truthy i)
                             else Ok false) items ;;
       Ok (10 + (if complete then 5 else 0))
     else Ok 0) ;;
  (* skills *)
  let skills := dict_get resume_data "skills" (VDict []) in
  n <- total_skills skills ;;
  let skills_score :=
    (if 5 <=? n then 10 else 0) + (if 10 <=? n then 10 else 0) in
  (* keywords and formatting *)
  items <- py_iter experience ;;
  parts <- mapM (fun exp => v <- py_get exp "responsibilities" (VList []) ;;
                            py_join " " v) items ;;
  let exp_text := lower (String.concat " " parts) in
  let keyword_score :=
    (if existsb (fun verb => str_in verb exp_text) action_verbs
     then 10 else 0)
    + (if has_quantity exp_text then 5 else 0) in
  let score :=
    personal_score + experience_score + education_score + skills_score
    + keyword_score in
  Ok {| total_score := score;
        max_score := max_score;
        percentage := py_round (inject_Z score / inject_Z max_score * 100) 2;
        breakdown := Breakdown.mk personal_score experience_score
                       education_score skills_score keyword_score |}.

(** *** The percentage in binary64

    [score / max_score] is the correctly rounded quotient of the two
    integers, the product with 100 is a binary64 product, and
    [round(x, 2)] is the double nearest to the decimal with two digits
    nearest to [x]. *)

Definition float_of_Z (z : Z) : float :=
  if z <? 0 then PrimFloat.opp (PrimFloat.of_uint63 (Uint63.of_Z (- z)))
  else PrimFloat.of_uint63 (Uint63.of_Z z).

(** the rational a finite double stands for *)
Definition Q_of_float (x : float) : Q :=
  match Prim2SF x with
  | S754_finite s m e =>
      ((if s then -1 else 1) * inject_Z (Zpos m) * Qpower 2 e)%Q
  | _ => 0%Q
  end.

Definition float_round (x : float) (ndigits : nat) : float :=
  let scale := Z.pow 10 (Z.of_nat ndigits) in
  PrimFloat.div
    (float_of_Z (round_half_even (Q_of_float x * inject_Z scale)))
    (float_of_Z scale).

Definition percentage_binary64 (score max_score : Z) : float :=
  float_round
    (PrimFloat.mul (PrimFloat.div (float_of_Z score) (float_of_Z max_score))
       (float_of_Z 100))
    2.

(** ** [compare_resumes] *)






End Enhancer.

(** * [advanced_features.py]: the analytics on a store of objects

    The lists and dictionaries of Python are objects with an identity:
    a variable, an item of a list or a value of a dictionary refers to
    one, and every reference to it sees what a method does to it.  Here
    the four analytics run on a store of such objects, on the attributes
    of [self] and on the standard output, so that what a call reads,
    creates and changes is part of what it returns. *)

Module Stateful.
Import Py Enhancer.
Local Open Scope list_scope.

(** ** Objects and references *)

(** what a variable or a slot holds: an immutable value, or the
    identity of a list or a dictionary, which is its place in the store *)
Inductive ref : Type :=
| RNone
| RBool (b : bool)
| RInt (z : Z)
| RFloat (q : Q)
| RStr (s : string)
| RObj (l : nat).

Inductive object : Type :=
| OList (items : list ref)
| ODict (items : list (string * ref)).

Record state := {
  (** the lists and dictionaries alive, each at its identity *)
  heap : list object;
  (** the attribute [self.stop_words] *)
  self_stop_words : gset string;
  (** the lines printed so far *)
  stdout : list string }.

(** [self] as the methods of [Enhancer] take it *)
Definition self_of (st : state) : ResumeEnhancer :=
  {| stop_words := self_stop_words st |}.

(** ** Computations on the store *)

Definition M (A : Type) : Type := state -> result A * state.

Definition ret {A} (a : A) : M A := fun st => (Ok a, st).

Definition raise {A} (e : exn) : M A := fun st => (Raise e, st).

Definition st_bind {A B} (m : M A) (k : A -> M B) : M B :=
  fun st =>
    match m st with
    | (Ok a, st') => k a st'
    | (Raise e, st') => (Raise e, st')
    end.

Notation "x <~ m ;; k" := (st_bind m (fun x => k))
  (at level 100, m at next level, right associativity).

(** a computation on immutable values *)
Definition lift {A} (r : result A) : M A := fun st => (r, st).

(** [try: m] with [except Exception as e: handler e] *)
Definition try_except {A} (m : M A) (handler : exn -> M A) : M A :=
  fun st =>
    match m st with
    | (Ok a, st') => (Ok a, st')
    | (Raise e, st') => handler e st'
    end.

(** the object a reference leads to *)
Definition read (l : nat) : M object :=
  fun st =>
    match heap st !! l with
    | Some o => (Ok o, st)
    | None => (Raise (Exn RuntimeError "no such object"), st)
    end.

(** a new object, at an identity no object has had *)
Definition alloc (o : object) : M ref :=
  fun st =>
    (Ok (RObj (length (heap st))),
     {| heap := heap st ++ [o];
        self_stop_words := self_stop_words st;
        stdout := stdout st |}).

(** an object changed in place *)
Definition write (l : nat) (o : object) : M unit :=
  fun st =>
    (Ok tt,
     {| heap := <[l := o]> (heap st);
        self_stop_words := self_stop_words st;
        stdout := stdout st |}).

(** [self.stop_words] *)
Definition get_stop_words : M (gset string) :=
  fun st => (Ok (self_stop_words st), st).

(** [self.stop_words = words] *)
Definition set_stop_words (words : gset string) : M unit :=
  fun st =>
    (Ok tt,
     {| heap := heap st; self_stop_words := words; stdout := stdout st |}).

(** [print(line)] *)
Definition print (line : string) : M unit :=
  fun st =>
    (Ok tt,
     {| heap := heap st;
        self_stop_words := self_stop_words st;
        stdout := stdout st ++ [line] |}).

(** [[f(x) for x in l]] *)
Fixpoint map_st {A B} (f : A -> M B) (l : list A) : M (list B) :=
  match l with
  | [] => ret []
  | x :: r => y <~ f x ;; ys <~ map_st f r ;; ret (y :: ys)
  end.

(** [all(f(x) for x in l)] *)
Fixpoint all_st {A} (f : A -> M bool) (l : list A) : M bool :=
  match l with
  | [] => ret true
  | x :: r => b <~ f x ;; if b : bool then all_st f r else ret false
  end.

(** ** The operations of Python on references *)

(** [{}] and [[]] *)
Definition new_dict : M ref := alloc (ODict []).
Definition new_list : M ref := alloc (OList []).

Fixpoint lookup_item (items : list (string * ref)) (k : string) : option ref :=
  match items with
  | [] => None
  | (k', r) :: rest => if String.eqb k' k then Some r else lookup_item rest k
  end.

(** [d[k] = r]: overwrite in place, or append a new key *)
Fixpoint set_item (items : list (string * ref)) (k : string) (r : ref)
  : list (string * ref) :=
  match items with
  | [] => [(k, r)]
  | (k', r') :: rest =>
      if String.eqb k' k then (k', r) :: rest
      else (k', r') :: set_item rest k r
  end.

(** [x.get(k, default)] *)
Definition get (x : ref) (k : string) (default : ref) : M ref :=
  match x with
  | RObj l =>
      o <~ read l ;;
      match o with
      | ODict items =>
          ret (match lookup_item items k with Some r => r | None => default end)
      | OList _ => raise (Exn AttributeError "object has no attribute 'get'")
      end
  | _ => raise (Exn AttributeError "object has no attribute 'get'")
  end.

(** [x[k] = r] on a dictionary *)
Definition setitem (x : ref) (k : string) (r : ref) : M unit :=
  match x with
  | RObj l =>
      o <~ read l ;;
      match o with
      | ODict items => write l (ODict (set_item items k r))
      | OList _ =>
          raise (Exn TypeError "list indices must be integers or slices")
      end
  | _ => raise (Exn TypeError "object does not support item assignment")
  end.

(** [bool(x)] *)
Definition truth (x : ref) : M bool :=
  match x with
  | RNone => ret false
  | RBool b => ret b
  | RInt z => ret (negb (z =? 0))
  | RFloat q => ret (negb (Qeq_bool q 0))
  | RStr s => ret (negb (String.eqb s ""))
  | RObj l =>
      o <~ read l ;;
      ret (match o with
           | OList [] | ODict [] => false
           | _ => true
           end)
  end.

(** [len(x)] *)
Definition len (x : ref) : M Z :=
  match x with
  | RStr s => ret (Z.of_nat (String.length s))
  | RObj l =>
      o <~ read l ;;
      ret (match o with
           | OList items => Z.of_nat (length items)
           | ODict items => Z.of_nat (length items)
           end)
  | _ => raise (Exn TypeError "object has no len()")
  end.

(** [for r in x]: the items of a list, the characters of a string, the
    keys of a dictionary *)
Definition iter (x : ref) : M (list ref) :=
  match x with
  | RStr s => ret (map RStr (chars s))
  | RObj l =>
      o <~ read l ;;
      ret (match o with
           | OList items => items
           | ODict items => map (fun kr => RStr (fst kr)) items
           end)
  | _ => raise (Exn TypeError "object is not iterable")
  end.

(** [x.lower()] *)
Definition lower_of (x : ref) : M string :=
  match x with
  | RStr s => ret (lower s)
  | _ => raise (Exn AttributeError "object has no attribute 'lower'")
  end.

(** [sep.join(x)] *)
Definition join (sep : string) (x : ref) : M string :=
  items <~ iter x ;;
  strs <~ map_st (fun r => match r with
                           | RStr s => ret s
                           | _ => raise (Exn TypeError "expected str instance")
                           end) items ;;
  ret (String.concat sep strs).

(** *** The value behind a reference *)

Fixpoint all_some {A B} (f : A -> option B) (l : list A) : option (list B) :=
  match l with
  | [] => Some []
  | x :: r =>
      match f x, all_some f r with
      | Some y, Some ys => Some (y :: ys)
      | _, _ => None
      end
  end.

(** the value of a reference, given the values of the objects *)
Definition value_of (object_value : nat -> option value) (r : ref)
  : option value :=
  match r with
  | RNone => Some VNone
  | RBool b => Some (VBool b)
  | RInt z => Some (VInt z)
  | RFloat q => Some (VFloat q)
  | RStr s => Some (VStr s)
  | RObj l => object_value l
  end.

(** the value of the object at [l] in the store [h], read to the depth
    [fuel]: [None] where the nesting is deeper, or where there is no
    object *)
Fixpoint deref_object (fuel : nat) (h : list object) (l : nat)
  : option value :=
  match fuel with
  | O => None
  | S fuel =>
      match h !! l with
      | Some (OList items) =>
          option_map VList (all_some (value_of (deref_object fuel h)) items)
      | Some (ODict items) =>
          option_map VDict
            (all_some (fun kr => option_map (pair (fst kr))
                                   (value_of (deref_object fuel h) (snd kr)))
               items)
      | None => None
      end
  end.

(** the value that [r] stands for in the store [h] *)
Definition deref (fuel : nat) (h : list object) (r : ref) : option value :=
  value_of (deref_object fuel h) r.

(** [a == b]: the two are compared item by item, to the depth [limit]
    of the interpreter's stack; a deeper nesting raises
    [RecursionError], which is a [RuntimeError] *)
Definition equal (limit : nat) (a b : ref) : M bool :=
  fun st =>
    match deref limit (heap st) a, deref limit (heap st) b with
    | Some va, Some vb => (Ok (py_eq va vb), st)
    | _, _ =>
        (Raise (Exn RuntimeError "maximum recursion depth exceeded"), st)
    end.

(** the value of a reference that holds no object *)
Definition immediate (r : ref) : option value :=
  match r with
  | RObj _ => None
  | RNone => Some VNone
  | RBool b => Some (VBool b)
  | RInt z => Some (VInt z)
  | RFloat q => Some (VFloat q)
  | RStr s => Some (VStr s)
  end.

(** [len(set(items))]: lists and dictionaries have no hash *)
Definition len_set_of (items : list ref) : M Z :=
  match all_some immediate items with
  | Some values => ret (Z.of_nat (length (distinct values)))
  | None => raise (Exn TypeError "unhashable type")
  end.

(** ** [_parse_date] *)

Definition _parse_date (w : World) (date_str : ref) : M (option datetime) :=
  falsy <~ (b <~ truth date_str ;; ret (negb b)) ;;
  if falsy : bool then ret None
  else
    match date_str with
    | RStr s =>
        lift (match dateutil_parse w true s with
              | Ok d => Ok (Some d)
              | Raise _ => try_patterns w patterns s
              end)
    | _ => raise (Exn TypeError "expected string or bytes-like object")
    end.

(** ** [calculate_experience_years] *)

(** the [try] block of one iteration *)
Definition entry_months (w : World) (start_date end_date : ref)
  : M (option Z) :=
  start <~ _parse_date w start_date ;;
  match start with
  | None => ret None
  | Some start =>
      given <~ truth end_date ;;
      is_present <~
        (if given : bool then
           s <~ lower_of end_date ;; ret (existsb (String.eqb s) present_words)
         else ret false) ;;
      if is_present : bool then
        ret (Some (Z.max 0 (months_between start (now w))))
      else
        end_ <~ _parse_date w end_date ;;
        match end_ with
        | None => ret None
        | Some end_ => ret (Some (Z.max 0 (months_between start end_)))
        end
  end.

Fixpoint experience_loop (w : World) (experience : list ref)
    (total_months : Z) : M Z :=
  match experience with
  | [] => ret total_months
  | exp :: rest =>
      start_date <~ get exp "start_date" RNone ;;
      end_date <~ get exp "end_date" RNone ;;
      given <~ truth start_date ;;
      if negb given then experience_loop w rest total_months
      else
        months <~ try_except (entry_months w start_date end_date)
                    (fun e =>
                       _ <~ print ("Error parsing dates: " ++ str_exn e) ;;
                       ret None) ;;
        match months with
        | Some months => experience_loop w rest (total_months + months)
        | None => experience_loop w rest total_months
        end
  end.

Definition calculate_experience_years (w : World) (experience : ref) : M Q :=
  items <~ iter experience ;;
  total_months <~ experience_loop w items 0 ;;
  ret (py_round (inject_Z total_months / 12) 1).

(** ** [calculate_skill_match] *)

(** [resume_skills] is the method's own set, and so are the lists of
    its comprehensions: no other reference to them exists, and they are
    kept as values *)
Fixpoint skills_loop (skills : ref) (types : list string)
    (resume_skills : gset string) : M (gset string) :=
  match types with
  | [] => ret resume_skills
  | skill_type :: rest =>
      default <~ new_list ;;
      entries <~ get skills skill_type default ;;
      items <~ iter entries ;;
      lowered <~ map_st lower_of items ;;
      skills_loop skills rest (resume_skills ∪ list_to_set lowered)
  end.

Fixpoint responsibilities_loop (w : World) (resps : list ref)
    (resume_skills : gset string) : M (gset string) :=
  match resps with
  | [] => ret resume_skills
  | resp :: rest =>
      lowered <~ lower_of resp ;;
      stop <~ get_stop_words ;;
      responsibilities_loop w rest
        (resume_skills
         ∪ list_to_set (kept_words {| stop_words := stop |} w lowered))
  end.

Fixpoint experience_skills_loop (w : World) (experience : list ref)
    (resume_skills : gset string) : M (gset string) :=
  match experience with
  | [] => ret resume_skills
  | exp :: rest =>
      default <~ new_list ;;
      resps <~ get exp "responsibilities" default ;;
      items <~ iter resps ;;
      resume_skills <~ responsibilities_loop w items resume_skills ;;
      experience_skills_loop w rest resume_skills
  end.

Definition calculate_skill_match (w : World)
    (resume_data job_requirements : ref) : M Q :=
  default <~ new_dict ;;
  skills <~ get resume_data "skills" default ;;
  resume_skills <~ skills_loop skills skill_types ∅ ;;
  default <~ new_list ;;
  experience <~ get resume_data "experience" default ;;
  items <~ iter experience ;;
  resume_skills <~ experience_skills_loop w items resume_skills ;;
  requirements <~ iter job_requirements ;;
  job_requirements_lower <~ map_st lower_of requirements ;;
  let matches := count_matches resume_skills job_requirements_lower in
  given <~ truth job_requirements ;;
  if given : bool then
    n <~ len job_requirements ;;
    ret (round_float (float_mul (true_div matches n) 100) 2)
  else ret 0%Q.

(** ** [analyze_career_progression] *)

(** the loop over the indicators for one pair of neighbours *)
Fixpoint indicator_loop (limit : nat) (indicators : list string)
    (current previous : string) (company company' : ref) (score : Z) : M Z :=
  match indicators with
  | [] => ret score
  | indicator :: rest =>
      if str_in indicator current && negb (str_in indicator previous) then
        indicator_loop limit rest current previous company company' (score + 2)
      else if str_in indicator current && str_in indicator previous then
        same <~ equal limit company company' ;;
        indicator_loop limit rest current previous company company'
          (if same : bool then score + 1 else score)
      else indicator_loop limit rest current previous company company' score
  end.

Fixpoint progression_loop (limit : nat) (positions companies : list ref)
    (score : Z) : M Z :=
  match positions, companies with
  | p :: ((p' :: _) as positions'), c :: ((c' :: _) as companies') =>
      current <~ lower_of p ;;
      previous <~ lower_of p' ;;
      score <~ indicator_loop limit promotion current previous c c' score ;;
      progression_loop limit positions' companies' score
  | _, _ => ret score
  end.

Definition analyze_career_progression (limit : nat) (experience : ref)
  : M ref :=
  given <~ truth experience ;;
  if negb given then
    alloc (ODict [("progression", RStr "No experience data")])
  else
    items <~ iter experience ;;
    positions <~ map_st (fun exp => get exp "position" (RStr "")) items ;;
    items <~ iter experience ;;
    companies <~ map_st (fun exp => get exp "company" (RStr "")) items ;;
    progression_score <~ progression_loop limit positions companies 0 ;;
    let progression_type :=
      if 4 <=? progression_score then "Strong upward progression"
      else if 2 <=? progression_score then "Steady career growth"
      else "Lateral movement or early career" in
    unique <~ len_set_of companies ;;
    alloc (ODict [ ("progression_type", RStr progression_type);
                   ("progression_score", RInt progression_score);
                   ("total_positions", RInt (Z.of_nat (length positions)));
                   ("unique_companies", RInt unique) ]).

(** ** [calculate_ats_score] *)

(** [if x.get(k): score += points] *)
Definition points_if (x : ref) (k : string) (points : Z) : M Z :=
  v <~ get x k RNone ;;
  b <~ truth v ;;
  ret (if b : bool then points else 0).

(** [sum(len(skills.get(k, [])) for k in [...])] *)
Definition total_skills (skills : ref) : M Z :=
  lens <~ map_st (fun k => default <~ new_list ;;
                           v <~ get skills k default ;;
                           len v) skill_types ;;
  ret (fold_left Z.add lens 0).

(** [breakdown] is a dictionary of the method's own, filled key by key
    and handed out in the result *)
Definition calculate_ats_score (resume_data : ref) : M ref :=
  let max_score := 100 in
  breakdown <~ new_dict ;;
  (* personal information *)
  default <~ new_dict ;;
  personal_info <~ get resume_data "personal_info" default ;;
  p1 <~ points_if personal_info "name" 5 ;;
  p2 <~ points_if personal_info "email" 5 ;;
  p3 <~ points_if personal_info "phone" 5 ;;
  p4 <~ points_if personal_info "location" 5 ;;
  let personal_score := p1 + p2 + p3 + p4 in
  _ <~ setitem breakdown "personal_info" (RInt personal_score) ;;
  (* experience section *)
  default <~ new_list ;;
  experience <~ get resume_data "experience" default ;;
  given <~ truth experience ;;
  experience_score <~
    (if given : bool then
       items <~ iter experience ;;
       dated <~ all_st (fun exp => v <~ get exp "start_date" RNone ;;
                                   truth v) items ;;
       items <~ iter experience ;;
       described <~ all_st (fun exp =>
                              default <~ new_list ;;
                              v <~ get exp "responsibilities" default ;;
                              n <~ len v ;; ret (2 <=? n)) items ;;
       ret (10 + (if dated : bool then 10 else 0)
            + (if described : bool then 10 else 0))
     else ret 0) ;;
  _ <~ setitem breakdown "experience" (RInt experience_score) ;;
  (* education *)
  default <~ new_list ;;
  education <~ get resume_data "education" default ;;
  given <~ truth education ;;
  education_score <~
    (if given : bool then
       items <~ iter education ;;
       complete <~ all_st (fun edu =>
                             d <~ get edu "degree" RNone ;;
                             has_degree <~ truth d ;;
                             if has_degree : bool then
                               i <~ get edu "institution" RNone ;;
                               truth i
                             else ret false) items ;;
       ret (10 + (if complete : bool then 5 else 0))
     else ret 0) ;;
  _ <~ setitem breakdown "education" (RInt education_score) ;;
  (* skills *)
  default <~ new_dict ;;
  skills <~ get resume_data "skills" default ;;
  n <~ total_skills skills ;;
  let skills_score :=
    (if 5 <=? n then 10 else 0) + (if 10 <=? n then 10 else 0) in
  _ <~ setitem breakdown "skills" (RInt skills_score) ;;
  (* keywords and formatting *)
  items <~ iter experience ;;
  parts <~ map_st (fun exp => default <~ new_list ;;
                              v <~ get exp "responsibilities" default ;;
                              join " " v) items ;;
  let exp_text := lower (String.concat " " parts) in
  let keyword_score :=
    (if existsb (fun verb => str_in verb exp_text) action_verbs
     then 10 else 0)
    + (if has_quantity exp_text then 5 else 0) in
  _ <~ setitem breakdown "keywords" (RInt keyword_score) ;;
  let score :=
    personal_score + experience_score + education_score + skills_score
    + keyword_score in
  alloc (ODict [ ("total_score", RInt score);
                 ("max_score", RInt max_score);
                 ("percentage",
                   RFloat (py_round (inject_Z score / inject_Z max_score * 100)
                             2));
                 ("breakdown", breakdown) ]).

(** the dictionary that the method returns, for the record that
    [Enhancer.calculate_ats_score] returns *)
Definition ats_dict (score : ats_score) : value :=
  VDict [ ("total_score", VInt (total_score score));
          ("max_score", VInt (max_score score));
          ("percentage", VFloat (percentage score));
          ("breakdown",
            VDict [ ("personal_info",
                      VInt (Breakdown.personal_info (breakdown score)));
                    ("experience",
                      VInt (Breakdown.experience (breakdown score)));
                    ("education",
                      VInt (Breakdown.education (breakdown score)));
                    ("skills", VInt (Breakdown.skills (breakdown score)));
                    ("keywords",
                      VInt (Breakdown.keywords (breakdown score))) ]) ].

(** ** What a call does to the store *)

(** the objects, [self] and the output of [st] are still there in
    [st'] *)
Definition grows (st st' : state) : Prop :=
  heap st `prefix_of` heap st'
  /\ self_stop_words st' = self_stop_words st
  /\ stdout st `prefix_of` stdout st'.

(** [st] with another store *)
Definition with_heap (st : state) (h : list object) : state :=
  {| heap := h; self_stop_words := self_stop_words st; stdout := stdout st |}.

(** the outcome [r] of a call is the outcome [p] of a function on
    values: the same exception, or results that [rel] relates *)
Definition matches {A B} (rel : A -> B -> Prop) (r : result A) (p : result B)
  : Prop :=
  match r, p with
  | Ok a, Ok b => rel a b
  | Raise e, Raise e' => e = e'
  | _, _ => False
  end.

(** [r] stands for the value [v] in the store [h] *)
Definition stands_for (f : nat) (h : list object) (r : ref) (v : value)
  : Prop :=
  deref f h r = Some v.

Definition same {A} (h : list object) (a b : A) : Prop := a = b.

(** [m], run in [st], gives what [p] says and leaves the state as it
    is *)
Definition reads {A B} (rel : list object -> A -> B -> Prop)
    (m : M A) (p : result B) (st : state) : Prop :=
  snd (m st) = st /\ matches (rel (heap st)) (fst (m st)) p.

(** [m], run in [st], gives what [p] says, and what was there in [base]
    is there afterwards *)
Definition refines_from {A B} (base : state)
    (rel : list object -> A -> B -> Prop)
    (m : M A) (p : result B) (st : state) : Prop :=
  grows base (snd (m st))
  /\ matches (rel (heap (snd (m st)))) (fst (m st)) p.

Definition refines {A B} (rel : list object -> A -> B -> Prop)
    (m : M A) (p : result B) (st : state) : Prop :=
  refines_from st rel m p st.

(** a relation that more objects do not break *)
Definition stable {A B} (rel : list object -> A -> B -> Prop) : Prop :=
  forall st st' a b, grows st st' -> rel (heap st) a b -> rel (heap st') a b.

(** the call [m], made in the state [st] with arguments that stand for
    the values [args], returns what [p] says: the same exception, or a
    result that [rel] relates to the one of [p] in the store after the
    call.  Every object that was there is after the call what it was
    before, and so is [self]; what was printed is still there; the
    arguments stand for the values they stood for. *)
Definition call_returns {A B} (limit : nat)
    (rel : list object -> A -> B -> Prop) (m : M A) (st : state)
    (args : list (ref * value)) (p : result B) : Prop :=
  let st' := snd (m st) in
  (forall l o, heap st !! l = Some o -> heap st' !! l = Some o)
  /\ self_stop_words st' = self_stop_words st
  /\ stdout st `prefix_of` stdout st'
  /\ Forall (fun arg => deref limit (heap st') (fst arg) = Some (snd arg)) args
  /\ matches (rel (heap st')) (fst (m st)) p.

(** the kinds of references and of values go together *)
Inductive same_kind (h : list object) (f : nat) : ref -> value -> Prop :=
| kind_none : same_kind h f RNone VNone
| kind_bool b : same_kind h f (RBool b) (VBool b)
| kind_int z : same_kind h f (RInt z) (VInt z)
| kind_float q : same_kind h f (RFloat q) (VFloat q)
| kind_str s : same_kind h f (RStr s) (VStr s)
| kind_list l items vs :
    h !! l = Some (OList items) ->
    Forall2 (fun r v => deref f h r = Some v) items vs ->
    same_kind h f (RObj l) (VList vs)
| kind_dict l items d :
    h !! l = Some (ODict items) ->
    Forall2 (fun kr kv => fst kr = fst kv
                          /\ deref f h (snd kr) = Some (snd kv)) items d ->
    same_kind h f (RObj l) (VDict d).

End Stateful.

(** * [advanced_features.py]: the methods that report on a resume *)

Module Reports.
Import Py Enhancer.

(** [l.append(x)] *)
Definition list_append {A} (l : list A) (x : A) : list A := (l ++ [x])%list.





(** ** [suggest_improvements] *)








(** ** [extract_industry_keywords] *)

Definition industry_keywords : list (string * list string) :=
  [ ("tech", ["software"; "development"; "programming"; "api"; "database";
              "cloud"; "agile"; "devops"]);
    ("finance", ["financial"; "analysis"; "investment"; "portfolio"; "risk";
                 "compliance"; "audit"]);
    ("marketing", ["marketing"; "campaign"; "seo"; "social media"; "brand";
                   "content"; "analytics"]);
    ("healthcare", ["patient"; "clinical"; "medical"; "healthcare";
                    "diagnosis"; "treatment"; "care"]);
    ("education", ["teaching"; "curriculum"; "student"; "learning";
                   "education"; "training"; "instruction"]) ].

(** [for exp in ...: all_text.extend(exp.get('responsibilities', []))] *)
Fixpoint responsibilities_text (experience : list value)
    (all_text : list value) : result (list value) :=
  match experience with
  | [] => Ok all_text
  | exp :: rest =>
      resps <- py_get exp "responsibilities" (VList []) ;;
      items <- py_iter resps ;;
      responsibilities_text rest (all_text ++ items)%list
  end.

(** [for skill_type in skills: all_text.extend(skills.get(skill_type,
    []))]: the keys of a dictionary are strings, and what has items that
    are not strings is no dictionary and has no [get] *)
Fixpoint skills_text (skills : value) (skill_types : list value)
    (all_text : list value) : result (list value) :=
  match skill_types with
  | [] => Ok all_text
  | skill_type :: rest =>
      entries <-
        match skill_type with
        | VStr k => py_get skills k (VList [])
        | _ => Raise (Exn AttributeError "object has no attribute 'get'")
        end ;;
      items <- py_iter entries ;;
      skills_text skills rest (all_text ++ items)%list
  end.

(** the loop over the industries, on the lowercased text *)
Definition detect_industries (full_text : string)
  : list (string * list string) :=
  flat_map
    (fun entry =>
       let matches := List.filter (fun kw => str_in kw full_text) (snd entry) in
       match matches with
       | [] => []
       | _ => [(fst entry, matches)]
       end)
    industry_keywords.

(** the returned dictionary, as the list of its items in insertion
    order *)
Definition extract_industry_keywords (self : ResumeEnhancer) (w : World)
    (resume_data : dict) : result (list (string * list string)) :=
  experience <- py_iter (dict_get resume_data "experience" (VList [])) ;;
  all_text <- responsibilities_text experience [] ;;
  let skills := dict_get resume_data "skills" (VDict []) in
  skill_types <- py_iter skills ;;
  all_text <- skills_text skills skill_types all_text ;;
  joined <- py_join " " (VList all_text) ;;
  let full_text := lower joined in
  Ok (detect_industries full_text).

(** ** [extract_achievements] *)

(** The six patterns are an alternation of words followed by a tail.
    They are searched with [re.IGNORECASE]; the words are in lower case,
    so a character of the subject matches a letter of a word when its
    lower case is that letter. *)
Fixpoint ci_prefix (word s : string) : bool :=
  match word, s with
  | EmptyString, _ => true
  | String a word', String c s' =>
      Ascii.eqb a (lower_char c) && ci_prefix word' s'
  | String _ _, EmptyString => false
  end.

Fixpoint drop_chars (n : nat) (s : string) : string :=
  match n, s with
  | S n', String _ r => drop_chars n' r
  | _, _ => s
  end.

(** a match of [.*?(\d+%?)] or of [.*?(\d+)] at the head of [s]: a
    digit, before any newline *)
Fixpoint digit_on_line (s : string) : bool :=
  match s with
  | EmptyString => false
  | String c r =>
      is_digit c || negb (Ascii.eqb c Extractor.newline) && digit_on_line r
  end.

(** a match of [.*?(\$[\d,]+|\d+%?)] at the head of [s] *)
Fixpoint amount_on_line (s : string) : bool :=
  match s with
  | EmptyString => false
  | String c r =>
      is_digit c
      || Ascii.eqb c "$"
         && match r with
            | String c' _ => is_digit c' || Ascii.eqb c' ","
            | EmptyString => false
            end
      || negb (Ascii.eqb c Extractor.newline) && amount_on_line r
  end.

(** a match of [.*] *)
Definition rest_of_line (s : string) : bool := true.

Definition achievement_patterns : list (list string * (string -> bool)) :=
  [ (["increased"; "improved"; "enhanced"; "boosted"], digit_on_line);
    (["reduced"; "decreased"; "cut"; "saved"], digit_on_line);
    (["generated"; "drove"; "delivered"], amount_on_line);
    (["managed"; "led"; "oversaw"], digit_on_line);
    (["achieved"; "accomplished"; "completed"], rest_of_line);
    (["awarded"; "recognized"; "honored"], rest_of_line) ].

(** [re.search('(?:' + '|'.join(words) + ')' + tail, s, re.IGNORECASE)]
    finds a match: at some position of [s] one of the words is read and
    what follows it matches the tail *)
Fixpoint search_words (words : list string) (tail : string -> bool)
    (s : string) : bool :=
  existsb (fun word => ci_prefix word s && tail (drop_chars (String.length word) s))
    words
  || match s with
     | String _ r => search_words words tail r
     | EmptyString => false
     end.

(** the loop over the patterns, left at the first that matches *)
Definition is_achievement (resp : string) : bool :=
  existsb (fun p => search_words (fst p) (snd p) resp) achievement_patterns.

Definition matches_achievement (resp : value) : result bool :=
  match resp with
  | VStr s => Ok (is_achievement s)
  | _ => Raise (Exn TypeError "expected string or bytes-like object")
  end.

Fixpoint responsibilities_achievements (resps : list value)
    (achievements : list value) : result (list value) :=
  match resps with
  | [] => Ok achievements
  | resp :: rest =>
      found <- matches_achievement resp ;;
      responsibilities_achievements rest
        (if found : bool then list_append achievements resp else achievements)
  end.

Fixpoint experience_achievements (experience : list value)
    (achievements : list value) : result (list value) :=
  match experience with
  | [] => Ok achievements
  | exp :: rest =>
      resps <- py_get exp "responsibilities" (VList []) ;;
      items <- py_iter resps ;;
      achievements <- responsibilities_achievements items achievements ;;
      experience_achievements rest achievements
  end.

(** the items of [set(items)]: of items that are equal the first is
    kept *)
Fixpoint first_distinct (seen items : list value) : list value :=
  match items with
  | [] => []
  | x :: r =>
      if existsb (py_eq x) seen then first_distinct seen r
      else x :: first_distinct (x :: seen) r
  end.

(** [list(set(items))], in an order the caller cannot rely on *)
Definition list_set (items : list value) : result (list value) :=
  if forallb hashable items then Ok (first_distinct [] items)
  else Raise (Exn TypeError "unhashable type").

Definition extract_achievements (self : ResumeEnhancer) (w : World)
    (resume_data : dict) : result (list value) :=
  experience <- py_iter (dict_get resume_data "experience" (VList [])) ;;
  achievements <- experience_achievements experience [] ;;
  explicit <- py_iter (dict_get resume_data "achievements" (VList [])) ;;
  list_set (achievements ++ explicit)%list.

End Reports.

(** * Definitions that follow the words of the specification *)

Module Spec.
Import Py.
Local Open Scope list_scope.

Definition is_dict (v : value) : bool :=
  match v with VDict _ => true | _ => false end.

Definition is_str (v : value) : bool :=
  match v with VStr _ => true | _ => false end.

(** the entries satisfying [p], then the others, each group in its
    original order *)
Definition stable_partition {A} (p : A -> bool) (l : list A) : list A :=
  List.filter p l ++ List.filter (fun x => negb (p x)) l.

(** an entry whose [end_date] is 'Present', an absent one counting as
    'Present' *)
Definition is_current (x : value) : bool :=
  match x with
  | VDict d => Extractor.eq_str (dict_get d "end_date" (VStr "Present")) "Present"
  | _ => false
  end.

(** *** The type-presence checks of the schema, on a [.dict()] *)

Definition opt_str_ok (v : value) : bool :=
  match v with VNone | VStr _ => true | _ => false end.

Definition list_of (p : value -> bool) (v : value) : bool :=
  match v with VList l => forallb p l | _ => false end.

(** key [k] is there and its value passes [p] *)
Definition has (d : dict) (k : string) (p : value -> bool) : bool :=
  match dict_lookup d k with Some v => p v | None => false end.

Definition experience_ok (v : value) : bool :=
  match v with
  | VDict d =>
      has d "company" is_str && has d "position" is_str
      && has d "start_date" opt_str_ok && has d "end_date" opt_str_ok
      && has d "location" opt_str_ok
      && has d "responsibilities" (list_of is_str)
  | _ => false
  end.

Definition education_ok (v : value) : bool :=
  match v with
  | VDict d =>
      has d "institution" is_str && has d "degree" is_str
      && has d "field_of_study" opt_str_ok && has d "start_date" opt_str_ok
      && has d "end_date" opt_str_ok && has d "gpa" opt_str_ok
      && has d "location" opt_str_ok
  | _ => false
  end.

Definition personal_info_ok (v : value) : bool :=
  match v with
  | VDict d =>
      has d "name" is_str && has d "email" opt_str_ok
      && has d "phone" opt_str_ok && has d "location" opt_str_ok
      && has d "linkedin" opt_str_ok && has d "github" opt_str_ok
      && has d "website" opt_str_ok
  | _ => false
  end.

Definition skills_ok (v : value) : bool :=
  match v with
  | VDict d =>
      has d "technical" (list_of is_str) && has d "soft" (list_of is_str)
      && has d "languages" (list_of is_str) && has d "tools" (list_of is_str)
  | _ => false
  end.

Definition project_ok (v : value) : bool :=
  match v with
  | VDict d => forallb (fun kv => is_str (snd kv)) d
  | _ => false
  end.

Definition schema_ok (d : dict) : bool :=
  has d "personal_info" personal_info_ok
  && has d "summary" opt_str_ok
  && has d "experience" (list_of experience_ok)
  && has d "education" (list_of education_ok)
  && has d "skills" skills_ok
  && has d "certifications" (list_of is_str)
  && has d "projects" (list_of project_ok)
  && has d "achievements" (list_of is_str).

(** the email of the returned record, for an email [e] in the input *)
Definition kept_email (e : string) : option string :=
  if negb (String.eqb e "") && negb (str_in "@" e) then None else Some e.

(** *** The repair of a JSON text

    Quote replacement and trailing-comma removal, as the specification
    words them. *)





(** *** The replies of the model *)

(** every reply to the calls [attempt], ..., [attempt + remaining - 1]
    is a text whose cleaned form fails JSON parsing *)
Definition all_garbled (w : Extractor.World) (prompt : string)
    (attempt remaining : nat) : Prop :=
  forall i, (attempt <= i < attempt + remaining)%nat ->
    exists content e,
      Extractor.ollama_chat w i prompt = Extractor.ChatContent content
      /\ Extractor.json_loads w (Extractor.clean_json_response content) = Raise e
      /\ Extractor.is_JSONDecodeError e = true.

(** *** The text of a document, page by page *)

(** the concatenation of the strings of a list *)
Definition join_all (l : list string) : string :=
  fold_right String.append EmptyString l.

Definition line_break : string := String Extractor.newline EmptyString.

(** the recognised words, each followed by a space, line by line, each
    non-empty line followed by a newline *)
Definition ocr_words (result : list Extractor.ocr_line) : string :=
  join_all
    (map (fun line =>
            match line with
            | Some (w :: ws) =>
                (join_all (map (fun word => word ++ " ") (w :: ws))
                 ++ line_break)%string
            | _ => EmptyString
            end) result).

(** the text of one page: its text layer, followed by the OCR words when
    the stripped text layer has fewer than 50 characters *)
Definition page_text (engine : string -> list Extractor.ocr_line)
    (page : Extractor.Page) : string :=
  if Z.of_nat (String.length (strip (Extractor.get_text page))) <? 50
  then (Extractor.get_text page
        ++ ocr_words (engine (Extractor.get_pixmap page (2, 2))))%string
  else Extractor.get_text page.

Definition document_text (engine : string -> list Extractor.ocr_line)
    (pages : list Extractor.Page) : string :=
  join_all (map (fun page => (page_text engine page ++ line_break)%string) pages).

(** the pages that go through OCR, in page order, with their number and
    their rendering at zoom 2 *)
Definition expected_ocr_calls (first : nat) (pages : list Extractor.Page)
  : list Extractor.ocr_call :=
  map (fun ip => (fst ip, Extractor.get_pixmap (snd ip) (2, 2)))
    (List.filter
       (fun ip => Z.of_nat (String.length (strip (Extractor.get_text (snd ip))))
                  <? 50)
       (combine (seq first (length pages)) pages)).

(** *** Resume-shaped dictionaries

    What the analytics expect of their argument: every key may be
    missing; a key that is there holds a value of the shape the resume
    schema gives it. *)

Definition opt_key (d : dict) (k : string) (p : value -> bool) : bool :=
  match dict_lookup d k with Some v => p v | None => true end.

Definition entry_shaped (v : value) : bool :=
  match v with
  | VDict e => opt_key e "responsibilities" (list_of is_str)
  | _ => false
  end.

Definition skills_shaped (v : value) : bool :=
  match v with
  | VDict s => forallb (fun k => opt_key s k (list_of is_str))
                 Enhancer.skill_types
  | _ => false
  end.

Definition resume_shaped (d : dict) : bool :=
  opt_key d "personal_info" is_dict
  && opt_key d "experience" (list_of entry_shaped)
  && opt_key d "education" (list_of is_dict)
  && opt_key d "skills" skills_shaped.

(** *** The ATS score *)

Definition breakdown_sum (b : Enhancer.Breakdown.t) : Z :=
  Enhancer.Breakdown.personal_info b + Enhancer.Breakdown.experience b
  + Enhancer.Breakdown.education b + Enhancer.Breakdown.skills b
  + Enhancer.Breakdown.keywords b.

(** two doubles are the same double *)
Definition same_float (x y : float) : Prop := Prim2SF x = Prim2SF y.

Definition spec_float_eqb (x y : spec_float) : bool :=
  match x, y with
  | S754_zero s, S754_zero t => Bool.eqb s t
  | S754_infinity s, S754_infinity t => Bool.eqb s t
  | S754_nan, S754_nan => true
  | S754_finite s m e, S754_finite t n f =>
      Bool.eqb s t && (m =? n)%positive && (e =? f)
  | _, _ => false
  end.

(** *** Years of experience *)

(** the date a value parses to, if it does *)
Definition parses (w : Enhancer.World) (v : value) : option Enhancer.datetime :=
  match Enhancer._parse_date w v with
  | Ok (Some d) => Some d
  | _ => None
  end.

(** 'present', 'current' or 'now', in any case *)
Definition says_present (v : value) : bool :=
  match v with
  | VStr s => existsb (String.eqb (lower s)) ["present"; "current"; "now"]
  | _ => false
  end.

(** what one entry adds to the total: nothing unless its start date
    parses and its end date says 'present' or parses *)
Definition months_of_entry (w : Enhancer.World) (e : dict) : Z :=
  match parses w (dict_get e "start_date" VNone) with
  | None => 0
  | Some start =>
      let end_date := dict_get e "end_date" VNone in
      let months_until (end_ : Enhancer.datetime) :=
        Z.max 0 ((Enhancer.year end_ - Enhancer.year start) * 12
                 + (Enhancer.month end_ - Enhancer.month start)) in
      if says_present end_date then months_until (Enhancer.now w)
      else
        match parses w end_date with
        | Some end_ => months_until end_
        | None => 0
        end
  end.

Definition total_months (w : Enhancer.World) (entries : list dict) : Z :=
  fold_right Z.add 0 (map (months_of_entry w) entries).

(** *** The skills of a resume *)

(** the strings of a list value *)
Definition strings_of (v : value) : list string :=
  match v with
  | VList l => omap (fun x => match x with VStr s => Some s | _ => None end) l
  | _ => []
  end.



Definition entry_responsibilities (e : value) : list string :=
  match e with
  | VDict e => strings_of (dict_get e "responsibilities" (VList []))
  | _ => []
  end.

(** the responsibilities of all experience entries *)
Definition responsibilities_of (d : dict) : list string :=
  match dict_get d "experience" (VList []) with
  | VList l => flat_map entry_responsibilities l
  | _ => []
  end.




End Spec.

(** * Concrete inputs *)

Module Examples.
Import Py.

Definition job (end_date : string) : value :=
  VDict [("company", VStr "Acme"); ("position", VStr "Engineer");
         ("end_date", VStr end_date)].

Definition two_jobs : dict :=
  [ ("personal_info", VDict [("name", VStr "Ada")]);
    ("experience", VList [job "2019"; job "Present"]) ].

Definition no_position : dict :=
  [ ("personal_info", VDict [("name", VStr "Ada")]);
    ("experience", VList [VDict [("company", VStr "Acme")]]) ].

Definition empty_email : dict :=
  [ ("personal_info", VDict [("name", VStr "Ada"); ("email", VStr "")]) ].

Definition bad_email : dict :=
  [ ("personal_info", VDict [("name", VStr "Ada"); ("email", VStr "ada.example.org")]) ].

(** a world whose model never answers with JSON *)
Definition garbled_world : Extractor.World :=
  {| Extractor.fitz_open := fun _ => Ok [];
     Extractor.ocr := None;
     Extractor.prompt_head := "Resume text:";
     Extractor.prompt_tail := "Return ONLY the JSON:";
     Extractor.ollama_chat := fun _ _ => Extractor.ChatContent "Sorry, I cannot.";
     Extractor.json_loads :=
       fun _ => Raise (Exn JSONDecodeError "Expecting value") |}.



Definition scanned_page : Extractor.Page :=
  {| Extractor.get_text := "  ";
     Extractor.get_pixmap := fun _ => "PNG" |}.

Definition text_page : Extractor.Page :=
  {| Extractor.get_text :=
       "Ada Lovelace, analyst and author of the first published program.";
     Extractor.get_pixmap := fun _ => "PNG" |}.

Definition reading_engine (image : string) : list Extractor.ocr_line :=
  [Some ["Ada"; "Lovelace"]; None; Some ["London"]].

(** a world with a two-page document, the second page a scan *)
Definition scanned_world : Extractor.World :=
  {| Extractor.fitz_open := fun _ => Ok [text_page; scanned_page];
     Extractor.ocr := Some reading_engine;
     Extractor.prompt_head := "Resume text:";
     Extractor.prompt_tail := "Return ONLY the JSON:";
     Extractor.ollama_chat := fun _ _ => Extractor.ChatContent "{}";
     Extractor.json_loads := fun _ => Ok (VDict []) |}.

Definition no_stop_words : Enhancer.ResumeEnhancer :=
  {| Enhancer.stop_words := ∅ |}.

(** a date parser that knows one ISO date *)
Definition iso_parse (fuzzy : bool) (s : string) : result Enhancer.datetime :=
  if String.eqb s "2020-01-15"
  then Ok {| Enhancer.year := 2020; Enhancer.month := 1; Enhancer.day := 15 |}
  else Raise (Exn ValueError "Unknown string format").

(** the world at noon of the given day *)
Definition world_on (y m d : Z) : Enhancer.World :=
  {| Enhancer.now := {| Enhancer.year := y; Enhancer.month := m;
                        Enhancer.day := d |};
     Enhancer.dateutil_parse := iso_parse;
     Enhancer.re_search := fun _ _ => None;
     Enhancer.word_tokenize := fun s => String.words s |}.

(** one position, held since January 2020 and still *)
Definition current_job : value :=
  VList [VDict [ ("company", VStr "Acme"); ("position", VStr "Engineer");
                 ("start_date", VStr "2020-01-15");
                 ("end_date", VStr "Present") ]].

Definition sample_resume : dict :=
  [ ("personal_info",
      VDict [ ("name", VStr "John Doe"); ("email", VStr "john.doe@email.com");
              ("phone", VStr "+1-234-567-8900");
              ("location", VStr "San Francisco, CA") ]);
    ("experience",
      VList [ VDict [ ("company", VStr "Tech Corp");
                      ("position", VStr "Senior Software Engineer");
                      ("start_date", VStr "2020-01-15");
                      ("end_date", VStr "Present");
                      ("responsibilities",
                        VList [ VStr "Led development of microservices architecture reducing latency by 40%";
                                VStr "Managed team of 5 developers";
                                VStr "Implemented CI/CD pipeline using Jenkins and Docker" ]) ] ]);
    ("skills",
      VDict [ ("technical", VList [VStr "Python"; VStr "JavaScript"; VStr "Docker"; VStr "AWS"]);
              ("soft", VList [VStr "Leadership"; VStr "Communication"]);
              ("tools", VList [VStr "Git"; VStr "Jenkins"; VStr "Kubernetes"]) ]) ].

(** the objects of a value, put at the end of a store, and the
    reference to it *)
Fixpoint place (v : value) (h : list Stateful.object) : Stateful.ref * list Stateful.object :=
  match v with
  | VNone => (Stateful.RNone, h)
  | VBool b => (Stateful.RBool b, h)
  | VInt z => (Stateful.RInt z, h)
  | VFloat q => (Stateful.RFloat q, h)
  | VStr s => (Stateful.RStr s, h)
  | VList l =>
      let '(items, h') :=
        (fix place_items (l : list value) (h : list Stateful.object)
           : list Stateful.ref * list Stateful.object :=
           match l with
           | [] => ([], h)
           | x :: rest =>
               let '(r, h1) := place x h in
               let '(rs, h2) := place_items rest h1 in
               (r :: rs, h2)
           end) l h in
      (Stateful.RObj (length h'), (h' ++ [Stateful.OList items])%list)
  | VDict d =>
      let '(items, h') :=
        (fix place_entries (d : list (string * value)) (h : list Stateful.object)
           : list (string * Stateful.ref) * list Stateful.object :=
           match d with
           | [] => ([], h)
           | (k, x) :: rest =>
               let '(r, h1) := place x h in
               let '(rs, h2) := place_entries rest h1 in
               ((k, r) :: rs, h2)
           end) d h in
      (Stateful.RObj (length h'), (h' ++ [Stateful.ODict items])%list)
  end.

(** a store with the sample resume, the list of one current job and a
    list of two requirements *)
Definition office : Stateful.state :=
  let '(_, h1) := place (VDict sample_resume) [] in
  let '(_, h2) := place current_job h1 in
  let '(_, h3) := place (VList [VStr "Python"; VStr "Rust"]) h2 in
  {| Stateful.heap := h3; Stateful.self_stop_words := ∅; Stateful.stdout := [] |}.

Definition office_resume : Stateful.ref :=
  fst (place (VDict sample_resume) []).

Definition office_jobs : Stateful.ref :=
  fst (place current_job
         (snd (place (VDict sample_resume) []))).

Definition office_requirements : Stateful.ref :=
  Stateful.RObj (Nat.pred (length (Stateful.heap office))).

(** another store, with the same values at other places, after some
    output *)
Definition archive : Stateful.state :=
  let '(_, h1) := place (VList [VStr "Python"; VStr "Rust"])
                    [Stateful.OList [Stateful.RInt 7]] in
  let '(_, h2) := place current_job h1 in
  let '(_, h3) := place (VDict sample_resume) h2 in
  {| Stateful.heap := h3; Stateful.self_stop_words := ∅;
     Stateful.stdout := ["Error parsing dates: day is out of range for month"] |}.

Definition archive_requirements : Stateful.ref :=
  fst (place (VList [VStr "Python"; VStr "Rust"]) [Stateful.OList [Stateful.RInt 7]]).

Definition archive_jobs : Stateful.ref :=
  fst (place current_job
         (snd (place (VList [VStr "Python"; VStr "Rust"])
                 [Stateful.OList [Stateful.RInt 7]]))).

Definition archive_resume : Stateful.ref :=
  Stateful.RObj (Nat.pred (length (Stateful.heap archive))).

End Examples.

(** * Notions and inputs of the further properties *)

Module Notions.
Import Py.
Local Open Scope list_scope.

(** ** Shapes of text *)

(** every white space character is a space, and no two of them are
    adjacent; [after_space] tells that a space precedes the string *)
Fixpoint single_spaced (after_space : bool) (s : string) : bool :=
  match s with
  | EmptyString => true
  | String c r =>
      if is_space c
      then Ascii.eqb c " " && negb after_space && single_spaced true r
      else single_spaced false r
  end.

(** the character [a] does not occur *)
Fixpoint lacks (a : ascii) (s : string) : bool :=
  match s with
  | EmptyString => true
  | String c r => negb (Ascii.eqb c a) && lacks a r
  end.

(** no lower-case letter is directly followed by an upper-case one *)
Fixpoint no_camel (s : string) : bool :=
  match s with
  | EmptyString => true
  | String c r =>
      match r with
      | String c' _ => negb (is_lower c && is_upper c')
      | EmptyString => true
      end && no_camel r
  end.

(** the reply after the removal of the two code-fence markers *)
Definition without_fences (text : string) : string :=
  Extractor.sub_marker "```" 0 false
    (Extractor.sub_marker "```json" 0 false text).

(** the number of characters [a] that a string starts with *)
Fixpoint leading (a : ascii) (s : string) : nat :=
  match s with
  | String c r => if Ascii.eqb c a then S (leading a r) else 0%nat
  | EmptyString => 0%nat
  end.

(** what the [try] block of attempt [i] (counted from 0) comes to: the
    parsed reply, or the exception of the call or of the parse *)
Definition attempt_result (w : Extractor.World) (prompt : string) (i : nat)
  : result value :=
  match Extractor.ollama_chat w i prompt with
  | Extractor.ChatFails e => Raise e
  | Extractor.ChatContent content =>
      Extractor.json_loads w (Extractor.clean_json_response content)
  end.

(** the email of a [personal_info] needs no correction: there is no
    such key, or its value is falsy, or it holds an at sign *)
Definition email_settled (info : value) : bool :=
  match Extractor.py_contains "email" info with
  | Ok true =>
      match Extractor.py_getitem info "email" with
      | Ok email =>
          negb (truthy email)
          || match Extractor.py_contains "@" email with
             | Ok b => b
             | Raise _ => false
             end
      | Raise _ => false
      end
  | Ok false => true
  | Raise _ => false
  end.

(** a date as [Experience.parse_dates] leaves it: one that reads
    present, current or now in any letter case is spelled 'Present' *)
Definition date_normal (o : option string) : bool :=
  match o with
  | Some d =>
      negb (Extractor.is_present_word (lower d)) || String.eqb d "Present"
  | None => true
  end.

(** the record that validation makes of the placeholder dictionary *)
Definition placeholder_record : Extractor.ResumeData.t :=
  Extractor.ResumeData.mk
    (Extractor.PersonalInfo.mk "Error parsing resume" None None None None
       None None)
    None [] [] (Extractor.Skills.mk [] [] [] []) [] [] [].

(** the text layers of the pages, each followed by a newline *)
Definition text_layers (pages : list Extractor.Page) : string :=
  Spec.join_all
    (map (fun page => (Extractor.get_text page ++ Spec.line_break)%string)
       pages).


(** an experience entry the career analysis can read: a dictionary
    whose position, if any, is a string and whose company, if any, can
    be a member of a set *)
Definition titled (v : value) : bool :=
  match v with
  | VDict e =>
      Spec.is_str (dict_get e "position" (VStr ""))
      && Enhancer.hashable (dict_get e "company" (VStr ""))
  | _ => false
  end.

(** the keys [calculate_ats_score] reads *)
Definition ats_keys : list string :=
  ["personal_info"; "experience"; "education"; "skills"].





(** every value of the skills dictionary is a list of strings *)
Definition skills_listed (v : value) : bool :=
  match v with
  | VDict s => forallb (fun kv => Spec.list_of Spec.is_str (snd kv)) s
  | _ => false
  end.

(** the strings the industry search reads: the responsibilities, then
    the entries of every category of the skills section, in key order *)
Definition resume_strings (d : dict) : list string :=
  Spec.responsibilities_of d
  ++ match dict_get d "skills" (VDict []) with
     | VDict s =>
         flat_map (fun kv => Spec.strings_of (dict_get s (fst kv) (VList []))) s
     | _ => []
     end.

Definition resume_text (d : dict) : string :=
  lower (String.concat " " (resume_strings d)).

(** the achievements key is absent or holds a list of strings *)
Definition achievements_listed (d : dict) : bool :=
  Spec.opt_key d "achievements" (Spec.list_of Spec.is_str).

End Notions.

Module Cases.
Import Py.

Definition empty_object (s : string) : result value :=
  if String.eqb s "{}" then Ok (VDict [])
  else Raise (Exn JSONDecodeError "Expecting value").

(** a world whose model is unreachable at the first call and answers
    with a fenced empty object afterwards *)
Definition second_try_world : Extractor.World :=
  {| Extractor.fitz_open := fun _ => Ok [];
     Extractor.ocr := None;
     Extractor.prompt_head := "Resume text:";
     Extractor.prompt_tail := "Return ONLY the JSON:";
     Extractor.ollama_chat :=
       fun attempt _ =>
         match attempt with
         | O => Extractor.ChatFails (Exn RuntimeError "connection refused")
         | S _ => Extractor.ChatContent "```json {} ```"
         end;
     Extractor.json_loads := empty_object |}.

(** a world whose model is never reachable *)
Definition offline_world : Extractor.World :=
  {| Extractor.fitz_open := fun _ => Ok [];
     Extractor.ocr := None;
     Extractor.prompt_head := "Resume text:";
     Extractor.prompt_tail := "Return ONLY the JSON:";
     Extractor.ollama_chat :=
       fun _ _ => Extractor.ChatFails (Exn RuntimeError "connection refused");
     Extractor.json_loads := empty_object |}.

Definition long_page : Extractor.Page :=
  {| Extractor.get_text :=
       "Ada Lovelace, London. Analyst at the Analytical Engine project, 1842 to 1843: translated and annotated the Menabrea memoir.";
     Extractor.get_pixmap := fun _ => "PNG" |}.

(** a world without OCR engine, holding a text document and a scan, and
    whose model never answers with JSON *)
Definition no_ocr_world : Extractor.World :=
  {| Extractor.fitz_open :=
       fun pdf => if String.eqb pdf "scan"
                  then Ok [long_page; Examples.scanned_page]
                  else Ok [long_page];
     Extractor.ocr := None;
     Extractor.prompt_head := "Resume text:";
     Extractor.prompt_tail := "Return ONLY the JSON:";
     Extractor.ollama_chat := fun _ _ => Extractor.ChatContent "Sorry, I cannot.";
     Extractor.json_loads :=
       fun _ => Raise (Exn JSONDecodeError "Expecting value") |}.

(** a world whose document has text enough, whose model never answers
    with JSON and whose parser accepts the empty object *)
Definition unhelpful_world : Extractor.World :=
  {| Extractor.fitz_open := fun _ => Ok [long_page];
     Extractor.ocr := None;
     Extractor.prompt_head := "Resume text:";
     Extractor.prompt_tail := "Return ONLY the JSON:";
     Extractor.ollama_chat := fun _ _ => Extractor.ChatContent "Sorry, I cannot.";
     Extractor.json_loads := empty_object |}.

(** a world whose model answers with JSON that is no object *)
Definition list_reply_world : Extractor.World :=
  {| Extractor.fitz_open := fun _ => Ok [long_page];
     Extractor.ocr := None;
     Extractor.prompt_head := "Resume text:";
     Extractor.prompt_tail := "Return ONLY the JSON:";
     Extractor.ollama_chat := fun _ _ => Extractor.ChatContent "[]";
     Extractor.json_loads := fun _ => Ok (VList []) |}.

Definition dated_job (start_date end_date : string) : value :=
  VDict [("company", VStr "Acme"); ("position", VStr "Engineer");
         ("start_date", VStr start_date); ("end_date", VStr end_date)].

Definition dated_jobs : dict :=
  [ ("personal_info", VDict [("name", VStr "Ada"); ("email", VStr "ada")]);
    ("summary", VStr "Analyst");
    ("experience", VList [dated_job "2019" "2021"; dated_job "2021" "NOW"]) ].

Definition careers : dict :=
  [ ("personal_info", VDict [("name", VStr "Ada")]);
    ("experience",
      VList [VDict [ ("company", VStr "Acme"); ("position", VStr "Engineer");
                     ("responsibilities",
                       VList [ VStr "Advised students on their Career";
                               VStr "Improved throughput by 30%";
                               VStr "Wrote documentation" ]) ]]);
    ("skills", VDict [("technical", VList [VStr "Cloud"; VStr "SQL"])]);
    ("achievements", VList [VStr "Improved throughput by 30%"; VStr "Best paper"]) ].

End Cases.

(** * Properties of the Python fragment *)

Module PyFacts.
Import Py.

Lemma bind_Ok {A B} (r : result A) (k : A -> result B) (b : B) :
  bind r k = Ok b -> exists a, r = Ok a /\ k a = Ok b.
Proof. destruct r as [a|e]; simpl; [eauto | discriminate]. Qed.

Lemma dict_lookup_set_eq (d : dict) (k : string) (v : value) :
  dict_lookup (dict_set d k v) k = Some v.
Proof.
  induction d as [|[k' v'] d IH]; simpl.
  - now rewrite String.eqb_refl.
  - destruct (String.eqb k' k) eqn:E; simpl; rewrite E; auto.
Qed.

Lemma dict_lookup_set_ne (d : dict) (k k' : string) (v : value) :
  k <> k' -> dict_lookup (dict_set d k v) k' = dict_lookup d k'.
Proof.
  intros Hne. induction d as [|[k0 v0] d IH]; simpl.
  - destruct (String.eqb k k') eqn:E; [apply String.eqb_eq in E; tauto | easy].
  - destruct (String.eqb k0 k) eqn:E; simpl.
    + apply String.eqb_eq in E; subst k0.
      destruct (String.eqb k k') eqn:E'; [apply String.eqb_eq in E'; tauto | easy].
    + now rewrite IH.
Qed.

Lemma mapM_Ok_map {A B} (f : A -> result B) (g : A -> B) (l : list A) :
  Forall (fun x => f x = Ok (g x)) l -> mapM f l = Ok (map g l).
Proof.
  induction 1 as [|x l Hx _ IH]; simpl; [easy|].
  now rewrite Hx; simpl; rewrite IH.
Qed.

Lemma mapM_app {A B} (f : A -> result B) (l1 l2 : list A) :
  mapM f (l1 ++ l2) =
  (ys1 <- mapM f l1 ;; ys2 <- mapM f l2 ;; Ok (ys1 ++ ys2)%list).
Proof.
  induction l1 as [|x l1 IH]; simpl.
  - destruct (mapM f l2); reflexivity.
  - destruct (f x); simpl; [|reflexivity].
    rewrite IH. destruct (mapM f l1); simpl; [|reflexivity].
    destruct (mapM f l2); reflexivity.
Qed.

Lemma mapM_filter_ok {A B} (f : A -> result B) (p : A -> bool) (l : list A) :
  is_ok (mapM f l) = true -> is_ok (mapM f (List.filter p l)) = true.
Proof.
  induction l as [|x l IH]; simpl; [easy|].
  destruct (f x) eqn:Ex; simpl; [|discriminate].
  destruct (mapM f l); simpl; [|discriminate]. intros _.
  destruct (p x); simpl; [rewrite Ex; simpl|]; specialize (IH eq_refl);
    destruct (mapM f (List.filter p l)); simpl in *; congruence.
Qed.

Ltac inv_bind H :=
  repeat match type of H with
         | bind _ _ = Ok _ =>
             let a := fresh "a" in
             let Ha := fresh "Ha" in
             apply bind_Ok in H as (a & Ha & H)
         end.

Lemma is_ok_bind {A B} (r : result A) (k : A -> result B) :
  is_ok r = true -> (forall a, r = Ok a -> is_ok (k a) = true) ->
  is_ok (bind r k) = true.
Proof. destruct r; simpl; [auto | discriminate]. Qed.

Lemma is_ok_mapM {A B} (f : A -> result B) (l : list A) :
  (forall x, In x l -> is_ok (f x) = true) -> is_ok (mapM f l) = true.
Proof.
  induction l as [|x l IH]; intros H; simpl; [easy|].
  apply is_ok_bind; [apply H; now left|]. intros y _.
  apply is_ok_bind; [|easy]. apply IH. intros z Hz. apply H. now right.
Qed.

Lemma is_ok_py_all {A} (f : A -> result bool) (l : list A) :
  (forall x, In x l -> is_ok (f x) = true) -> is_ok (py_all f l) = true.
Proof.
  induction l as [|x l IH]; intros H; simpl; [easy|].
  apply is_ok_bind; [apply H; now left|]. intros [|] _; [|easy].
  apply IH. intros z Hz. apply H. now right.
Qed.

(** ** Rounding *)

Lemma round_half_even_comp (p q : Q) :
  (p == q)%Q -> round_half_even p = round_half_even q.
Proof.
  intros H. unfold round_half_even.
  rewrite (Qfloor_comp _ _ H).
  assert (E : (p - inject_Z (Qfloor q) == q - inject_Z (Qfloor q))%Q)
    by now rewrite H.
  now rewrite (Qcompare_comp _ _ E _ _ (Qeq_refl _)).
Qed.

Lemma round_half_even_inject (z : Z) : round_half_even (inject_Z z) = z.
Proof.
  unfold round_half_even. rewrite Qfloor_Z.
  assert (E : (inject_Z z - inject_Z z == 0)%Q) by ring.
  now rewrite (Qcompare_comp _ _ E _ _ (Qeq_refl _)).
Qed.

Lemma round_half_even_lower (q : Q) (n : Z) :
  (inject_Z n <= q)%Q -> n <= round_half_even q.
Proof.
  intros H. apply Qfloor_resp_le in H. rewrite Qfloor_Z in H.
  unfold round_half_even. destruct (Qcompare _ _); [destruct (Z.even _)|..]; lia.
Qed.

Lemma round_half_even_upper (q : Q) (n : Z) :
  (q <= inject_Z n)%Q -> round_half_even q <= n.
Proof.
  intros H. pose proof (Qfloor_resp_le _ _ H) as Hf. rewrite Qfloor_Z in Hf.
  assert (Hlt : Qfloor q = n -> (q - inject_Z (Qfloor q) ?= 1 # 2)%Q = Lt).
  { intros E. rewrite E. apply (proj1 (Qlt_alt _ _)). clear E Hf.
    destruct q as [a b].
    unfold Qlt, Qle, Qminus, Qplus, Qopp, inject_Z in *. simpl in *.
    rewrite ?Pos2Z.inj_mul. lia. }
  unfold round_half_even.
  destruct (Qcompare _ _) eqn:E; [destruct (Z.even _)|..]; try lia.
  - destruct (Z.eq_dec (Qfloor q) n) as [e|]; [discriminate (Hlt e) | lia].
  - destruct (Z.eq_dec (Qfloor q) n) as [e|]; [discriminate (Hlt e) | lia].
Qed.

Lemma py_round_inject (z : Z) (ndigits : nat) (q : Q) :
  (q == inject_Z z)%Q -> (py_round q ndigits == inject_Z z)%Q.
Proof.
  intros H. unfold py_round.
  set (scale := 10 ^ Z.of_nat ndigits).
  assert (Hs : 0 < scale) by (apply Z.pow_pos_nonneg; lia).
  rewrite (round_half_even_comp _ (inject_Z (z * scale))).
  - rewrite round_half_even_inject. unfold Qeq, inject_Z. simpl.
    rewrite Z2Pos.id by assumption. lia.
  - rewrite H. unfold Qeq, inject_Z. simpl. lia.
Qed.

Lemma py_round_bounds (q : Q) (ndigits : nat) (lo hi : Z) :
  (inject_Z lo <= q)%Q -> (q <= inject_Z hi)%Q ->
  (inject_Z lo <= py_round q ndigits)%Q /\ (py_round q ndigits <= inject_Z hi)%Q.
Proof.
  intros Hlo Hhi. unfold py_round.
  set (scale := 10 ^ Z.of_nat ndigits).
  assert (Hs : 0 < scale) by (apply Z.pow_pos_nonneg; lia).
  assert (Hsq : (0 <= inject_Z scale)%Q) by (unfold Qle; simpl; lia).
  assert (H1 : lo * scale <= round_half_even (q * inject_Z scale)).
  { apply round_half_even_lower. rewrite inject_Z_mult.
    now apply Qmult_le_compat_r. }
  assert (H2 : round_half_even (q * inject_Z scale) <= hi * scale).
  { apply round_half_even_upper. rewrite inject_Z_mult.
    now apply Qmult_le_compat_r. }
  unfold Qle. simpl. rewrite Z2Pos.id by assumption. lia.
Qed.

(** ** Binary64 arithmetic *)











End PyFacts.

(** * Properties of [resume_extractor.py] *)

Module ExtractorFacts.
Import Py Extractor Spec PyFacts.
Local Open Scope list_scope.

(** ** The stable sort *)

Section SortDesc.
Context {A : Type}.
Implicit Types (x : bool * A) (l : list (bool * A)).

Lemma insert_desc_true x l : fst x = true -> insert_desc x l = x :: l.
Proof.
  intros Hx. destruct l as [|y r]; simpl; [easy|].
  rewrite Hx. now destruct (fst y).
Qed.

Lemma insert_desc_false x l1 l2 :
  fst x = false ->
  Forall (fun y => fst y = true) l1 ->
  insert_desc x (l1 ++ List.filter (fun y => negb (fst y)) l2)
  = l1 ++ x :: List.filter (fun y => negb (fst y)) l2.
Proof.
  intros Hx Hl1. induction Hl1 as [|y l1 Hy _ IH]; simpl.
  - destruct (List.filter _ l2) as [|y r] eqn:E; simpl; [easy|].
    assert (Hin : In y (List.filter (fun y => negb (fst y)) l2))
      by (rewrite E; now left).
    apply filter_In in Hin as [_ Hy]. rewrite Hx.
    destruct (fst y); [discriminate | reflexivity].
  - rewrite Hx, Hy; simpl. now rewrite IH.
Qed.

Lemma sort_desc_partition l :
  sort_desc l = List.filter fst l ++ List.filter (fun y => negb (fst y)) l.
Proof.
  induction l as [|x l IH]; simpl; [easy|].
  rewrite IH. destruct (fst x) eqn:Hx; simpl.
  - now apply insert_desc_true.
  - apply insert_desc_false; [easy|].
    apply List.Forall_forall. intros y Hy. now apply filter_In in Hy.
Qed.

End SortDesc.

Lemma filter_keyed {A} (p : A -> bool) (q : bool -> bool) (l : list A) :
  map snd (List.filter (fun y => q (fst y)) (map (fun x => (p x, x)) l))
  = List.filter (fun x => q (p x)) l.
Proof.
  induction l as [|x l IH]; simpl; [easy|].
  destruct (q (p x)); simpl; now rewrite IH.
Qed.

Lemma sorted_reverse_partition (items : list value) :
  Forall (fun x => is_dict x = true) items ->
  sorted_reverse present_key items = Ok (stable_partition is_current items).
Proof.
  intros Hd. unfold sorted_reverse.
  rewrite (mapM_Ok_map _ (fun x => (is_current x, x))).
  - simpl. rewrite sort_desc_partition, map_app. unfold stable_partition.
    rewrite (filter_keyed is_current (fun b => b)).
    rewrite (filter_keyed is_current negb).
    reflexivity.
  - eapply List.Forall_impl; [|exact Hd]. intros [] H; try discriminate. reflexivity.
Qed.

(** ** What the statements of [validate_and_enhance] touch *)

Lemma contains_lookup (d : dict) (k : string) (v : value) :
  dict_lookup d k = Some v -> dict_contains d k = true.
Proof. unfold dict_contains. now intros ->. Qed.

Lemma ensure_personal_info_other (data : dict) (k : string) :
  k <> "personal_info" ->
  dict_lookup (ensure_personal_info data) k = dict_lookup data k.
Proof.
  intros Hk. unfold ensure_personal_info.
  destruct (negb _); [|reflexivity].
  apply dict_lookup_set_ne. congruence.
Qed.

Lemma ensure_personal_info_present (data : dict) :
  dict_contains (ensure_personal_info data) "personal_info" = true.
Proof.
  unfold ensure_personal_info.
  destruct (dict_contains data "personal_info") eqn:E; simpl; [exact E|].
  unfold dict_contains. now rewrite dict_lookup_set_eq.
Qed.

Lemma check_email_shape (data data' : dict) :
  check_email data = Ok data' ->
  data' = data
  \/ exists info, dict_lookup data "personal_info" = Some (VDict info)
                  /\ data' = dict_set data "personal_info"
                              (VDict (dict_set info "email" VNone)).
Proof.
  unfold check_email. simpl py_getitem.
  destruct (dict_lookup data "personal_info") as [info|]; simpl; [|discriminate].
  destruct (py_contains "email" info) as [[|]|]; simpl; try discriminate.
  2: { intros H. left. congruence. }
  destruct (py_getitem info "email") as [email|]; simpl; [|discriminate].
  destruct (truthy email); [|intros H; left; congruence].
  destruct (py_contains "@" email) as [[|]|]; simpl; try discriminate.
  { intros H. left. congruence. }
  destruct info as [| | | | | |info]; simpl; try discriminate.
  intros H. injection H as <-. right. now exists info.
Qed.

Lemma check_email_other (data data' : dict) (k : string) :
  check_email data = Ok data' -> k <> "personal_info" ->
  dict_lookup data' k = dict_lookup data k.
Proof.
  intros H Hk. apply check_email_shape in H as [->|(info & _ & ->)]; [easy|].
  apply dict_lookup_set_ne. congruence.
Qed.

Lemma sort_experience_other (data data' : dict) (k : string) :
  sort_experience data = Ok data' -> k <> "experience" ->
  dict_lookup data' k = dict_lookup data k.
Proof.
  unfold sort_experience. intros H Hk.
  destruct (_ && _).
  - inv_bind H. injection H as <-. apply dict_lookup_set_ne. congruence.
  - now injection H as <-.
Qed.

Lemma sort_experience_list (data : dict) (entries : list value) :
  dict_lookup data "experience" = Some (VList entries) ->
  entries <> [] ->
  Forall (fun x => is_dict x = true) entries ->
  sort_experience data
  = Ok (dict_set data "experience"
          (VList (stable_partition is_current entries))).
Proof.
  intros Hl Hne Hd. unfold sort_experience, dict_get.
  rewrite (contains_lookup _ _ _ Hl), Hl. simpl.
  destruct entries as [|x entries]; [congruence|]. simpl truthy. cbv iota.
  now rewrite sorted_reverse_partition.
Qed.

(** ** What the validated record holds *)

Lemma validate_ResumeData_fields (data : dict) (r : ResumeData.t) :
  validate_ResumeData data = Ok r ->
  (exists info, dict_lookup data "personal_info" = Some info
                /\ validate_PersonalInfo info = Ok (ResumeData.personal_info r))
  /\ field_list validate_Experience data "experience"
     = Ok (ResumeData.experience r).
Proof.
  unfold validate_ResumeData. intros H. inv_bind H. injection H as <-. simpl.
  split; [|assumption].
  destruct (dict_lookup data "personal_info") as [info|]; [eauto|discriminate].
Qed.

Lemma stable_partition_none {A} (p : A -> bool) (l : list A) :
  forallb (fun x => negb (p x)) l = true -> stable_partition p l = l.
Proof.
  unfold stable_partition. induction l as [|x l IH]; simpl; [easy|].
  intros H. apply andb_prop in H as [Hx Hl]. rewrite Hx.
  destruct (p x); [discriminate|]. simpl in *.
  specialize (IH Hl). destruct (List.filter p l) as [|y f] eqn:E.
  - simpl in *. now rewrite IH.
  - assert (Hy : In y (List.filter p l)) by (rewrite E; now left).
    apply filter_In in Hy as [Hy Hp].
    rewrite forallb_forall in Hl. specialize (Hl y Hy).
    rewrite Hp in Hl. discriminate.
Qed.

(** C9.  When the statements before the sort do not raise and the
    experience value is a non-empty list of dictionaries,
    [validate_and_enhance] replaces that list by its stable partition:
    the entries whose [end_date] is 'Present' (an absent one counting as
    'Present') come first, the others follow, and both groups keep their
    order.  That list is what the call leaves in [data] and what is
    validated into the returned record.  Dates are never compared: a list
    without any 'Present' entry is left exactly as it was. *)
Theorem experience_stably_partitioned
    (data data2 : dict) (entries : list value) :
  check_email (ensure_personal_info data) = Ok data2 ->
  dict_lookup data "experience" = Some (VList entries) ->
  entries <> [] ->
  Forall (fun x => is_dict x = true) entries ->
  let sorted := stable_partition is_current entries in
  fst (validate_and_enhance data)
    = dict_set data2 "experience" (VList sorted)
  /\ dict_lookup (fst (validate_and_enhance data)) "experience"
     = Some (VList sorted)
  /\ (forall r, snd (validate_and_enhance data) = Ok r ->
       mapM validate_Experience sorted = Ok (ResumeData.experience r))
  /\ (forallb (fun x => negb (is_current x)) entries = true ->
       sorted = entries).
Proof.
  intros Hmail Hl Hne Hd sorted.
  assert (Hl2 : dict_lookup data2 "experience" = Some (VList entries)).
  { rewrite (check_email_other _ _ _ Hmail) by discriminate.
    rewrite ensure_personal_info_other by discriminate. exact Hl. }
  unfold validate_and_enhance. rewrite Hmail.
  rewrite (sort_experience_list _ _ Hl2 Hne Hd). simpl. fold sorted.
  repeat split.
  - apply dict_lookup_set_eq.
  - intros r Hr. apply validate_ResumeData_fields in Hr as [_ Hr].
    unfold field_list in Hr. now rewrite dict_lookup_set_eq in Hr.
  - apply stable_partition_none.
Qed.

Lemma experience_stably_partitioned_witness :
  check_email (ensure_personal_info Examples.two_jobs) = Ok Examples.two_jobs
  /\ dict_lookup (fst (validate_and_enhance Examples.two_jobs)) "experience"
     = Some (VList [Examples.job "Present"; Examples.job "2019"]).
Proof.
  split; [reflexivity|].
  refine (proj1 (proj2 (experience_stably_partitioned Examples.two_jobs
            Examples.two_jobs [Examples.job "2019"; Examples.job "Present"]
            eq_refl eq_refl _ _))).
  - discriminate.
  - repeat constructor.
Defined.

(** ** The schema on the way out *)

Lemma forallb_map {A B} (f : A -> B) (p : B -> bool) (l : list A) :
  (forall x, p (f x) = true) -> forallb p (map f l) = true.
Proof. intros H. induction l; simpl; [easy|]. now rewrite H, IHl. Qed.

Lemma opt_str_ok_opt_str (o : option string) : opt_str_ok (opt_str o) = true.
Proof. now destruct o. Qed.

Lemma str_list_ok (l : list string) : list_of is_str (str_list l) = true.
Proof. simpl. now apply forallb_map. Qed.

Lemma PersonalInfo_dict_ok (p : PersonalInfo.t) :
  personal_info_ok (VDict (PersonalInfo_dict p)) = true.
Proof. destruct p as [n [e|] [ph|] [l|] [li|] [g|] [w|]]; reflexivity. Qed.

Lemma Education_dict_ok (e : Education.t) :
  education_ok (VDict (Education_dict e)) = true.
Proof. destruct e as [i d [f|] [s|] [e|] [g|] [l|]]; reflexivity. Qed.

Lemma Experience_dict_ok (e : Experience.t) :
  experience_ok (VDict (Experience_dict e)) = true.
Proof.
  destruct e as [c p [s|] [e|] [l|] rs];
    unfold experience_ok, has; simpl; now apply forallb_map.
Qed.

Lemma Skills_dict_ok (k : Skills.t) : skills_ok (VDict (Skills_dict k)) = true.
Proof.
  destruct k as [t s l o]. unfold skills_ok, has. simpl.
  now rewrite !forallb_map.
Qed.

Lemma project_dict_ok (p : list (string * string)) :
  project_ok (VDict (project_dict p)) = true.
Proof. simpl. now apply forallb_map. Qed.

Lemma to_dict_schema_ok (r : ResumeData.t) : schema_ok (to_dict r) = true.
Proof.
  unfold schema_ok, has, to_dict. cbn [dict_lookup String.eqb Ascii.eqb Bool.eqb].
  rewrite PersonalInfo_dict_ok, Skills_dict_ok, opt_str_ok_opt_str, !str_list_ok.
  unfold list_of.
  rewrite (forallb_map _ _ _ Experience_dict_ok).
  rewrite (forallb_map _ _ _ Education_dict_ok).
  rewrite (forallb_map _ _ _ project_dict_ok).
  reflexivity.
Qed.

(** ** The steps of a call that returns *)

Lemma validate_and_enhance_returns (data : dict) (r : ResumeData.t) :
  snd (validate_and_enhance data) = Ok r ->
  exists data2 data3,
    check_email (ensure_personal_info data) = Ok data2
    /\ sort_experience data2 = Ok data3
    /\ validate_ResumeData data3 = Ok r
    /\ fst (validate_and_enhance data) = data3.
Proof.
  unfold validate_and_enhance.
  destruct (check_email _) as [data2|]; [|discriminate].
  destruct (sort_experience data2) as [data3|] eqn:E3; [|discriminate].
  simpl. intros H. exists data2, data3. auto.
Qed.

Lemma validate_PersonalInfo_email (d : dict) (p : PersonalInfo.t) :
  validate_PersonalInfo (VDict d) = Ok p ->
  field_opt_str d "email" = Ok (PersonalInfo.email p).
Proof.
  unfold validate_PersonalInfo. intros H. inv_bind H. now injection H as <-.
Qed.

Lemma check_email_string (data info : dict) (e : string) :
  dict_lookup data "personal_info" = Some (VDict info) ->
  dict_lookup info "email" = Some (VStr e) ->
  check_email data
  = Ok (match kept_email e with
        | None => dict_set data "personal_info"
                    (VDict (dict_set info "email" VNone))
        | Some _ => data
        end).
Proof.
  intros Hi He. unfold check_email, kept_email. simpl py_getitem. rewrite Hi.
  simpl. rewrite (contains_lookup _ _ _ He), He. simpl.
  destruct (String.eqb e ""); simpl; [reflexivity|].
  destruct (str_in "@" e); reflexivity.
Qed.

Lemma returned_email (data info : dict) (e : string) (r : ResumeData.t) :
  snd (validate_and_enhance data) = Ok r ->
  dict_lookup data "personal_info" = Some (VDict info) ->
  dict_lookup info "email" = Some (VStr e) ->
  PersonalInfo.email (ResumeData.personal_info r) = kept_email e.
Proof.
  intros Hr Hi He.
  apply validate_and_enhance_returns in Hr as (data2 & data3 & H2 & H3 & Hv & _).
  unfold ensure_personal_info in H2.
  rewrite (contains_lookup _ _ _ Hi) in H2. simpl in H2.
  rewrite (check_email_string _ _ _ Hi He) in H2. injection H2 as <-.
  apply validate_ResumeData_fields in Hv as [(v & Hv & Hp) _].
  rewrite (sort_experience_other _ _ _ H3) in Hv by discriminate.
  destruct (kept_email e) as [e'|] eqn:Hk.
  - rewrite Hi in Hv. injection Hv as <-.
    apply validate_PersonalInfo_email in Hp. unfold field_opt_str in Hp.
    rewrite He in Hp. simpl in Hp. injection Hp as <-.
    unfold kept_email in Hk. now destruct (_ && _).
  - rewrite dict_lookup_set_eq in Hv. injection Hv as <-.
    apply validate_PersonalInfo_email in Hp. unfold field_opt_str in Hp.
    rewrite dict_lookup_set_eq in Hp. simpl in Hp. now injection Hp as <-.
Qed.

(** ** A dictionary the schema accepts is accepted after the enhancement *)

Lemma validate_PersonalInfo_dict (v : value) :
  is_ok (validate_PersonalInfo v) = true -> exists d, v = VDict d.
Proof. destruct v; try discriminate. eauto. Qed.

Lemma validate_PersonalInfo_no_email (d : dict) :
  is_ok (validate_PersonalInfo (VDict d)) = true ->
  is_ok (validate_PersonalInfo (VDict (dict_set d "email" VNone))) = true.
Proof.
  unfold validate_PersonalInfo, field_str, field_opt_str.
  rewrite !dict_lookup_set_eq, !dict_lookup_set_ne by discriminate.
  destruct (match dict_lookup d "name" with Some v => as_str v | None => _ end);
    simpl; [|discriminate].
  destruct (match dict_lookup d "email" with Some v => _ | None => _ end);
    simpl; [|discriminate].
  repeat match goal with
         | |- context [bind ?r _] => destruct r; simpl; try discriminate
         end.
  all: auto.
Qed.

Lemma check_email_valid (data d : dict) :
  dict_lookup data "personal_info" = Some (VDict d) ->
  is_ok (validate_PersonalInfo (VDict d)) = true ->
  check_email data = Ok data
  \/ check_email data
     = Ok (dict_set data "personal_info" (VDict (dict_set d "email" VNone))).
Proof.
  intros Hi Hv.
  destruct (validate_PersonalInfo (VDict d)) as [p|] eqn:Hp; [|discriminate].
  apply validate_PersonalInfo_email in Hp. unfold field_opt_str in Hp.
  destruct (dict_lookup d "email") as [email|] eqn:He.
  - destruct email; try discriminate.
    + left. unfold check_email. simpl py_getitem. rewrite Hi. simpl.
      now rewrite (contains_lookup _ _ _ He), He.
    + rewrite (check_email_string _ _ _ Hi He).
      destruct (kept_email s); auto.
  - left. unfold check_email. simpl py_getitem. rewrite Hi. simpl.
    unfold dict_contains. now rewrite He.
Qed.

Lemma mapM_validate_Experience_dicts (l : list value) :
  is_ok (mapM validate_Experience l) = true ->
  Forall (fun x => is_dict x = true) l.
Proof.
  induction l as [|x l IH]; simpl; [constructor|].
  destruct (validate_Experience x) eqn:Ex; simpl; [|discriminate].
  destruct (mapM validate_Experience l); simpl; [|discriminate].
  intros _. constructor; [|now apply IH].
  now destruct x.
Qed.

Lemma mapM_partition_ok {A B} (f : A -> result B) (p : A -> bool) (l : list A) :
  is_ok (mapM f l) = true -> is_ok (mapM f (stable_partition p l)) = true.
Proof.
  intros H. unfold stable_partition. rewrite mapM_app.
  pose proof (mapM_filter_ok f p l H) as H1.
  pose proof (mapM_filter_ok f (fun x => negb (p x)) l H) as H2.
  destruct (mapM f (List.filter p l)); [|discriminate].
  destruct (mapM f (List.filter _ l)); [|discriminate]. reflexivity.
Qed.

Lemma sort_experience_valid (data : dict) :
  is_ok (field_list validate_Experience data "experience") = true ->
  exists data3, sort_experience data = Ok data3
    /\ is_ok (field_list validate_Experience data3 "experience") = true
    /\ forall k, k <> "experience" -> dict_lookup data3 k = dict_lookup data k.
Proof.
  intros H.
  assert (Hsame : sort_experience data = Ok data ->
                  exists data3, sort_experience data = Ok data3
                    /\ is_ok (field_list validate_Experience data3 "experience") = true
                    /\ forall k, k <> "experience" ->
                                 dict_lookup data3 k = dict_lookup data k)
    by (intros E; exists data; auto).
  unfold field_list in H.
  destruct (dict_lookup data "experience") as [v|] eqn:Hl.
  - destruct v as [| | | | |l|]; try discriminate.
    destruct l as [|x l].
    + apply Hsame. unfold sort_experience, dict_get. rewrite Hl. simpl.
      now rewrite andb_false_r.
    + pose proof (mapM_validate_Experience_dicts _ H) as Hd.
      rewrite (sort_experience_list _ _ Hl) by (congruence || assumption).
      eexists. split; [reflexivity|]. split.
      * unfold field_list. rewrite dict_lookup_set_eq.
        now apply mapM_partition_ok.
      * intros k Hk. apply dict_lookup_set_ne. congruence.
  - apply Hsame. unfold sort_experience, dict_contains. now rewrite Hl.
Qed.

Lemma validate_ok_transfer (data data' : dict) :
  (forall k, k <> "personal_info" -> k <> "experience" ->
             dict_lookup data' k = dict_lookup data k) ->
  (exists v, dict_lookup data' "personal_info" = Some v
             /\ is_ok (validate_PersonalInfo v) = true) ->
  is_ok (field_list validate_Experience data' "experience") = true ->
  is_ok (validate_ResumeData data) = true ->
  is_ok (validate_ResumeData data') = true.
Proof.
  intros Hk (v & Hv & Hp) He.
  unfold validate_ResumeData. rewrite Hv.
  destruct (validate_PersonalInfo v); [|discriminate].
  destruct (field_list validate_Experience data' "experience"); [|discriminate].
  unfold field_opt_str, field_list. rewrite !Hk by discriminate.
  repeat match goal with
         | |- context [bind ?r _] => destruct r; simpl; try discriminate
         end.
  all: auto.
Qed.

Lemma validate_and_enhance_accepts (data : dict) :
  is_ok (validate_ResumeData data) = true ->
  is_ok (snd (validate_and_enhance data)) = true.
Proof.
  intros Hok.
  destruct (validate_ResumeData data) as [r|] eqn:Hr; [|discriminate].
  pose proof (validate_ResumeData_fields _ _ Hr) as [(v & Hv & Hp) Hexp].
  assert (Hp' : is_ok (validate_PersonalInfo v) = true) by now rewrite Hp.
  destruct (validate_PersonalInfo_dict _ Hp') as [d ->].
  unfold validate_and_enhance, ensure_personal_info.
  rewrite (contains_lookup _ _ _ Hv). simpl negb. cbv iota.
  assert (Hexp' : is_ok (field_list validate_Experience data "experience") = true)
    by now rewrite Hexp.
  assert (Hrok : is_ok (validate_ResumeData data) = true) by now rewrite Hr.
  destruct (check_email_valid _ _ Hv Hp') as [-> | ->].
  - destruct (sort_experience_valid _ Hexp') as (data3 & -> & H3 & Hk). simpl.
    apply (validate_ok_transfer data); auto.
    exists (VDict d). rewrite Hk by discriminate. auto.
  - set (data2 := dict_set data "personal_info" _).
    assert (Hexp2 : is_ok (field_list validate_Experience data2 "experience") = true).
    { unfold field_list, data2. rewrite dict_lookup_set_ne by discriminate.
      exact Hexp'. }
    destruct (sort_experience_valid _ Hexp2) as (data3 & -> & H3 & Hk). simpl.
    apply (validate_ok_transfer data); auto.
    + intros k H1 H2. rewrite Hk by assumption.
      apply dict_lookup_set_ne. congruence.
    + eexists. rewrite Hk by discriminate. unfold data2.
      rewrite dict_lookup_set_eq. split; [reflexivity|].
      now apply validate_PersonalInfo_no_email.
Qed.

(** ** The key [personal_info] after the call *)

Lemma check_email_inserted (data : dict) :
  dict_contains data "personal_info" = false ->
  check_email (ensure_personal_info data)
  = Ok (dict_set data "personal_info" (VDict [])).
Proof.
  intros H. unfold ensure_personal_info, check_email. rewrite H. simpl.
  now rewrite dict_lookup_set_eq.
Qed.

Lemma personal_info_after (data : dict) :
  exists v, dict_lookup (fst (validate_and_enhance data)) "personal_info" = Some v
            /\ (dict_contains data "personal_info" = false -> v = VDict []).
Proof.
  pose proof (ensure_personal_info_present data) as Hp.
  unfold validate_and_enhance.
  destruct (dict_contains data "personal_info") eqn:Hc.
  - assert (Hv : exists v, dict_lookup (ensure_personal_info data) "personal_info" = Some v).
    { unfold dict_contains in Hp. destruct (dict_lookup _ _); [eauto|discriminate]. }
    destruct Hv as [v Hv].
    destruct (check_email _) as [data2|] eqn:H2; simpl.
    + assert (Hv2 : exists v2, dict_lookup data2 "personal_info" = Some v2).
      { apply check_email_shape in H2 as [->|(info & _ & ->)]; [eauto|].
        rewrite dict_lookup_set_eq. eauto. }
      destruct Hv2 as [v2 Hv2].
      destruct (sort_experience data2) as [data3|] eqn:H3; simpl.
      * exists v2. rewrite (sort_experience_other _ _ _ H3) by discriminate.
        split; [assumption|discriminate].
      * exists v2. split; [assumption|discriminate].
    + exists v. split; [assumption|discriminate].
  - rewrite (check_email_inserted _ Hc).
    exists (VDict []).
    destruct (sort_experience _) as [data3|] eqn:H3; simpl.
    + rewrite (sort_experience_other _ _ _ H3) by discriminate.
      now rewrite dict_lookup_set_eq.
    + now rewrite dict_lookup_set_eq.
Qed.

(** C7 (amended).  [validate_and_enhance] leaves a [personal_info] key
    in [data], an empty dictionary when the key was absent.  It returns
    a record for every dictionary that the schema accepts as it stands
    (on others it can raise).  Whenever it returns, the record is the
    validation of [data] as the call leaves it; its [.dict()] passes the
    type-presence checks of the schema ([personal_info.name] a string,
    [company] and [position] strings in every experience entry,
    [institution] and [degree] strings in every education entry, every
    list field present); and an input email that is a string comes back
    as [None] when it is non-empty and has no at sign, and unchanged
    otherwise (so an empty email stays the empty string). *)
Theorem validate_and_enhance_schema (data : dict) :
  dict_contains (fst (validate_and_enhance data)) "personal_info" = true
  /\ (dict_contains data "personal_info" = false ->
      dict_lookup (fst (validate_and_enhance data)) "personal_info"
      = Some (VDict []))
  /\ (is_ok (validate_ResumeData data) = true ->
      is_ok (snd (validate_and_enhance data)) = true)
  /\ (forall r, snd (validate_and_enhance data) = Ok r ->
        validate_ResumeData (fst (validate_and_enhance data)) = Ok r
        /\ schema_ok (to_dict r) = true
        /\ forall info e,
             dict_lookup data "personal_info" = Some (VDict info) ->
             dict_lookup info "email" = Some (VStr e) ->
             PersonalInfo.email (ResumeData.personal_info r) = kept_email e).
Proof.
  destruct (personal_info_after data) as (v & Hv & Hempty).
  split; [now apply (contains_lookup _ _ v)|].
  split; [intros H; now rewrite Hv, (Hempty H)|].
  split; [apply validate_and_enhance_accepts|].
  intros r Hr. split; [|split].
  - apply validate_and_enhance_returns in Hr as (d2 & d3 & _ & _ & Hr & ->).
    exact Hr.
  - apply to_dict_schema_ok.
  - intros info e. now apply returned_email.
Qed.

Lemma validate_and_enhance_schema_witness :
  is_ok (validate_ResumeData Examples.bad_email) = true
  /\ exists r, snd (validate_and_enhance Examples.bad_email) = Ok r
               /\ PersonalInfo.email (ResumeData.personal_info r) = None.
Proof.
  split; [reflexivity|].
  eexists. split; [reflexivity|].
  destruct (validate_and_enhance_schema Examples.bad_email) as (_ & _ & _ & H).
  destruct (H _ eq_refl) as (_ & _ & He).
  exact (He _ _ eq_refl eq_refl).
Defined.

(** C7 as it was stated fails twice.  A dictionary whose experience
    entry has no [position] is not turned into a record: the call
    raises.  And an email that is the empty string has no at sign, yet
    it is not replaced by [None]. *)
Lemma validate_and_enhance_not_total :
  (exists msg, snd (validate_and_enhance Examples.no_position)
               = Raise (Exn ValidationError msg))
  /\ exists r, snd (validate_and_enhance Examples.empty_email) = Ok r
               /\ str_in "@" "" = false
               /\ PersonalInfo.email (ResumeData.personal_info r) = Some "".
Proof.
  split; [eexists; reflexivity|].
  eexists. split; [reflexivity|]. split; reflexivity.
Qed.

(** ** The text helpers on small inputs *)

Example clean_text_example :
  clean_text "  helloWorld |x   fooBar  " = "hello World Ix foo Bar".
Proof. reflexivity. Qed.

Example clean_json_response_example :
  clean_json_response "Here you go: ```json  {'name': 'Ada',} ``` Bye}"
  = "{'name': 'Ada',} Bye}".
Proof. reflexivity. Qed.

Example clean_json_response_crossed : clean_json_response "} {" = "".
Proof. reflexivity. Qed.

Example repair_json_example : repair_json "{a: [1, 2 , ], b: 3 , }" = "{a: [1, 2 ], b: 3 }".
Proof. reflexivity. Qed.

Example sort_example :
  sorted_reverse present_key
    [Examples.job "2019"; VDict []; Examples.job "Present"; Examples.job "2023"]
  = Ok [VDict []; Examples.job "Present"; Examples.job "2019"; Examples.job "2023"].
Proof. reflexivity. Qed.

(** ** Concatenation of strings *)

Lemma append_cons (c : ascii) (s t : string) :
  (String c s ++ t)%string = String c (s ++ t).
Proof. reflexivity. Qed.


Lemma append_nil_r (s : string) : (s ++ "")%string = s.
Proof.
  induction s as [|c s IH]; [reflexivity|]. now rewrite append_cons, IH.
Qed.

Lemma append_assoc (s t u : string) :
  ((s ++ t) ++ u)%string = (s ++ (t ++ u))%string.
Proof.
  induction s as [|c s IH]; [reflexivity|]. now rewrite !append_cons, IH.
Qed.

(** ** The retry loop *)

Section Retry.
Variables (w : World) (prompt : string) (max_retries : Z).


Lemma retry_loop_garbled_step (attempt remaining : nat)
    (json_text : option string) (content : string) (e : exn) :
  ollama_chat w attempt prompt = ChatContent content ->
  json_loads w (clean_json_response content) = Raise e ->
  is_JSONDecodeError e = true ->
  retry_loop w prompt max_retries attempt (S remaining) json_text
  = if Z.of_nat attempt =? max_retries - 1
    then (fix_json_errors w (clean_json_response content), S attempt)
    else retry_loop w prompt max_retries (S attempt) remaining
           (Some (clean_json_response content)).
Proof. intros Hc Hl He. cbn [retry_loop]. now rewrite Hc, Hl, He. Qed.

Lemma retry_loop_all_garbled (remaining attempt : nat) (json_text : option string) :
  Z.of_nat (attempt + S remaining) = max_retries ->
  all_garbled w prompt attempt (S remaining) ->
  exists content,
    ollama_chat w (attempt + remaining) prompt = ChatContent content
    /\ retry_loop w prompt max_retries attempt (S remaining) json_text
       = (fix_json_errors w (clean_json_response content),
          (attempt + S remaining)%nat).
Proof.
  revert attempt json_text.
  induction remaining as [|remaining IH]; intros attempt json_text Hmax Hall.
  - destruct (Hall attempt ltac:(lia)) as (content & e & Hc & Hl & He).
    exists content. rewrite Nat.add_0_r. split; [exact Hc|].
    rewrite (retry_loop_garbled_step _ _ _ _ _ Hc Hl He).
    replace (Z.of_nat attempt =? max_retries - 1) with true
      by (symmetry; apply Z.eqb_eq; lia).
    f_equal. lia.
  - destruct (Hall attempt ltac:(lia)) as (content & e & Hc & Hl & He).
    destruct (IH (S attempt) (Some (clean_json_response content)))
      as (last & Hlast & Hloop); [lia | intros i Hi; apply Hall; lia |].
    exists last. split.
    + now replace (attempt + S remaining)%nat with (S attempt + remaining)%nat by lia.
    + rewrite (retry_loop_garbled_step _ _ _ _ _ Hc Hl He).
      replace (Z.of_nat attempt =? max_retries - 1) with false
        by (symmetry; apply Z.eqb_neq; lia).
      rewrite Hloop. f_equal. lia.
Qed.

End Retry.


Lemma fix_json_errors_placeholder (w : World) (json_text : string) :
  is_ok (json_loads w (repair_json json_text)) = false ->
  fix_json_errors w json_text = Ok placeholder.
Proof. unfold fix_json_errors. now destruct (json_loads w _). Qed.

(** ** The repair is the one the specification words *)







(** C2.  [POST /extract] answers 400 with detail 'Only PDF files are
    supported' when the file name does not end in '.pdf'.  Otherwise,
    when the processing raises, it answers 500 with the message of the
    exception as detail, and [extract_resume] raises the [ValueError]
    'Could not extract sufficient text from PDF' when the extracted text
    has fewer than 100 characters; when the processing returns, the
    answer is the [.dict()] of the record, which matches the schema. *)
Theorem extract_endpoint_responses (w : World) (filename file : string) :
  (endswith filename ".pdf" = false ->
   extract_endpoint w filename file
   = HTTPException 400 "Only PDF files are supported")
  /\ (endswith filename ".pdf" = true ->
      forall e, extract_resume w file = Raise e ->
      extract_endpoint w filename file = HTTPException 500 (str_exn e))
  /\ (endswith filename ".pdf" = true ->
      forall r, extract_resume w file = Ok r ->
      extract_endpoint w filename file = JSONResponse (to_dict r)
      /\ schema_ok (to_dict r) = true)
  /\ (forall text, fst (extract_text_from_pdf w file) = Ok text ->
      Z.of_nat (String.length (strip text)) < 100 ->
      extract_resume w file
      = Raise (Exn ValueError "Could not extract sufficient text from PDF")).
Proof.
  unfold extract_endpoint. repeat split.
  - now intros ->.
  - intros -> e ->. reflexivity.
  - now rewrite H, H0.
  - apply to_dict_schema_ok.
  - intros text Ht Hlen. unfold extract_resume. rewrite Ht. simpl.
    now replace (_ <? 100) with true by (symmetry; apply Z.ltb_lt; lia).
Qed.

Lemma extract_endpoint_responses_witness :
  endswith "cv.pdf" ".pdf" = true
  /\ extract_endpoint Examples.garbled_world "cv.pdf" "%PDF"
     = HTTPException 500 "Could not extract sufficient text from PDF".
Proof.
  split; [reflexivity|].
  destruct (extract_endpoint_responses Examples.garbled_world "cv.pdf" "%PDF")
    as (_ & H500 & _ & Hshort).
  rewrite (H500 eq_refl _ (Hshort "" eq_refl ltac:(simpl; lia))).
  reflexivity.
Defined.

(** ** The text of a document *)

Lemma fold_words (ws : list string) (t : string) :
  fold_left (fun t word => (t ++ word ++ " ")%string) ws t
  = (t ++ join_all (map (fun word => (word ++ " ")%string) ws))%string.
Proof.
  revert t. induction ws as [|word ws IH]; intros t; simpl.
  - now rewrite append_nil_r.
  - now rewrite IH, append_assoc.
Qed.

Lemma append_ocr_words (result : list ocr_line) (page_text : string) :
  append_ocr page_text result = (page_text ++ ocr_words result)%string.
Proof.
  unfold append_ocr, ocr_words. revert page_text.
  induction result as [|line result IH]; intros page_text; simpl.
  - now rewrite append_nil_r.
  - rewrite IH. destruct line as [[|word ws]|]; try reflexivity.
    rewrite fold_words. unfold line_break.
    now rewrite !append_assoc.
Qed.

Lemma pages_loop_spec (w : World) (engine : string -> list ocr_line)
    (pages : list Page) (page_num : nat) (text : string)
    (calls : list ocr_call) :
  ocr w = Some engine ->
  pages_loop w page_num pages text calls
  = (Ok (text ++ document_text engine pages)%string,
     calls ++ expected_ocr_calls page_num pages).
Proof.
  intros Hocr. revert page_num text calls.
  induction pages as [|page pages IH]; intros page_num text calls.
  - simpl. unfold document_text, expected_ocr_calls. simpl.
    now rewrite append_nil_r, app_nil_r.
  - cbn [pages_loop]. rewrite Hocr.
    unfold document_text, expected_ocr_calls, page_text, needs_ocr.
    cbn [map join_all fold_right length seq combine List.filter snd].
    destruct (_ <? 50) eqn:Hshort.
    + rewrite IH, append_ocr_words. unfold line_break.
      cbn [map fst snd]. rewrite <- !app_assoc, !append_assoc. reflexivity.
    + rewrite IH. unfold line_break. rewrite !append_assoc. reflexivity.
Qed.

(** C4.  With the OCR engine available, [extract_text_from_pdf] goes
    through the pages in page order.  It calls the engine for exactly
    the pages whose stripped text layer has fewer than 50 characters, in
    page order, each on the rendering of the page at zoom 2; the text of
    such a page is its text layer followed by the recognised words.  The
    result is [clean_text] of the concatenation of the page texts, each
    followed by a newline. *)
Theorem extract_text_from_pdf_pipeline (w : World) (pdf : string)
    (pages : list Page) (engine : string -> list ocr_line) :
  fitz_open w pdf = Ok pages ->
  ocr w = Some engine ->
  extract_text_from_pdf w pdf
  = (Ok (clean_text (document_text engine pages)),
     expected_ocr_calls 0 pages).
Proof.
  intros Hopen Hocr. unfold extract_text_from_pdf.
  now rewrite Hopen, (pages_loop_spec w engine) by assumption.
Qed.

Lemma extract_text_from_pdf_pipeline_witness :
  fitz_open Examples.scanned_world "%PDF"
  = Ok [Examples.text_page; Examples.scanned_page]
  /\ extract_text_from_pdf Examples.scanned_world "%PDF"
     = (Ok "Ada Lovelace, analyst and author of the first published program. Ada Lovelace London",
        [(1%nat, "PNG")]).
Proof.
  split; [reflexivity|].
  rewrite (extract_text_from_pdf_pipeline Examples.scanned_world "%PDF"
             [Examples.text_page; Examples.scanned_page]
             Examples.reading_engine eq_refl eq_refl).
  reflexivity.
Defined.

End ExtractorFacts.

(** * Properties of [advanced_features.py] *)

Module EnhancerFacts.
Import Py Enhancer Spec PyFacts.
Local Open Scope list_scope.

(** ** Resume-shaped dictionaries *)

Lemma opt_key_get (d : dict) (k : string) (p : value -> bool) (default : value) :
  opt_key d k p = true -> p default = true -> p (dict_get d k default) = true.
Proof. unfold opt_key, dict_get. now destruct (dict_lookup d k). Qed.

Lemma is_dict_inv (v : value) : is_dict v = true -> exists d, v = VDict d.
Proof. destruct v; try discriminate. eauto. Qed.

Lemma list_of_inv (p : value -> bool) (v : value) :
  list_of p v = true -> exists l, v = VList l /\ forallb p l = true.
Proof. destruct v; try discriminate. eauto. Qed.

Lemma shaped_personal_info (d : dict) :
  resume_shaped d = true ->
  exists info, dict_get d "personal_info" (VDict []) = VDict info.
Proof.
  unfold resume_shaped. rewrite !andb_true_iff. intros [[[H _] _] _].
  apply is_dict_inv. now apply opt_key_get.
Qed.

Lemma shaped_experience (d : dict) :
  resume_shaped d = true ->
  exists l, dict_get d "experience" (VList []) = VList l
            /\ forallb entry_shaped l = true.
Proof.
  unfold resume_shaped. rewrite !andb_true_iff. intros [[[_ H] _] _].
  apply list_of_inv. now apply opt_key_get.
Qed.

Lemma shaped_education (d : dict) :
  resume_shaped d = true ->
  exists l, dict_get d "education" (VList []) = VList l
            /\ forallb is_dict l = true.
Proof.
  unfold resume_shaped. rewrite !andb_true_iff. intros [[_ H] _].
  apply list_of_inv. now apply opt_key_get.
Qed.

Lemma shaped_skills (d : dict) :
  resume_shaped d = true ->
  exists s, dict_get d "skills" (VDict []) = VDict s
            /\ forall k, In k skill_types ->
                 exists l, dict_get s k (VList []) = VList l
                           /\ forallb is_str l = true.
Proof.
  unfold resume_shaped. rewrite !andb_true_iff. intros [_ H].
  apply (opt_key_get _ _ _ (VDict [])) in H; [|reflexivity].
  destruct (dict_get d "skills" (VDict [])) as [| | | | | |s]; try discriminate.
  exists s. split; [reflexivity|]. intros k Hk. unfold skills_shaped in H.
  rewrite forallb_forall in H. apply list_of_inv.
  apply opt_key_get; [now apply H | reflexivity].
Qed.

Lemma entry_shaped_inv (v : value) :
  entry_shaped v = true ->
  exists e l, v = VDict e
              /\ dict_get e "responsibilities" (VList []) = VList l
              /\ forallb is_str l = true.
Proof.
  destruct v as [| | | | | |e]; try discriminate. simpl. intros H.
  apply (opt_key_get _ _ _ (VList [])) in H; [|reflexivity].
  apply list_of_inv in H as (l & Hl & Hs). now exists e, l.
Qed.

Lemma is_str_inv (v : value) : is_str v = true -> exists s, v = VStr s.
Proof. destruct v; try discriminate. eauto. Qed.

(** every [.dict()] of a validated record is resume-shaped *)
Lemma to_dict_resume_shaped (r : Extractor.ResumeData.t) :
  resume_shaped (Extractor.to_dict r) = true.
Proof.
  unfold resume_shaped, opt_key, Extractor.to_dict.
  cbn [dict_lookup String.eqb Ascii.eqb Bool.eqb andb is_dict list_of].
  rewrite !andb_true_iff. repeat split.
  - apply ExtractorFacts.forallb_map. intros e. unfold entry_shaped, opt_key.
    cbn. now apply ExtractorFacts.forallb_map.
  - now apply ExtractorFacts.forallb_map.
  - unfold skills_shaped, opt_key. cbn.
    now rewrite !ExtractorFacts.forallb_map.
Qed.

(** ** The ATS score *)

Lemma points_if_range (x : value) (k : string) (points v : Z) :
  points_if x k points = Ok v -> v = 0 \/ v = points.
Proof.
  unfold points_if. intros H. inv_bind H. injection H as <-.
  destruct (truthy _); auto.
Qed.

Ltac open_blocks :=
  repeat match goal with
         | H : bind _ _ = Ok _ |- _ => apply bind_Ok in H as (? & ? & H)
         | H : (if ?c then _ else _) = Ok _ |- _ => destruct c
         | H : Ok _ = Ok _ |- _ => injection H as <-
         | H : points_if _ _ _ = Ok _ |- _ => apply points_if_range in H
         end.

Lemma calculate_ats_score_sound (self : ResumeEnhancer) (w : World)
    (resume_data : dict) (r : ats_score) :
  calculate_ats_score self w resume_data = Ok r ->
  total_score r = breakdown_sum (breakdown r)
  /\ max_score r = 100
  /\ percentage r
     = py_round (inject_Z (total_score r) / inject_Z (max_score r) * 100) 2
  /\ 0 <= total_score r <= 100.
Proof.
  unfold calculate_ats_score. intros H. open_blocks.
  all: unfold breakdown_sum; simpl.
  all: repeat split; try reflexivity.
  all: repeat match goal with
              | |- context [if ?b then _ else _] => destruct b
              end; lia.
Qed.

Lemma percentage_is_score (score : Z) :
  (py_round (inject_Z score / inject_Z 100 * 100) 2 == inject_Z score)%Q.
Proof.
  apply py_round_inject. unfold Qeq, Qdiv, Qmult, Qinv, inject_Z. simpl. lia.
Qed.

Lemma spec_float_eqb_eq (x y : spec_float) :
  spec_float_eqb x y = true -> x = y.
Proof.
  destruct x as [s|s| |s m e], y as [t|t| |t n f]; simpl; try discriminate.
  - intros H. apply Bool.eqb_prop in H. congruence.
  - intros H. apply Bool.eqb_prop in H. congruence.
  - reflexivity.
  - rewrite !andb_true_iff. intros [[H1 H2] H3].
    apply Bool.eqb_prop in H1. apply Pos.eqb_eq in H2. apply Z.eqb_eq in H3.
    congruence.
Qed.

Lemma percentage_binary64_exact (score : Z) :
  0 <= score <= 100 ->
  same_float (percentage_binary64 score 100) (float_of_Z score).
Proof.
  intros Hs.
  assert (H : forallb (fun n => spec_float_eqb
                         (Prim2SF (percentage_binary64 (Z.of_nat n) 100))
                         (Prim2SF (float_of_Z (Z.of_nat n))))
                (seq 0 101) = true) by (vm_compute; reflexivity).
  rewrite forallb_forall in H. specialize (H (Z.to_nat score)).
  rewrite Z2Nat.id in H by lia.
  apply spec_float_eqb_eq, H, in_seq. lia.
Qed.

Lemma is_ok_points_if (info : dict) (k : string) (points : Z) :
  is_ok (points_if (VDict info) k points) = true.
Proof. reflexivity. Qed.

Lemma is_ok_py_join (sep : string) (l : list value) :
  forallb is_str l = true -> is_ok (py_join sep (VList l)) = true.
Proof.
  intros H. unfold py_join. simpl.
  apply is_ok_bind; [|easy]. apply is_ok_mapM. intros x Hx.
  rewrite forallb_forall in H. now destruct (is_str_inv _ (H x Hx)) as [s ->].
Qed.

Lemma is_ok_total_skills (s : dict) :
  (forall k, In k skill_types ->
     exists l, dict_get s k (VList []) = VList l /\ forallb is_str l = true) ->
  is_ok (total_skills (VDict s)) = true.
Proof.
  intros H. unfold total_skills. apply is_ok_bind; [|easy].
  apply is_ok_mapM. intros k Hk. simpl.
  now destruct (H k Hk) as (l & -> & _).
Qed.

Lemma calculate_ats_score_total (self : ResumeEnhancer) (w : World)
    (resume_data : dict) :
  resume_shaped resume_data = true ->
  is_ok (calculate_ats_score self w resume_data) = true.
Proof.
  intros Hs. unfold calculate_ats_score.
  destruct (shaped_personal_info _ Hs) as [info ->].
  destruct (shaped_experience _ Hs) as (exps & -> & Hexps).
  destruct (shaped_education _ Hs) as (edus & -> & Hedus).
  destruct (shaped_skills _ Hs) as (skills & -> & Hskills).
  rewrite forallb_forall in Hexps, Hedus.
  do 4 (apply is_ok_bind; [apply is_ok_points_if | intros ? _]).
  apply is_ok_bind; [|intros ? _].
  { destruct (truthy (VList exps)); [|reflexivity]. simpl py_iter.
    apply is_ok_bind; [reflexivity | intros ? [= <-]].
    apply is_ok_bind; [|intros ? _].
    - apply is_ok_py_all. intros x Hx.
      now destruct (entry_shaped_inv _ (Hexps x Hx)) as (e & l & -> & _).
    - apply is_ok_bind; [|easy]. apply is_ok_py_all. intros x Hx.
      destruct (entry_shaped_inv _ (Hexps x Hx)) as (e & l & -> & Hl & _).
      simpl. now rewrite Hl. }
  apply is_ok_bind; [|intros ? _].
  { destruct (truthy (VList edus)); [|reflexivity]. simpl py_iter.
    apply is_ok_bind; [reflexivity | intros ? [= <-]].
    apply is_ok_bind; [|easy]. apply is_ok_py_all. intros x Hx.
    destruct (is_dict_inv _ (Hedus x Hx)) as [e ->]. simpl.
    now destruct (truthy _). }
  apply is_ok_bind; [now apply is_ok_total_skills | intros ? _].
  apply is_ok_bind; [reflexivity | intros ? [= <-]].
  apply is_ok_bind; [|easy]. apply is_ok_mapM. intros x Hx.
  destruct (entry_shaped_inv _ (Hexps x Hx)) as (e & l & -> & Hl & Hstr).
  simpl. rewrite Hl. now apply is_ok_py_join.
Qed.

(** C3.  On a resume-shaped dictionary [calculate_ats_score] returns,
    and whatever it returns on any dictionary has: [total_score] the sum
    of the five components of the breakdown, [max_score] 100,
    [percentage] the value of [round(total_score / 100 * 100, 2)], which
    is the number [total_score] (as a rational, and as the double that
    the binary64 computation yields), and [total_score], hence the
    percentage, between 0 and 100. *)
Theorem ats_score_is_percentage (self : ResumeEnhancer) (w : World)
    (resume_data : dict) :
  (resume_shaped resume_data = true ->
   is_ok (calculate_ats_score self w resume_data) = true)
  /\ forall r, calculate_ats_score self w resume_data = Ok r ->
       total_score r
       = Breakdown.personal_info (breakdown r)
         + Breakdown.experience (breakdown r)
         + Breakdown.education (breakdown r)
         + Breakdown.skills (breakdown r)
         + Breakdown.keywords (breakdown r)
       /\ max_score r = 100
       /\ percentage r
          = py_round (inject_Z (total_score r) / inject_Z 100 * 100) 2
       /\ (percentage r == inject_Z (total_score r))%Q
       /\ same_float (percentage_binary64 (total_score r) (max_score r))
            (float_of_Z (total_score r))
       /\ 0 <= total_score r <= 100
       /\ (0 <= percentage r <= 100)%Q.
Proof.
  split; [apply calculate_ats_score_total|].
  intros r Hr. apply calculate_ats_score_sound in Hr as (Hsum & Hmax & Hp & Hb).
  rewrite Hmax in Hp. rewrite Hmax, Hp.
  pose proof (percentage_is_score (total_score r)) as Hq.
  repeat split; try assumption; try lia.
  - now apply percentage_binary64_exact.
  - rewrite Hq. change 0%Q with (inject_Z 0). rewrite <- Zle_Qle. lia.
  - rewrite Hq. change 100%Q with (inject_Z 100). rewrite <- Zle_Qle. lia.
Qed.

Lemma ats_score_is_percentage_witness :
  resume_shaped Examples.sample_resume = true
  /\ exists r,
       calculate_ats_score Examples.no_stop_words (Examples.world_on 2024 1 10)
         Examples.sample_resume = Ok r
       /\ total_score r = 75
       /\ (percentage r == 75)%Q.
Proof.
  split; [reflexivity|].
  eexists. split; [reflexivity|]. split; [reflexivity|].
  destruct (ats_score_is_percentage Examples.no_stop_words
              (Examples.world_on 2024 1 10) Examples.sample_resume) as [_ H].
  destruct (H _ eq_refl) as (_ & _ & _ & Hq & _). exact Hq.
Defined.

(** ** Years of experience *)

Lemma parse_falsy (w : World) (v : value) :
  truthy v = false -> _parse_date w v = Ok None.
Proof. unfold _parse_date. now intros ->. Qed.

Lemma parse_not_str (w : World) (v : value) :
  truthy v = true -> is_str v = false -> is_ok (_parse_date w v) = false.
Proof. unfold _parse_date. intros ->. now destruct v. Qed.

Lemma experience_loop_step (w : World) (e : dict) (rest : list value) (acc : Z) :
  experience_loop w (VDict e :: rest) acc
  = experience_loop w rest (acc + months_of_entry w e).
Proof.
  cbn [experience_loop py_get bind]. unfold months_of_entry, parses.
  set (start_date := dict_get e "start_date" VNone).
  set (end_date := dict_get e "end_date" VNone).
  destruct (truthy start_date) eqn:Hs; cbn [negb].
  2: { rewrite (parse_falsy _ _ Hs). now rewrite Z.add_0_r. }
  unfold entry_months.
  destruct (_parse_date w start_date) as [[start|]|]; cbn [bind];
    rewrite ?Z.add_0_r; try reflexivity.
  clearbody start_date end_date.
  destruct (truthy end_date) eqn:He.
  - destruct (is_str end_date) eqn:Hstr.
    + destruct end_date as [| | | |s| |]; try discriminate Hstr.
      cbn [py_lower bind says_present]. unfold present_words.
      destruct (existsb _ _); cbn [bind]; [reflexivity|].
      destruct (_parse_date w (VStr s)) as [[end_|]|]; cbn [bind];
        rewrite ?Z.add_0_r; reflexivity.
    + pose proof (parse_not_str w _ He Hstr) as Hn.
      destruct end_date; try discriminate Hstr;
        cbn [py_lower bind says_present];
        destruct (_parse_date w _) as [[?|]|]; try discriminate Hn;
        rewrite ?Z.add_0_r; reflexivity.
  - cbn [bind]. rewrite (parse_falsy _ _ He). cbn [bind].
    assert (says_present end_date = false) as ->.
    { destruct end_date as [| | | |s| |]; try reflexivity.
      destruct s; [reflexivity | discriminate He]. }
    now rewrite Z.add_0_r.
Qed.

Lemma experience_loop_total (w : World) (entries : list dict) (acc : Z) :
  experience_loop w (map VDict entries) acc = Ok (acc + total_months w entries).
Proof.
  revert acc. induction entries as [|e entries IH]; intros acc.
  - simpl. now rewrite Z.add_0_r.
  - cbn [map]. rewrite experience_loop_step, IH. unfold total_months.
    cbn [map fold_right]. f_equal. lia.
Qed.

Lemma total_months_nonneg (w : World) (entries : list dict) :
  0 <= total_months w entries.
Proof.
  unfold total_months. induction entries as [|e entries IH]; simpl; [lia|].
  assert (0 <= months_of_entry w e); [|lia].
  unfold months_of_entry. destruct (parses _ _); [|lia].
  destruct (says_present _); [lia|]. destruct (parses _ _); lia.
Qed.

Lemma experience_loop_years (self : ResumeEnhancer) (w : World)
    (entries : list dict) :
  calculate_experience_years self w (VList (map VDict entries))
  = Ok (py_round (inject_Z (total_months w entries) / 12) 1).
Proof.
  unfold calculate_experience_years. cbn [py_iter bind].
  now rewrite experience_loop_total.
Qed.

(** C5.  On a list of experience entries [calculate_experience_years]
    returns [round(total_months / 12, 1)], where [total_months] sums,
    over the entries whose start date parses and whose end date says
    'present', 'current' or 'now' in any case (then the current date is
    taken) or else parses, the number
    [max(0, (end.year - start.year) * 12 + (end.month - start.month))];
    every other entry adds 0, and the result is never negative. *)
Theorem experience_years_formula (self : ResumeEnhancer) (w : World)
    (entries : list dict) :
  calculate_experience_years self w (VList (map VDict entries))
  = Ok (py_round (inject_Z (total_months w entries) / 12) 1)
  /\ total_months w entries
     = fold_right Z.add 0 (map (months_of_entry w) entries)
  /\ 0 <= total_months w entries
  /\ (0 <= py_round (inject_Z (total_months w entries) / 12) 1)%Q.
Proof.
  pose proof (total_months_nonneg w entries) as Hpos.
  repeat split; try assumption.
  - apply experience_loop_years.
  - apply (py_round_bounds _ 1 0 (total_months w entries)).
    + apply Qle_shift_div_l; [reflexivity|].
      rewrite Qmult_0_l. change 0%Q with (inject_Z 0). now rewrite <- Zle_Qle.
    + apply Qle_shift_div_r; [reflexivity|].
      unfold Qle, Qmult, inject_Z. simpl. lia.
Qed.

(** In binary64 the quotient [total_months / 12] is rounded before
    [round] sees it; up to a hundred years of months the result is the
    double nearest to the same decimal. *)
Lemma experience_years_binary64 (months : Z) :
  0 <= months <= 1200 ->
  (round_float (true_div months 12) 1
   == binary64 (py_round (inject_Z months / 12) 1))%Q.
Proof.
  intros Hm.
  assert (H : forallb (fun n =>
                Qeq_bool (round_float (true_div (Z.of_nat n) 12) 1)
                  (binary64 (py_round (inject_Z (Z.of_nat n) / 12) 1)))
                (seq 0 1201) = true) by (vm_compute; reflexivity).
  rewrite forallb_forall in H. specialize (H (Z.to_nat months)).
  rewrite Z2Nat.id in H by lia. apply Qeq_bool_iff, H, in_seq. lia.
Qed.

(** ** The skill sets *)

Lemma strings_of_shaped (l : list value) :
  forallb is_str l = true -> l = map VStr (strings_of (VList l)).
Proof.
  induction l as [|x l IH]; simpl; [easy|].
  rewrite andb_true_iff. intros [Hx Hl].
  destruct (is_str_inv _ Hx) as [s ->]. simpl in *. f_equal. now apply IH.
Qed.

Lemma mapM_lower (ss : list string) :
  mapM py_lower (map VStr ss) = Ok (map lower ss).
Proof. induction ss as [|x ss IH]; simpl; [easy|]. now rewrite IH. Qed.











(** 23 requirements of 160: the quotient and the product are rounded,
    the product falls below 14.375, and the result is the double
    nearest to 14.37, as the machine computes it, where the exact
    quotient would give 14.38 *)
Example skill_percentage_of_23_in_160 :
  (float_mul (true_div 23 160) 100 < 14375 # 1000)%Q
  /\ (round_float (float_mul (true_div 23 160) 100) 2
      == binary64 (1437 # 100))%Q
  /\ (round_float (float_mul (true_div 23 160) 100) 2
      == Q_of_float (percentage_binary64 23 160))%Q
  /\ (py_round (inject_Z 23 / inject_Z 160 * 100) 2 == 1438 # 100)%Q.
Proof. repeat split; now vm_compute. Qed.





(** ** Comparing two resumes *)









(** ** What the analytics read of their environment *)

Section TwoWorlds.
Variables (self1 self2 : ResumeEnhancer) (w1 w2 : World).

Section Dates.
Hypothesis same_year : year (now w1) = year (now w2).
Hypothesis same_month : month (now w1) = month (now w2).
Hypothesis same_dateutil :
  forall fuzzy s, dateutil_parse w1 fuzzy s = dateutil_parse w2 fuzzy s.
Hypothesis same_re :
  forall pattern s, re_search w1 pattern s = re_search w2 pattern s.

Lemma try_patterns_ext (pats : list string) (s : string) :
  try_patterns w1 pats s = try_patterns w2 pats s.
Proof.
  induction pats as [|pattern pats IH]; [reflexivity|].
  cbn [try_patterns]. rewrite same_re, IH.
  destruct (re_search w2 pattern s) as [[|g1 [|g2 [|g3 gs]]]|]; try reflexivity.
  now rewrite same_dateutil.
Qed.

Lemma _parse_date_ext (v : value) : _parse_date w1 v = _parse_date w2 v.
Proof.
  unfold _parse_date. destruct (negb (truthy v)); [reflexivity|].
  destruct v; try reflexivity. now rewrite same_dateutil, try_patterns_ext.
Qed.

Lemma entry_months_ext (start_date end_date : value) :
  entry_months w1 start_date end_date = entry_months w2 start_date end_date.
Proof.
  unfold entry_months, months_between.
  now rewrite !_parse_date_ext, same_year, same_month.
Qed.

Lemma experience_loop_ext (items : list value) (acc : Z) :
  experience_loop w1 items acc = experience_loop w2 items acc.
Proof.
  revert acc. induction items as [|x items IH]; intros acc; [reflexivity|].
  cbn [experience_loop].
  destruct (py_get x "start_date" VNone) as [start_date|]; [|reflexivity].
  destruct (py_get x "end_date" VNone) as [end_date|]; [|reflexivity].
  cbn [bind]. rewrite entry_months_ext. destruct (negb _); [apply IH|].
  destruct (entry_months w2 start_date end_date) as [[months|]|]; apply IH.
Qed.

Lemma calculate_experience_years_ext (experience : value) :
  calculate_experience_years self1 w1 experience
  = calculate_experience_years self2 w2 experience.
Proof.
  unfold calculate_experience_years.
  destruct (py_iter experience) as [items|]; [|reflexivity].
  cbn [bind]. now rewrite experience_loop_ext.
Qed.
End Dates.

Section Words.
Hypothesis same_stop_words : stop_words self1 = stop_words self2.
Hypothesis same_tokens : forall s, word_tokenize w1 s = word_tokenize w2 s.

Lemma kept_words_ext (resp : string) :
  kept_words self1 w1 resp = kept_words self2 w2 resp.
Proof. unfold kept_words. now rewrite same_stop_words, same_tokens. Qed.

Lemma responsibilities_loop_ext (resps : list value) (acc : gset string) :
  responsibilities_loop self1 w1 resps acc
  = responsibilities_loop self2 w2 resps acc.
Proof.
  revert acc. induction resps as [|resp resps IH]; intros acc; [reflexivity|].
  cbn [responsibilities_loop]. destruct (py_lower resp); [|reflexivity].
  cbn [bind]. now rewrite kept_words_ext, IH.
Qed.

Lemma experience_skills_loop_ext (experience : list value) (acc : gset string) :
  experience_skills_loop self1 w1 experience acc
  = experience_skills_loop self2 w2 experience acc.
Proof.
  revert acc. induction experience as [|exp rest IH]; intros acc; [reflexivity|].
  cbn [experience_skills_loop].
  destruct (py_get exp "responsibilities" (VList [])) as [resps|]; [|reflexivity].
  cbn [bind]. destruct (py_iter resps) as [items|]; [|reflexivity].
  cbn [bind]. rewrite responsibilities_loop_ext.
  destruct (responsibilities_loop self2 w2 items acc); [|reflexivity].
  cbn [bind]. apply IH.
Qed.

Lemma calculate_skill_match_ext (d : dict) (reqs : list string) :
  calculate_skill_match self1 w1 d reqs = calculate_skill_match self2 w2 d reqs.
Proof.
  unfold calculate_skill_match.
  destruct (skills_loop _ _ _) as [skills|]; [|reflexivity]. cbn [bind].
  destruct (py_iter _) as [items|]; [|reflexivity]. cbn [bind].
  now rewrite experience_skills_loop_ext.
Qed.
End Words.

End TwoWorlds.

(** C6 as it was stated fails: the same list of entries, with a position
    held since January 2020 and still, gives 4.0 years to a call made in
    January 2024 and 5.0 years to a call made in January 2025. *)
Lemma experience_years_depend_on_the_clock :
  calculate_experience_years Examples.no_stop_words
    (Examples.world_on 2024 1 10) Examples.current_job = Ok (40 # 10)%Q
  /\ calculate_experience_years Examples.no_stop_words
       (Examples.world_on 2025 1 10) Examples.current_job = Ok (50 # 10)%Q
  /\ ~ (40 # 10 == 50 # 10)%Q.
Proof. repeat split. discriminate. Qed.

End EnhancerFacts.

(** * The analytics on a store of objects *)

Module StatefulFacts.
Import Py Enhancer PyFacts EnhancerFacts Stateful.
Local Open Scope list_scope.

(** ** Values behind references *)

Lemma all_some_Forall2 {A B} (f : A -> option B) (l : list A) (l' : list B) :
  all_some f l = Some l' <-> Forall2 (fun x y => f x = Some y) l l'.
Proof.
  revert l'. induction l as [|x l IH]; intros l'; cbn [all_some].
  - split; [intros [= <-]; constructor | intros H; now inversion H].
  - split.
    + destruct (f x) as [y|] eqn:Ex; [|discriminate].
      destruct (all_some f l) as [ys|]; [|discriminate].
      intros [= <-]. constructor; [exact Ex | now apply IH].
    + intros H. inversion H as [|? y ? ys Hx Hl]; subst.
      rewrite Hx. apply IH in Hl. now rewrite Hl.
Qed.

(** deeper reading and more objects keep the value *)
Lemma deref_object_incl (f f' : nat) (h h' : list object) (l : nat) (v : value) :
  (f <= f')%nat ->
  (forall l o, h !! l = Some o -> h' !! l = Some o) ->
  deref_object f h l = Some v -> deref_object f' h' l = Some v.
Proof.
  intros Hf Hh. revert f' Hf l v.
  induction f as [|f IH]; intros f' Hf l v; [discriminate|].
  destruct f' as [|f']; [lia|]. cbn [deref_object].
  assert (Hr : forall r u, value_of (deref_object f h) r = Some u ->
                           value_of (deref_object f' h') r = Some u).
  { intros [] u; cbn [value_of]; try (intros H; exact H).
    apply IH. lia. }
  destruct (h !! l) as [o|] eqn:El; [|discriminate].
  rewrite (Hh _ _ El). destruct o as [items|items].
  - destruct (all_some _ items) as [vs|] eqn:E; [|discriminate].
    intros [= <-]. apply all_some_Forall2 in E.
    assert (E' : all_some (value_of (deref_object f' h')) items = Some vs).
    { apply all_some_Forall2. eapply Forall2_impl; [exact E|].
      intros x y. apply Hr. }
    now rewrite E'.
  - destruct (all_some _ items) as [vs|] eqn:E; [|discriminate].
    intros [= <-]. apply all_some_Forall2 in E.
    assert (E' : all_some (fun kr => option_map (pair (fst kr))
                             (value_of (deref_object f' h') (snd kr))) items
                 = Some vs).
    { apply all_some_Forall2. eapply Forall2_impl; [exact E|].
      intros x y. cbn beta.
      destruct (value_of (deref_object f h) (snd x)) as [vx|] eqn:Ex;
        [|discriminate].
      rewrite (Hr _ _ Ex). trivial. }
    now rewrite E'.
Qed.

Lemma deref_incl (f f' : nat) (h h' : list object) (r : ref) (v : value) :
  (f <= f')%nat ->
  (forall l o, h !! l = Some o -> h' !! l = Some o) ->
  deref f h r = Some v -> deref f' h' r = Some v.
Proof.
  intros Hf Hh. destruct r; cbn [deref value_of]; try (intros H; exact H).
  now apply deref_object_incl.
Qed.

(** ** A call and the store *)

Lemma grows_refl (st : state) : grows st st.
Proof. split; [|split]; reflexivity. Qed.

Lemma grows_trans (st1 st2 st3 : state) :
  grows st1 st2 -> grows st2 st3 -> grows st1 st3.
Proof.
  intros (H1 & H2 & H3) (K1 & K2 & K3). split; [|split].
  - now transitivity (heap st2).
  - congruence.
  - now transitivity (stdout st2).
Qed.

Lemma deref_grows (f : nat) (st st' : state) (r : ref) (v : value) :
  grows st st' -> deref f (heap st) r = Some v -> deref f (heap st') r = Some v.
Proof.
  intros (H & _) Hr. apply (deref_incl f f (heap st)); [lia| |exact Hr].
  intros l o Hl. now apply (prefix_lookup_Some _ _ _ _ Hl).
Qed.

(** ** What a reference to a value looks like *)

Lemma deref_dict (f : nat) (h : list object) (x : ref) (d : dict) :
  deref f h x = Some (VDict d) ->
  exists l items,
    x = RObj l /\ h !! l = Some (ODict items)
    /\ Forall2 (fun kr kv => fst kr = fst kv
                             /\ deref f h (snd kr) = Some (snd kv)) items d.
Proof.
  destruct x as [| | | | |l]; cbn [deref value_of]; try discriminate.
  destruct f as [|f]; [discriminate|]. cbn [deref_object].
  destruct (h !! l) as [[items|items]|] eqn:El; try discriminate.
  - destruct (all_some _ items); discriminate.
  - destruct (all_some _ items) as [vs|] eqn:E; [|discriminate].
    intros [= <-]. exists l, items. split; [reflexivity|]. split; [exact El|].
    apply all_some_Forall2 in E. eapply Forall2_impl; [exact E|].
    intros [k r] [k' v]. cbn [fst snd].
    destruct (value_of (deref_object f h) r) as [v'|] eqn:Er; [|discriminate].
    intros [= <- <-]. split; [reflexivity|].
    apply (deref_incl f (S f) h h); [lia|auto|exact Er].
Qed.

Lemma deref_list (f : nat) (h : list object) (x : ref) (vs : list value) :
  deref f h x = Some (VList vs) ->
  exists l items,
    x = RObj l /\ h !! l = Some (OList items)
    /\ Forall2 (fun r v => deref f h r = Some v) items vs.
Proof.
  destruct x as [| | | | |l]; cbn [deref value_of]; try discriminate.
  destruct f as [|f]; [discriminate|]. cbn [deref_object].
  destruct (h !! l) as [[items|items]|] eqn:El; try discriminate.
  - destruct (all_some _ items) as [vs'|] eqn:E; [|discriminate].
    intros [= <-]. exists l, items. split; [reflexivity|]. split; [exact El|].
    apply all_some_Forall2 in E. eapply Forall2_impl; [exact E|].
    intros r v Er. apply (deref_incl f (S f) h h); [lia|auto|exact Er].
  - destruct (all_some _ items); discriminate.
Qed.

Lemma deref_kind (f : nat) (h : list object) (x : ref) (v : value) :
  deref f h x = Some v -> same_kind h f x v.
Proof.
  intros H. destruct x as [| | | | |l].
  1-5: cbn [deref value_of] in H; injection H as <-; constructor.
  destruct v.
  1-5: destruct f; [discriminate|]; cbn [deref value_of deref_object] in H;
       destruct (h !! l) as [[items|items]|]; try discriminate;
       destruct (all_some _ items); discriminate.
  - destruct (deref_list _ _ _ _ H) as (l' & items & [= <-] & Hl & Hi).
    econstructor; eassumption.
  - destruct (deref_dict _ _ _ _ H) as (l' & items & [= <-] & Hl & Hi).
    econstructor; eassumption.
Qed.

(** ** Calls that read and calls that create *)

Lemma reads_refines {A B} (rel : list object -> A -> B -> Prop)
    (m : M A) (p : result B) (st : state) :
  reads rel m p st -> refines rel m p st.
Proof. intros [H1 H2]. split; rewrite H1; [apply grows_refl | exact H2]. Qed.

Lemma refines_ret {A B} (rel : list object -> A -> B -> Prop)
    (a : A) (b : B) (st : state) :
  rel (heap st) a b -> refines rel (ret a) (Ok b) st.
Proof. intros H. split; [apply grows_refl | exact H]. Qed.

Lemma refines_bind {A B A' B'} (rel : list object -> A -> B -> Prop)
    (rel' : list object -> A' -> B' -> Prop)
    (m : M A) (p : result B) (k : A -> M A') (k' : B -> result B')
    (st : state) :
  refines rel m p st ->
  (forall a b st', grows st st' -> rel (heap st') a b ->
                   refines rel' (k a) (k' b) st') ->
  refines rel' (st_bind m k) (bind p k') st.
Proof.
  unfold refines, refines_from, st_bind. intros [Hg Hm] Hk.
  destruct (m st) as [[a|e] st1], p as [b|e']; cbn in *; try contradiction.
  - destruct (Hk a b st1 Hg Hm) as [Hg' Hm']. split; [|exact Hm'].
    eapply grows_trans; eassumption.
  - split; assumption.
Qed.

(** a step of the method that the function of [Enhancer] does not
    make, or makes without a result to wait for *)
Lemma refines_step {A A' B'} (rel' : list object -> A' -> B' -> Prop)
    (m : M A) (k : A -> M A') (p : result B') (st st1 : state) (a : A) :
  m st = (Ok a, st1) -> grows st st1 ->
  refines rel' (k a) p st1 ->
  refines rel' (st_bind m k) p st.
Proof.
  unfold refines, refines_from, st_bind. intros -> Hg [Hg' Hm]. split; [|exact Hm].
  eapply grows_trans; eassumption.
Qed.

Lemma grows_alloc (st : state) (o : list object) :
  grows st (with_heap st (heap st ++ o)).
Proof.
  split; [|split]; cbn [with_heap heap self_stop_words stdout];
    [now apply prefix_app_r | reflexivity | reflexivity].
Qed.

Lemma refines_alloc {A' B'} (rel' : list object -> A' -> B' -> Prop)
    (o : object) (k : ref -> M A') (p : result B') (st : state) :
  refines rel' (k (RObj (length (heap st)))) p
    (with_heap st (heap st ++ [o])) ->
  refines rel' (st_bind (alloc o) k) p st.
Proof. apply refines_step; [reflexivity | apply grows_alloc]. Qed.

Lemma deref_new (f : nat) (st : state) (items : list ref) :
  items = [] ->
  deref (S f) (heap (with_heap st (heap st ++ [OList items])))
    (RObj (length (heap st))) = Some (VList []).
Proof.
  intros ->. cbn [deref value_of deref_object with_heap heap].
  now rewrite lookup_app_r, Nat.sub_diag by lia.
Qed.

(** ** The operations *)

Section Reads.
Variables (f : nat) (st : state).
Implicit Types (x : ref) (v : value).

Lemma truth_run x v :
  deref f (heap st) x = Some v -> truth x st = (Ok (truthy v), st).
Proof.
  intros H. destruct (deref_kind _ _ _ _ H) as [| | | | |l items vs Hl Hi|l items d Hl Hi];
    try reflexivity.
  - unfold truth, st_bind, read. rewrite Hl. cbn.
    destruct Hi; reflexivity.
  - unfold truth, st_bind, read. rewrite Hl. cbn.
    destruct Hi; reflexivity.
Qed.

Lemma len_run x v :
  deref f (heap st) x = Some v -> len x st = (py_len v, st).
Proof.
  intros H. destruct (deref_kind _ _ _ _ H) as [| | | | |l items vs Hl Hi|l items d Hl Hi];
    try reflexivity.
  - unfold len, st_bind, read. rewrite Hl. cbn.
    now rewrite (Forall2_length _ _ _ Hi).
  - unfold len, st_bind, read. rewrite Hl. cbn.
    now rewrite (Forall2_length _ _ _ Hi).
Qed.

Lemma lower_run x v :
  deref f (heap st) x = Some v -> lower_of x st = (py_lower v, st).
Proof.
  intros H. now destruct (deref_kind _ _ _ _ H).
Qed.

Lemma iter_reads x v :
  deref f (heap st) x = Some v ->
  reads (fun h => Forall2 (stands_for f h)) (iter x) (py_iter v) st.
Proof.
  intros H. destruct (deref_kind _ _ _ _ H) as [| | | |s|l items vs Hl Hi|l items d Hl Hi];
    try (split; reflexivity).
  - split; [reflexivity|]. cbn.
    induction (chars s) as [|c cs IH]; cbn [map]; [constructor|].
    constructor; [reflexivity | exact IH].
  - unfold reads, iter, st_bind, read. rewrite Hl. cbn. split; [reflexivity|].
    exact Hi.
  - unfold reads, iter, st_bind, read. rewrite Hl. cbn. split; [reflexivity|].
    clear H Hl.
    induction Hi as [|[k r] [k' v'] ? ? [Hk _] _ IH]; cbn [map]; [constructor|].
    constructor; [|exact IH]. cbn in Hk. subst k'. reflexivity.
Qed.

Lemma lookup_item_spec (items : list (string * ref)) (d : dict) (k : string) :
  Forall2 (fun kr kv => fst kr = fst kv
                        /\ deref f (heap st) (snd kr) = Some (snd kv)) items d ->
  match lookup_item items k, dict_lookup d k with
  | Some r, Some v => deref f (heap st) r = Some v
  | None, None => True
  | _, _ => False
  end.
Proof.
  induction 1 as [|[k1 r] [k2 v] items d [Hk Hr] _ IH]; [exact I|].
  cbn in Hk, Hr. subst k2. cbn [lookup_item dict_lookup].
  destruct (String.eqb k1 k); [exact Hr | exact IH].
Qed.

Lemma get_reads x v (k : string) (default : ref) (vd : value) :
  deref f (heap st) x = Some v ->
  deref f (heap st) default = Some vd ->
  reads (stands_for f) (get x k default) (py_get v k vd) st.
Proof.
  intros H Hd.
  destruct (deref_kind _ _ _ _ H) as [| | | | |l items vs Hl Hi|l items d Hl Hi];
    try (split; reflexivity).
  - unfold reads, get, st_bind, read. rewrite Hl. cbn. auto.
  - unfold reads, get, st_bind, read. rewrite Hl. cbn. split; [reflexivity|].
    unfold stands_for, dict_get.
    pose proof (lookup_item_spec items d k Hi) as Hk.
    destruct (lookup_item items k), (dict_lookup d k); try contradiction;
      assumption.
Qed.

Lemma equal_run (a b : ref) (va vb : value) :
  deref f (heap st) a = Some va -> deref f (heap st) b = Some vb ->
  equal f a b st = (Ok (py_eq va vb), st).
Proof. intros Ha Hb. unfold equal. now rewrite Ha, Hb. Qed.

End Reads.

(** ** Loops *)

Lemma stable_stands_for (f : nat) : stable (stands_for f).
Proof. intros st st' r v Hg H. now apply (deref_grows f st). Qed.

Lemma stable_same {A} : stable (@same A).
Proof. intros st st' a b _ H. exact H. Qed.

Lemma stable_Forall2 {A B} (rel : list object -> A -> B -> Prop) :
  stable rel -> stable (fun h => Forall2 (rel h)).
Proof.
  intros Hs st st' l l' Hg H. eapply Forall2_impl; [exact H|].
  intros a b. now apply Hs.
Qed.

Lemma map_st_refines {X Y A B} (given : list object -> X -> Y -> Prop)
    (rel : list object -> A -> B -> Prop)
    (g : X -> M A) (g' : Y -> result B) (items : list X) (vitems : list Y)
    (st : state) :
  stable given -> stable rel ->
  Forall2 (given (heap st)) items vitems ->
  (forall x vx st', grows st st' -> given (heap st') x vx ->
                    refines rel (g x) (g' vx) st') ->
  refines (fun h => Forall2 (rel h)) (map_st g items) (mapM g' vitems) st.
Proof.
  intros Hgiven Hrel Hi. revert st vitems Hi.
  induction items as [|x items IH]; intros st vitems Hi Hg;
    inversion Hi as [|? vx ? vs Hx Hr]; subst.
  - apply refines_ret. constructor.
  - cbn [map_st mapM].
    apply (refines_bind rel); [apply Hg; [apply grows_refl | exact Hx]|].
    intros a b st1 Hg1 Hab.
    apply (refines_bind (fun h => Forall2 (rel h))).
    + apply IH.
      * eapply Forall2_impl; [exact Hr|]. intros ? ?. now apply Hgiven.
      * intros y vy st2 Hg2. apply Hg. eapply grows_trans; eassumption.
    + intros ys vys st2 Hg2 Hys. apply refines_ret. constructor; [|exact Hys].
      now apply (Hrel st1).
Qed.

Lemma all_st_refines {X Y} (given : list object -> X -> Y -> Prop)
    (g : X -> M bool) (g' : Y -> result bool)
    (items : list X) (vitems : list Y) (st : state) :
  stable given ->
  Forall2 (given (heap st)) items vitems ->
  (forall x vx st', grows st st' -> given (heap st') x vx ->
                    refines same (g x) (g' vx) st') ->
  refines same (all_st g items) (py_all g' vitems) st.
Proof.
  intros Hgiven Hi. revert st vitems Hi.
  induction items as [|x items IH]; intros st vitems Hi Hg;
    inversion Hi as [|? vx ? vs Hx Hr]; subst.
  - now apply refines_ret.
  - cbn [all_st py_all].
    apply (refines_bind same); [apply Hg; [apply grows_refl | exact Hx]|].
    intros a b st1 Hg1 <-. destruct a; [|now apply refines_ret].
    apply IH.
    + eapply Forall2_impl; [exact Hr|]. intros ? ?. now apply Hgiven.
    + intros y vy st2 Hg2. apply Hg. eapply grows_trans; eassumption.
Qed.

Lemma refines_ext {A B} (rel : list object -> A -> B -> Prop)
    (m m' : M A) (p : result B) (st : state) :
  m st = m' st -> refines rel m' p st -> refines rel m p st.
Proof. unfold refines, refines_from. now intros ->. Qed.

(** ** More operations *)

Section MoreReads.
Variables (f : nat) (st : state).

Lemma strings_run (items : list ref) (vs : list value) :
  Forall2 (stands_for f (heap st)) items vs ->
  map_st (fun r => match r with
                   | RStr s => ret s
                   | _ => raise (Exn TypeError "expected str instance")
                   end) items st
  = (mapM (fun x => match x with
                    | VStr s => Ok s
                    | _ => Raise (Exn TypeError "expected str instance")
                    end) vs, st).
Proof.
  induction 1 as [|r v items vs Hr _ IH]; [reflexivity|].
  cbn [map_st mapM]. unfold st_bind at 1.
  destruct (deref_kind _ _ _ _ Hr); try reflexivity.
  unfold ret at 1. unfold st_bind at 1. rewrite IH.
  cbn [bind]. now destruct (mapM _ vs).
Qed.

Lemma join_run (sep : string) (x : ref) (v : value) :
  deref f (heap st) x = Some v -> join sep x st = (py_join sep v, st).
Proof.
  intros H. unfold join, py_join, st_bind at 1.
  destruct (iter_reads f st x v H) as [Hst Hm].
  destruct (iter x st) as [[items|e] st1], (py_iter v) as [vs|e'];
    cbn in Hst, Hm; subst st1; try contradiction.
  - cbn [bind]. unfold st_bind. rewrite (strings_run _ _ Hm).
    now destruct (mapM _ vs).
  - now subst e'.
Qed.

Lemma immediate_spec (items : list ref) (vs : list value) :
  Forall2 (stands_for f (heap st)) items vs ->
  all_some immediate items
  = if forallb hashable vs then Some vs else None.
Proof.
  induction 1 as [|r v items vs Hr _ IH]; [reflexivity|].
  cbn [all_some forallb]. rewrite IH.
  destruct (deref_kind _ _ _ _ Hr); cbn; try reflexivity;
    now destruct (forallb hashable vs).
Qed.

Lemma len_set_run (items : list ref) (vs : list value) :
  Forall2 (stands_for f (heap st)) items vs ->
  len_set_of items st = (len_set vs, st).
Proof.
  intros H. unfold len_set_of, len_set. rewrite (immediate_spec _ _ H).
  now destruct (forallb hashable vs).
Qed.

Lemma _parse_date_run (w : World) (x : ref) (v : value) :
  deref f (heap st) x = Some v ->
  Stateful._parse_date w x st = (Enhancer._parse_date w v, st).
Proof.
  intros H. unfold Stateful._parse_date, Enhancer._parse_date, st_bind.
  rewrite (truth_run f st x v H). cbn [ret].
  destruct (negb (truthy v)); [reflexivity|].
  now destruct (deref_kind _ _ _ _ H).
Qed.

Lemma entry_months_run (w : World) (start_date end_date : ref)
    (vs ve : value) :
  deref f (heap st) start_date = Some vs ->
  deref f (heap st) end_date = Some ve ->
  Stateful.entry_months w start_date end_date st
  = (Enhancer.entry_months w vs ve, st).
Proof.
  intros Hs He. unfold Stateful.entry_months, Enhancer.entry_months.
  unfold st_bind at 1. rewrite (_parse_date_run w _ _ Hs).
  destruct (Enhancer._parse_date w vs) as [[start|]|e]; try reflexivity.
  cbn [bind]. unfold st_bind at 1. rewrite (truth_run f st _ _ He).
  unfold st_bind at 1.
  assert (Hp : (if truthy ve
                then st_bind (lower_of end_date)
                       (fun s => ret (existsb (String.eqb s) present_words))
                else ret false) st
               = ((if truthy ve
                   then s <- py_lower ve ;;
                        Ok (existsb (String.eqb s) present_words)
                   else Ok false), st)).
  { destruct (truthy ve); [|reflexivity].
    unfold st_bind. rewrite (lower_run f st _ _ He).
    now destruct (py_lower ve). }
  rewrite Hp. clear Hp.
  generalize (if truthy ve
              then s <- py_lower ve ;;
                   Ok (existsb (String.eqb s) present_words)
              else Ok false).
  intros [[|]|e]; try reflexivity.
  cbn [bind]. unfold st_bind. rewrite (_parse_date_run w _ _ He).
  now destruct (Enhancer._parse_date w ve) as [[end_|]|e].
Qed.

End MoreReads.

(** ** [calculate_experience_years] *)

Lemma grows_print (st : state) (line : string) :
  grows st (snd (print line st)).
Proof.
  split; [|split]; cbn; [reflexivity | reflexivity | now apply prefix_app_r].
Qed.

Lemma experience_loop_refines (f : nat) (w : World)
    (items : list ref) (vitems : list value) (total_months : Z) (st : state) :
  Forall2 (stands_for f (heap st)) items vitems ->
  refines same (Stateful.experience_loop w items total_months)
    (Enhancer.experience_loop w vitems total_months) st.
Proof.
  intros Hi. revert st vitems total_months Hi.
  induction items as [|x items IH]; intros st vitems total_months Hi;
    inversion Hi as [|? vx ? vs Hx Hr]; subst.
  - now apply refines_ret.
  - cbn [Stateful.experience_loop Enhancer.experience_loop].
    apply (refines_bind (stands_for f));
      [now apply reads_refines, get_reads|].
    intros start_date vstart st1 Hg1 Hstart.
    apply (refines_bind (stands_for f)).
    { apply reads_refines, (get_reads f); [|reflexivity].
      now apply (deref_grows f st). }
    intros end_date vend st2 Hg2 Hend.
    assert (Hstart2 : deref f (heap st2) start_date = Some vstart)
      by now apply (deref_grows f st1).
    assert (Hrest : forall st3, grows st2 st3 ->
                      Forall2 (stands_for f (heap st3)) items vs).
    { intros st3 Hg3. eapply Forall2_impl; [exact Hr|]. intros r v Hrv.
      apply (deref_grows f st); [|exact Hrv].
      eapply grows_trans; [exact Hg1|]. eapply grows_trans; eassumption. }
    eapply refines_step; [apply (truth_run f), Hstart2 | apply grows_refl|].
    destruct (negb (truthy vstart)); [apply IH, Hrest, grows_refl|].
    apply (refines_ext _ _
             (fun st =>
                match Enhancer.entry_months w vstart vend with
                | Ok (Some months) =>
                    Stateful.experience_loop w items (total_months + months) st
                | Ok None => Stateful.experience_loop w items total_months st
                | Raise e =>
                    Stateful.experience_loop w items total_months
                      (snd (print ("Error parsing dates: " ++ str_exn e) st))
                end)).
    { unfold st_bind at 1, try_except.
      rewrite (entry_months_run f st2 w _ _ _ _ Hstart2 Hend).
      now destruct (Enhancer.entry_months w vstart vend) as [[months|]|e]. }
    destruct (Enhancer.entry_months w vstart vend) as [[months|]|e].
    1,2: apply IH, Hrest, grows_refl.
    destruct (IH (snd (print ("Error parsing dates: " ++ str_exn e) st2)) vs
                total_months (Hrest _ (grows_print _ _))) as [Hg3 Hm].
    split; [|exact Hm].
    eapply grows_trans; [apply grows_print | exact Hg3].
Qed.

Lemma calculate_experience_years_refines (f : nat) (w : World)
    (self : ResumeEnhancer) (experience : ref) (v : value) (st : state) :
  deref f (heap st) experience = Some v ->
  refines same (Stateful.calculate_experience_years w experience)
    (Enhancer.calculate_experience_years self w v) st.
Proof.
  intros H. unfold Stateful.calculate_experience_years,
    Enhancer.calculate_experience_years.
  apply (refines_bind (fun h => Forall2 (stands_for f h)));
    [now apply reads_refines, iter_reads|].
  intros items vitems st1 _ Hi.
  apply (refines_bind same); [now apply (experience_loop_refines f)|].
  intros total total' st2 _ <-. now apply refines_ret.
Qed.

Lemma run_reads {A} (m : M A) (p : result A) (st : state) :
  m st = (p, st) -> reads same m p st.
Proof.
  intros H. unfold reads. rewrite H. split; [reflexivity|]. now destruct p.
Qed.

Lemma Forall2_same {A} (h : list object) (l l' : list A) :
  Forall2 (same h) l l' -> l = l'.
Proof. induction 1 as [|a b l l' Hab _ IH]; [reflexivity|]. now rewrite Hab, IH. Qed.

Lemma self_of_grows (st st' : state) : grows st st' -> self_of st' = self_of st.
Proof. intros (_ & H & _). unfold self_of. now rewrite H. Qed.

Lemma deref_fuel_pos (f : nat) (h : list object) (l : nat) (v : value) :
  deref f h (RObj l) = Some v -> (0 < f)%nat.
Proof. destruct f; [discriminate|lia]. Qed.

Lemma deref_empty_list (f : nat) (h : list object) (l : nat) :
  (0 < f)%nat -> h !! l = Some (OList []) ->
  deref f h (RObj l) = Some (VList []).
Proof.
  intros Hf Hl. destruct f; [lia|].
  cbn [deref value_of deref_object]. now rewrite Hl.
Qed.

Lemma deref_empty_dict (f : nat) (h : list object) (l : nat) :
  (0 < f)%nat -> h !! l = Some (ODict []) ->
  deref f h (RObj l) = Some (VDict []).
Proof.
  intros Hf Hl. destruct f; [lia|].
  cbn [deref value_of deref_object]. now rewrite Hl.
Qed.

Lemma lookup_new (st : state) (o : object) :
  heap (with_heap st (heap st ++ [o])) !! length (heap st) = Some o.
Proof. cbn. now rewrite lookup_app_r, Nat.sub_diag by lia. Qed.

Section DictReads.
Variables (f : nat) (st : state).

Lemma get_dict_run (x : ref) (d : dict) (k : string) (default : ref)
    (vd : value) :
  deref f (heap st) x = Some (VDict d) ->
  deref f (heap st) default = Some vd ->
  exists r, get x k default st = (Ok r, st)
            /\ deref f (heap st) r = Some (dict_get d k vd).
Proof.
  intros Hx Hd. destruct (get_reads f st x _ k default vd Hx Hd) as [Hst Hm].
  destruct (get x k default st) as [[r|e] st1]; cbn in Hst, Hm; subst st1;
    [|contradiction].
  now exists r.
Qed.

Lemma iter_run_ok (x : ref) (v : value) (vitems : list value) :
  deref f (heap st) x = Some v -> py_iter v = Ok vitems ->
  exists items, iter x st = (Ok items, st)
                /\ Forall2 (stands_for f (heap st)) items vitems.
Proof.
  intros Hx Hv. destruct (iter_reads f st x v Hx) as [Hst Hm].
  rewrite Hv in Hm.
  destruct (iter x st) as [[items|e] st1]; cbn in Hst, Hm; subst st1;
    [|contradiction].
  now exists items.
Qed.

End DictReads.

(** ** [calculate_skill_match] *)

Lemma lowered_refines (f : nat) (items : list ref) (vitems : list value)
    (st : state) :
  Forall2 (stands_for f (heap st)) items vitems ->
  refines (fun h => Forall2 (same h)) (map_st lower_of items)
    (mapM py_lower vitems) st.
Proof.
  intros Hi.
  apply (map_st_refines (stands_for f) same);
    [apply stable_stands_for | apply stable_same | exact Hi|].
  intros x vx st' _ Hx. apply reads_refines, run_reads.
  now apply (lower_run f).
Qed.

Lemma skills_loop_refines (f : nat) (skills : ref) (vskills : value)
    (types : list string) (resume_skills : gset string) (st : state) :
  (0 < f)%nat -> deref f (heap st) skills = Some vskills ->
  refines same (Stateful.skills_loop skills types resume_skills)
    (Enhancer.skills_loop vskills types resume_skills) st.
Proof.
  intros Hf. revert resume_skills st.
  induction types as [|skill_type types IH]; intros resume_skills st Hs.
  - now apply refines_ret.
  - cbn [Stateful.skills_loop Enhancer.skills_loop]. apply refines_alloc.
    set (st1 := with_heap st _).
    assert (Hg1 : grows st st1) by apply grows_alloc.
    apply (refines_bind (stands_for f)).
    { apply reads_refines, (get_reads f).
      - now apply (deref_grows f st).
      - apply deref_empty_list; [exact Hf | apply lookup_new]. }
    intros entries ventries st2 Hg2 He.
    apply (refines_bind (fun h => Forall2 (stands_for f h)));
      [now apply reads_refines, iter_reads|].
    intros items vitems st3 Hg3 Hi.
    apply (refines_bind (fun h => Forall2 (same h)));
      [now apply (lowered_refines f)|].
    intros lowered lowered' st4 Hg4 Hl. apply Forall2_same in Hl as <-.
    apply IH. apply (deref_grows f st); [|exact Hs].
    repeat (eapply grows_trans; [eassumption|]). apply grows_refl.
Qed.

Lemma responsibilities_loop_run (f : nat) (w : World) (resps : list ref)
    (vresps : list value) (resume_skills : gset string) (st : state) :
  Forall2 (stands_for f (heap st)) resps vresps ->
  Stateful.responsibilities_loop w resps resume_skills st
  = (Enhancer.responsibilities_loop (self_of st) w vresps resume_skills, st).
Proof.
  intros H. revert resume_skills.
  induction H as [|r v resps vresps Hr _ IH]; intros resume_skills;
    [reflexivity|].
  cbn [Stateful.responsibilities_loop Enhancer.responsibilities_loop].
  unfold st_bind at 1. rewrite (lower_run f st r v Hr).
  destruct (py_lower v) as [lowered|e]; [|reflexivity].
  cbn [bind]. unfold st_bind, get_stop_words. apply IH.
Qed.

Lemma experience_skills_loop_refines (f : nat) (w : World)
    (self : ResumeEnhancer) (experience : list ref) (vexperience : list value)
    (resume_skills : gset string) (st : state) :
  (0 < f)%nat -> self_of st = self ->
  Forall2 (stands_for f (heap st)) experience vexperience ->
  refines same (Stateful.experience_skills_loop w experience resume_skills)
    (Enhancer.experience_skills_loop self w vexperience resume_skills) st.
Proof.
  intros Hf. revert vexperience resume_skills st.
  induction experience as [|exp experience IH];
    intros vexperience resume_skills st Hself Hi;
    inversion Hi as [|? vexp ? vs Hx Hr]; subst.
  - now apply refines_ret.
  - cbn [Stateful.experience_skills_loop Enhancer.experience_skills_loop].
    apply refines_alloc. set (st1 := with_heap st _).
    assert (Hg1 : grows st st1) by apply grows_alloc.
    apply (refines_bind (stands_for f)).
    { apply reads_refines, (get_reads f).
      - now apply (deref_grows f st).
      - apply deref_empty_list; [exact Hf | apply lookup_new]. }
    intros resps vresps st2 Hg2 Hresps.
    apply (refines_bind (fun h => Forall2 (stands_for f h)));
      [now apply reads_refines, iter_reads|].
    intros items vitems st3 Hg3 Hitems.
    assert (Hg : grows st st3)
      by (repeat (eapply grows_trans; [eassumption|]); apply grows_refl).
    apply (refines_bind same).
    { apply reads_refines, run_reads.
      rewrite (responsibilities_loop_run f w _ _ _ _ Hitems).
      now rewrite (self_of_grows _ _ Hg). }
    intros skills skills' st4 Hg4 <-.
    apply IH.
    + rewrite (self_of_grows st st4); [reflexivity|].
      eapply grows_trans; eassumption.
    + eapply Forall2_impl; [exact Hr|]. intros r v.
      apply (deref_grows f st). eapply grows_trans; eassumption.
Qed.

Lemma calculate_skill_match_refines (f : nat) (w : World)
    (resume_data job_requirements : ref) (d : dict) (reqs : list string)
    (st : state) :
  deref f (heap st) resume_data = Some (VDict d) ->
  deref f (heap st) job_requirements = Some (VList (map VStr reqs)) ->
  refines same (Stateful.calculate_skill_match w resume_data job_requirements)
    (Enhancer.calculate_skill_match (self_of st) w d reqs) st.
Proof.
  intros Hd Hreqs.
  assert (Hf : (0 < f)%nat).
  { destruct (deref_dict _ _ _ _ Hd) as (l & items & -> & _).
    now apply (deref_fuel_pos f (heap st) l (VDict d)). }
  unfold Stateful.calculate_skill_match, Enhancer.calculate_skill_match.
  apply refines_alloc. set (st1 := with_heap st _).
  assert (Hg1 : grows st st1) by apply grows_alloc.
  destruct (get_dict_run f st1 resume_data d "skills"
              (RObj (length (heap st))) (VDict []))
    as (skills & Hget & Hskills).
  { now apply (deref_grows f st). }
  { apply deref_empty_dict; [exact Hf | apply lookup_new]. }
  eapply refines_step; [exact Hget | apply grows_refl|].
  apply (refines_bind same); [now apply (skills_loop_refines f)|].
  intros resume_skills ? st2 Hg2 <-.
  apply refines_alloc. set (st3 := with_heap st2 _).
  assert (Hg3 : grows st st3).
  { eapply grows_trans; [exact Hg1|]. eapply grows_trans; [exact Hg2|].
    apply grows_alloc. }
  destruct (get_dict_run f st3 resume_data d "experience"
              (RObj (length (heap st2))) (VList []))
    as (experience & Hget' & Hexp).
  { now apply (deref_grows f st). }
  { apply deref_empty_list; [exact Hf | apply lookup_new]. }
  eapply refines_step; [exact Hget' | apply grows_refl|].
  apply (refines_bind (fun h => Forall2 (stands_for f h)));
    [now apply reads_refines, iter_reads|].
  intros items vitems st4 Hg4 Hitems.
  apply (refines_bind same).
  { apply (experience_skills_loop_refines f); [exact Hf | | exact Hitems].
    apply self_of_grows. eapply grows_trans; eassumption. }
  intros resume_skills' ? st5 Hg5 <-.
  assert (Hg : grows st st5).
  { eapply grows_trans; [exact Hg3|]. eapply grows_trans; eassumption. }
  assert (Hreqs5 : deref f (heap st5) job_requirements
                   = Some (VList (map VStr reqs)))
    by now apply (deref_grows f st).
  destruct (iter_run_ok f st5 _ _ _ Hreqs5 eq_refl) as (ritems & Hiter & Hr).
  eapply refines_step; [exact Hiter | apply grows_refl|].
  pose proof (lowered_refines f _ _ st5 Hr) as [Hgl Hml].
  rewrite mapM_lower in Hml.
  destruct (map_st lower_of ritems st5) as [[lowered|e] st6] eqn:El;
    cbn [fst snd] in Hgl, Hml; [|contradiction].
  apply Forall2_same in Hml as ->.
  eapply refines_step; [exact El | exact Hgl|].
  assert (Hreqs6 : deref f (heap st6) job_requirements
                   = Some (VList (map VStr reqs)))
    by now apply (deref_grows f st5).
  eapply refines_step; [apply (truth_run f), Hreqs6 | apply grows_refl|].
  destruct reqs as [|req reqs]; [now apply refines_ret|].
  cbn [map truthy].
  pose proof (len_run f st6 _ _ Hreqs6) as Hlen. cbn [py_len] in Hlen.
  eapply refines_step; [exact Hlen | apply grows_refl|].
  apply refines_ret. unfold same. now rewrite length_map.
Qed.

(** ** [analyze_career_progression] *)

Lemma indicator_loop_run (f : nat) (indicators : list string)
    (current previous : string) (c c' : ref) (vc vc' : value) (score : Z)
    (st : state) :
  deref f (heap st) c = Some vc -> deref f (heap st) c' = Some vc' ->
  indicator_loop f indicators current previous c c' score st
  = (Ok (fold_left
           (fun score indicator =>
              if str_in indicator current && negb (str_in indicator previous)
              then score + 2
              else if str_in indicator current && str_in indicator previous
              then (if py_eq vc vc' then score + 1 else score)
              else score)
           indicators score), st).
Proof.
  intros Hc Hc'. revert score.
  induction indicators as [|indicator rest IH]; intros score; [reflexivity|].
  cbn [indicator_loop fold_left].
  destruct (str_in indicator current && negb (str_in indicator previous));
    [apply IH|].
  destruct (str_in indicator current && str_in indicator previous);
    [|apply IH].
  unfold st_bind. rewrite (equal_run f st c c' vc vc' Hc Hc'). apply IH.
Qed.

Lemma fold_score_shift (step : string -> Z) (indicators : list string)
    (score : Z) :
  fold_left (fun score indicator => score + step indicator) indicators score
  = score
    + fold_left (fun score indicator => score + step indicator) indicators 0.
Proof.
  revert score. induction indicators as [|i rest IH]; intros score;
    cbn [fold_left]; [lia|].
  rewrite (IH (score + step i)), (IH (0 + step i)). lia.
Qed.

Lemma pair_score_shift (current previous : string) (same_company : bool)
    (indicators : list string) (score : Z) :
  fold_left
    (fun score indicator =>
       if str_in indicator current && negb (str_in indicator previous)
       then score + 2
       else if str_in indicator current && str_in indicator previous
       then (if same_company then score + 1 else score)
       else score)
    indicators score
  = score
    + fold_left
        (fun score indicator =>
           if str_in indicator current && negb (str_in indicator previous)
           then score + 2
           else if str_in indicator current && str_in indicator previous
           then (if same_company then score + 1 else score)
           else score)
        indicators 0.
Proof.
  set (step := fun indicator =>
         if str_in indicator current && negb (str_in indicator previous)
         then 2
         else if str_in indicator current && str_in indicator previous
         then (if same_company then 1 else 0)
         else 0).
  assert (E : forall l s,
            fold_left
              (fun score indicator =>
                 if str_in indicator current && negb (str_in indicator previous)
                 then score + 2
                 else if str_in indicator current && str_in indicator previous
                 then (if same_company then score + 1 else score)
                 else score) l s
            = fold_left (fun score indicator => score + step indicator) l s).
  { induction l as [|i l IH]; intros s; [reflexivity|]. cbn [fold_left].
    rewrite IH. f_equal. unfold step.
    destruct (str_in i current && negb (str_in i previous)); [reflexivity|].
    destruct (str_in i current && str_in i previous); [|lia].
    destruct same_company; lia. }
  rewrite !E. apply fold_score_shift.
Qed.

Lemma progression_loop_step (f : nat) (p p' : ref) (positions : list ref)
    (c c' : ref) (companies : list ref) (score : Z) :
  Stateful.progression_loop f (p :: p' :: positions) (c :: c' :: companies)
    score
  = st_bind (lower_of p) (fun current =>
      st_bind (lower_of p') (fun previous =>
        st_bind (indicator_loop f promotion current previous c c' score)
          (fun score =>
             Stateful.progression_loop f (p' :: positions) (c' :: companies)
               score))).
Proof. reflexivity. Qed.

Lemma pure_progression_loop_step (p p' : value) (positions : list value)
    (c c' : value) (companies : list value) (score : Z) :
  Enhancer.progression_loop (p :: p' :: positions) (c :: c' :: companies)
    score
  = (current <- py_lower p ;;
     previous <- py_lower p' ;;
     Enhancer.progression_loop (p' :: positions) (c' :: companies)
       (score + pair_score current previous (py_eq c c'))).
Proof. reflexivity. Qed.

Lemma progression_loop_run (f : nat) (positions companies : list ref)
    (vpositions vcompanies : list value) (score : Z) (st : state) :
  Forall2 (stands_for f (heap st)) positions vpositions ->
  Forall2 (stands_for f (heap st)) companies vcompanies ->
  Stateful.progression_loop f positions companies score st
  = (Enhancer.progression_loop vpositions vcompanies score, st).
Proof.
  intros Hp. revert companies vcompanies score.
  induction Hp as [|p vp positions vpositions Hp1 Hp IH];
    intros companies vcompanies score Hc; [reflexivity|].
  destruct Hp as [|p' vp' positions vpositions Hp2 Hp];
    [destruct Hc as [|? ? ? ? ? [|]]; reflexivity|].
  destruct Hc as [|c vc companies vcompanies Hc1 Hc]; [reflexivity|].
  destruct Hc as [|c' vc' companies vcompanies Hc2 Hc]; [reflexivity|].
  rewrite progression_loop_step, pure_progression_loop_step.
  unfold st_bind at 1. rewrite (lower_run f st p vp Hp1).
  destruct (py_lower vp) as [current|e]; [|reflexivity]. cbn [bind].
  unfold st_bind at 1. rewrite (lower_run f st p' vp' Hp2).
  destruct (py_lower vp') as [previous|e]; [|reflexivity]. cbn [bind].
  unfold st_bind at 1.
  rewrite (indicator_loop_run f _ _ _ _ _ vc vc' _ _ Hc1 Hc2).
  rewrite pair_score_shift. unfold pair_score.
  apply IH. now constructor.
Qed.

Lemma refines_raise {A A' B'} (rel' : list object -> A' -> B' -> Prop)
    (m : M A) (k : A -> M A') (e : exn) (st : state) :
  m st = (Raise e, st) -> refines rel' (st_bind m k) (Raise e) st.
Proof.
  intros H. unfold refines, refines_from, st_bind. rewrite H.
  split; [apply grows_refl | reflexivity].
Qed.

Lemma iter_run_raise (f : nat) (st : state) (x : ref) (v : value) (e : exn) :
  deref f (heap st) x = Some v -> py_iter v = Raise e ->
  iter x st = (Raise e, st).
Proof.
  intros Hx Hv. destruct (iter_reads f st x v Hx) as [Hst Hm].
  rewrite Hv in Hm.
  destruct (iter x st) as [[items|e'] st1]; cbn in Hst, Hm; subst st1;
    [contradiction|].
  now subst e'.
Qed.

Lemma value_of_immediate (object_value : nat -> option value) (r : ref)
    (v : value) :
  immediate r = Some v -> value_of object_value r = Some v.
Proof. destruct r; cbn; congruence. Qed.

(** a dictionary of numbers and strings *)
Lemma deref_flat_dict (f : nat) (h : list object) (l : nat)
    (items : list (string * ref)) (d : dict) :
  (0 < f)%nat -> h !! l = Some (ODict items) ->
  all_some (fun kr => option_map (pair (fst kr)) (immediate (snd kr))) items
  = Some d ->
  deref f h (RObj l) = Some (VDict d).
Proof.
  intros Hf Hl Hi. destruct f as [|f]; [lia|].
  cbn [deref value_of deref_object]. rewrite Hl.
  apply all_some_Forall2 in Hi.
  assert (E : all_some (fun kr => option_map (pair (fst kr))
                          (value_of (deref_object f h) (snd kr))) items
              = Some d).
  { apply all_some_Forall2. eapply Forall2_impl; [exact Hi|].
    intros [k r] [k' v]. cbn [fst snd].
    destruct (immediate r) as [u|] eqn:Er; [|discriminate].
    now rewrite (value_of_immediate _ _ _ Er). }
  now rewrite E.
Qed.

(** the result of a method: a new object *)
Lemma alloc_refines (f : nat) (o : object) (v : value) (st : state) :
  deref f (heap st ++ [o]) (RObj (length (heap st))) = Some v ->
  refines (stands_for f) (alloc o) (Ok v) st.
Proof. intros H. split; [apply grows_alloc | exact H]. Qed.

Lemma positions_refines (f : nat) (key : string) (items : list ref)
    (vitems : list value) (st : state) :
  Forall2 (stands_for f (heap st)) items vitems ->
  refines (fun h => Forall2 (stands_for f h))
    (map_st (fun exp => get exp key (RStr "")) items)
    (mapM (fun exp => py_get exp key (VStr "")) vitems) st.
Proof.
  intros Hi.
  apply (map_st_refines (stands_for f) (stands_for f));
    [apply stable_stands_for | apply stable_stands_for | exact Hi|].
  intros x vx st' _ Hx. apply reads_refines. now apply (get_reads f).
Qed.

Lemma analyze_career_progression_refines (f : nat) (self : ResumeEnhancer)
    (w : World) (experience : ref) (v : value) (st : state) :
  (0 < f)%nat -> deref f (heap st) experience = Some v ->
  refines (stands_for f) (Stateful.analyze_career_progression f experience)
    (Enhancer.analyze_career_progression self w v) st.
Proof.
  intros Hf Hv.
  unfold Stateful.analyze_career_progression,
    Enhancer.analyze_career_progression.
  eapply refines_step; [apply (truth_run f), Hv | apply grows_refl|].
  destruct (negb (truthy v)).
  { apply alloc_refines.
    apply (deref_flat_dict f _ _ _ _ Hf (lookup_new st _)). reflexivity. }
  destruct (py_iter v) as [vitems|e] eqn:Ei;
    [|now apply refines_raise, (iter_run_raise f st _ v)].
  destruct (iter_run_ok f st _ _ _ Hv Ei) as (items & Hiter & Hitems).
  eapply refines_step; [exact Hiter | apply grows_refl|]. cbn [bind].
  apply (refines_bind (fun h => Forall2 (stands_for f h)));
    [now apply positions_refines|].
  intros positions vpositions st1 Hg1 Hpos.
  destruct (iter_run_ok f st1 _ _ _ (deref_grows f _ _ _ _ Hg1 Hv) Ei)
    as (items' & Hiter' & Hitems').
  eapply refines_step; [exact Hiter' | apply grows_refl|].
  apply (refines_bind (fun h => Forall2 (stands_for f h)));
    [now apply positions_refines|].
  intros companies vcompanies st2 Hg2 Hcomp.
  assert (Hpos2 : Forall2 (stands_for f (heap st2)) positions vpositions)
    by now apply (stable_Forall2 _ (stable_stands_for f) st1).
  apply (refines_bind same).
  { apply reads_refines, run_reads. now apply progression_loop_run. }
  intros score ? st3 Hg3 <-.
  apply (refines_bind same).
  { apply reads_refines, run_reads, (len_set_run f).
    now apply (stable_Forall2 _ (stable_stands_for f) st2). }
  intros unique ? st4 Hg4 <-.
  apply alloc_refines.
  apply (deref_flat_dict f _ _ _ _ Hf (lookup_new st4 _)). cbn.
  now rewrite (Forall2_length _ _ _ Hpos).
Qed.

(** ** [calculate_ats_score] *)

Lemma points_if_run (f : nat) (st : state) (x : ref) (v : value)
    (k : string) (points : Z) :
  deref f (heap st) x = Some v ->
  Stateful.points_if x k points st = (Enhancer.points_if v k points, st).
Proof.
  intros Hx. unfold Stateful.points_if, Enhancer.points_if, st_bind.
  destruct (get_reads f st x v k RNone VNone Hx eq_refl) as [Hst Hm].
  destruct (get x k RNone st) as [[r|e] st1], (py_get v k VNone) as [u|e'];
    cbn in Hst, Hm; subst st1; try contradiction.
  - cbn [bind]. now rewrite (truth_run f st r u Hm).
  - now subst e'.
Qed.

Lemma total_skills_refines (f : nat) (skills : ref) (v : value) (st : state) :
  (0 < f)%nat -> deref f (heap st) skills = Some v ->
  refines same (Stateful.total_skills skills) (Enhancer.total_skills v) st.
Proof.
  intros Hf Hv. unfold Stateful.total_skills, Enhancer.total_skills.
  apply (refines_bind (fun h => Forall2 (same h))).
  - apply (map_st_refines same same); try apply stable_same.
    { induction skill_types; constructor; [reflexivity | assumption]. }
    intros k ? st1 Hg1 <-. apply refines_alloc. set (st2 := with_heap st1 _).
    apply (refines_bind (stands_for f)).
    { apply reads_refines, (get_reads f).
      - apply (deref_grows f st); [|exact Hv].
        eapply grows_trans; [exact Hg1 | apply grows_alloc].
      - apply deref_empty_list; [exact Hf | apply lookup_new]. }
    intros r u st3 Hg3 Hr. apply reads_refines, run_reads.
    now apply (len_run f).
  - intros lens lens' st1 _ Hl. apply Forall2_same in Hl as <-.
    now apply refines_ret.
Qed.

(** *** Steps that change the method's own object *)

Lemma from_step {A A' B'} (base : state) (rel' : list object -> A' -> B' -> Prop)
    (m : M A) (k : A -> M A') (p : result B') (st st1 : state) (a : A) :
  m st = (Ok a, st1) ->
  refines_from base rel' (k a) p st1 ->
  refines_from base rel' (st_bind m k) p st.
Proof. unfold refines_from, st_bind. now intros ->. Qed.

Lemma from_run {A A' B'} (base : state) (rel' : list object -> A' -> B' -> Prop)
    (m : M A) (r : result A) (k : A -> M A') (k' : A -> result B')
    (st : state) :
  m st = (r, st) -> grows base st ->
  (forall a, r = Ok a -> refines_from base rel' (k a) (k' a) st) ->
  refines_from base rel' (st_bind m k) (bind r k') st.
Proof.
  unfold refines_from, st_bind. intros -> Hg Hk.
  destruct r as [a|e]; [now apply Hk|]. split; [exact Hg | reflexivity].
Qed.

Lemma from_bind {A B A' B'} (base : state)
    (rel : list object -> A -> B -> Prop)
    (rel' : list object -> A' -> B' -> Prop)
    (m : M A) (p : result B) (k : A -> M A') (k' : B -> result B')
    (st : state) :
  refines rel m p st -> grows base st ->
  (forall a b st', grows st st' -> rel (heap st') a b ->
                   refines_from base rel' (k a) (k' b) st') ->
  refines_from base rel' (st_bind m k) (bind p k') st.
Proof.
  unfold refines, refines_from, st_bind. intros [Hg Hm] Hb Hk.
  destruct (m st) as [[a|e] st1], p as [b|e']; cbn in *; try contradiction.
  - now apply Hk.
  - split; [|exact Hm]. eapply grows_trans; eassumption.
Qed.

Lemma setitem_run (st : state) (l : nat) (items : list (string * ref))
    (k : string) (r : ref) :
  heap st !! l = Some (ODict items) ->
  setitem (RObj l) k r st
  = (Ok tt, with_heap st (<[l := ODict (set_item items k r)]> (heap st))).
Proof. intros H. unfold setitem, st_bind, read. now rewrite H. Qed.

Lemma grows_write (base st : state) (l : nat) (o : object) :
  grows base st -> (length (heap base) <= l)%nat ->
  grows base (with_heap st (<[l := o]> (heap st))).
Proof.
  intros ([k Hk] & Hs & Ho) Hl. split; [|split]; cbn; try assumption.
  rewrite Hk, insert_app_r_alt by exact Hl. now apply prefix_app_r.
Qed.

(** [x.get(k, [])] gives an object of [base] or the new, empty list *)
Lemma get_or_default (f : nat) (base st : state) (x : ref) (d : dict)
    (k : string) (l : nat) :
  (0 < f)%nat ->
  deref f (heap base) x = Some (VDict d) -> grows base st ->
  exists r,
    get x k (RObj l) st = (Ok r, st)
    /\ forall st', grows base st' -> heap st' !! l = Some (OList []) ->
                   deref f (heap st') r = Some (dict_get d k (VList [])).
Proof.
  intros Hf Hx Hg.
  destruct (deref_dict _ _ _ _ Hx) as (lx & items & -> & Hl & Hi).
  pose proof (lookup_item_spec f base items d k Hi) as Hk.
  exists (match lookup_item items k with Some r => r | None => RObj l end).
  split.
  - unfold get, st_bind, read.
    now rewrite (prefix_lookup_Some _ _ _ _ Hl (proj1 Hg)).
  - intros st' Hg' Hl'. unfold dict_get.
    destruct (lookup_item items k) as [r|], (dict_lookup d k) as [v|];
      try contradiction.
    + now apply (deref_grows f base).
    + now apply deref_empty_list.
Qed.

Lemma lookup_written (st : state) (l : nat) (o o' : object) :
  heap st !! l = Some o ->
  heap (with_heap st (<[l := o']> (heap st))) !! l = Some o'.
Proof.
  intros H. cbn. apply list_lookup_insert_eq. now apply lookup_lt_Some in H.
Qed.

Lemma lookup_kept (st : state) (l l' : nat) (o o' : object) :
  l <> l' -> heap st !! l' = Some o' ->
  heap (with_heap st (<[l := o]> (heap st))) !! l' = Some o'.
Proof. intros Hne H. cbn. now rewrite list_lookup_insert_ne. Qed.

Lemma lookup_grows (st st' : state) (l : nat) (o : object) :
  grows st st' -> heap st !! l = Some o -> heap st' !! l = Some o.
Proof. intros [H _] Hl. exact (prefix_lookup_Some _ _ _ _ Hl H). Qed.

Lemma dated_refines (f : nat) (items : list ref) (vitems : list value)
    (st : state) :
  Forall2 (stands_for f (heap st)) items vitems ->
  refines same
    (all_st (fun exp => st_bind (get exp "start_date" RNone) truth) items)
    (py_all (fun exp => v <- py_get exp "start_date" VNone ;; Ok (truthy v))
       vitems) st.
Proof.
  intros Hi. apply (all_st_refines (stands_for f));
    [apply stable_stands_for | exact Hi|].
  intros x vx st' _ Hx.
  apply (refines_bind (stands_for f)); [now apply reads_refines, (get_reads f)|].
  intros r v st1 _ Hr. apply reads_refines, run_reads. now apply (truth_run f).
Qed.

Lemma described_refines (f : nat) (items : list ref) (vitems : list value)
    (st : state) :
  (0 < f)%nat ->
  Forall2 (stands_for f (heap st)) items vitems ->
  refines same
    (all_st (fun exp =>
               st_bind new_list (fun default =>
                 st_bind (get exp "responsibilities" default) (fun v =>
                   st_bind (len v) (fun n => ret (2 <=? n))))) items)
    (py_all (fun exp => v <- py_get exp "responsibilities" (VList []) ;;
                        n <- py_len v ;; Ok (2 <=? n)) vitems) st.
Proof.
  intros Hf Hi. apply (all_st_refines (stands_for f));
    [apply stable_stands_for | exact Hi|].
  intros x vx st' _ Hx. apply refines_alloc. set (st1 := with_heap st' _).
  apply (refines_bind (stands_for f)).
  { apply reads_refines, (get_reads f).
    - apply (deref_grows f st'); [apply grows_alloc | exact Hx].
    - apply deref_empty_list; [exact Hf | apply lookup_new]. }
  intros r v st2 _ Hr.
  apply (refines_bind same); [now apply reads_refines, run_reads, (len_run f)|].
  intros n ? st3 _ <-. now apply refines_ret.
Qed.

Lemma complete_refines (f : nat) (items : list ref) (vitems : list value)
    (st : state) :
  Forall2 (stands_for f (heap st)) items vitems ->
  refines same
    (all_st (fun edu =>
               st_bind (get edu "degree" RNone) (fun d =>
                 st_bind (truth d) (fun has_degree =>
                   if has_degree : bool
                   then st_bind (get edu "institution" RNone) truth
                   else ret false))) items)
    (py_all (fun edu => d <- py_get edu "degree" VNone ;;
                        if truthy d
                        then i <- py_get edu "institution" VNone ;;
                             Ok (truthy i)
                        else Ok false) vitems) st.
Proof.
  intros Hi. apply (all_st_refines (stands_for f));
    [apply stable_stands_for | exact Hi|].
  intros x vx st' _ Hx.
  apply (refines_bind (stands_for f)); [now apply reads_refines, (get_reads f)|].
  intros r v st1 Hg1 Hr.
  eapply refines_step; [apply (truth_run f), Hr | apply grows_refl|].
  destruct (truthy v); [|now apply refines_ret].
  apply (refines_bind (stands_for f)).
  { apply reads_refines, (get_reads f); [|reflexivity].
    now apply (deref_grows f st'). }
  intros i vi st2 _ Hi'. apply reads_refines, run_reads.
  now apply (truth_run f).
Qed.

Lemma parts_refines (f : nat) (items : list ref) (vitems : list value)
    (st : state) :
  (0 < f)%nat ->
  Forall2 (stands_for f (heap st)) items vitems ->
  refines (fun h => Forall2 (same h))
    (map_st (fun exp =>
               st_bind new_list (fun default =>
                 st_bind (get exp "responsibilities" default) (join " ")))
       items)
    (mapM (fun exp => v <- py_get exp "responsibilities" (VList []) ;;
                      py_join " " v) vitems) st.
Proof.
  intros Hf Hi. apply (map_st_refines (stands_for f) same);
    [apply stable_stands_for | apply stable_same | exact Hi|].
  intros x vx st' _ Hx. apply refines_alloc. set (st1 := with_heap st' _).
  apply (refines_bind (stands_for f)).
  { apply reads_refines, (get_reads f).
    - apply (deref_grows f st'); [apply grows_alloc | exact Hx].
    - apply deref_empty_list; [exact Hf | apply lookup_new]. }
  intros r v st2 _ Hr. apply reads_refines, run_reads. now apply (join_run f).
Qed.

(** the sections of [calculate_ats_score] that read the experience and
    the education *)
Lemma experience_section_refines (f : nat) (experience : ref) (v : value)
    (st : state) :
  (0 < f)%nat -> deref f (heap st) experience = Some v ->
  refines same
    (if truthy v
     then
       st_bind (iter experience) (fun items =>
         st_bind (all_st (fun exp => st_bind (get exp "start_date" RNone) truth)
                    items) (fun dated =>
           st_bind (iter experience) (fun items =>
             st_bind (all_st (fun exp =>
                        st_bind new_list (fun default =>
                          st_bind (get exp "responsibilities" default) (fun v =>
                            st_bind (len v) (fun n => ret (2 <=? n))))) items)
               (fun described =>
                  ret (10 + (if dated : bool then 10 else 0)
                       + (if described : bool then 10 else 0))))))
     else ret 0)
    (if truthy v
     then
       items <- py_iter v ;;
       dated <- py_all (fun exp => v <- py_get exp "start_date" VNone ;;
                                   Ok (truthy v)) items ;;
       described <- py_all (fun exp =>
                              v <- py_get exp "responsibilities" (VList []) ;;
                              n <- py_len v ;; Ok (2 <=? n)) items ;;
       Ok (10 + (if dated : bool then 10 else 0)
           + (if described : bool then 10 else 0))
     else Ok 0) st.
Proof.
  intros Hf Hv. destruct (truthy v); [|now apply refines_ret].
  destruct (py_iter v) as [vitems|e] eqn:Ei;
    [|now apply refines_raise, (iter_run_raise f st _ v)].
  destruct (iter_run_ok f st _ _ _ Hv Ei) as (items & Hiter & Hitems).
  eapply refines_step; [exact Hiter | apply grows_refl|]. cbn [bind].
  apply (refines_bind same); [now apply (dated_refines f)|].
  intros dated ? st1 Hg1 <-.
  destruct (iter_run_ok f st1 _ _ _ (deref_grows f _ _ _ _ Hg1 Hv) Ei)
    as (items' & Hiter' & Hitems').
  eapply refines_step; [exact Hiter' | apply grows_refl|].
  apply (refines_bind same); [now apply (described_refines f)|].
  intros described ? st2 _ <-. now apply refines_ret.
Qed.

Lemma education_section_refines (f : nat) (education : ref) (v : value)
    (st : state) :
  deref f (heap st) education = Some v ->
  refines same
    (if truthy v
     then
       st_bind (iter education) (fun items =>
         st_bind (all_st (fun edu =>
                    st_bind (get edu "degree" RNone) (fun d =>
                      st_bind (truth d) (fun has_degree =>
                        if has_degree : bool
                        then st_bind (get edu "institution" RNone) truth
                        else ret false))) items)
           (fun complete => ret (10 + (if complete : bool then 5 else 0))))
     else ret 0)
    (if truthy v
     then
       items <- py_iter v ;;
       complete <- py_all (fun edu => d <- py_get edu "degree" VNone ;;
                                      if truthy d
                                      then i <- py_get edu "institution" VNone ;;
                                           Ok (truthy i)
                                      else Ok false) items ;;
       Ok (10 + (if complete : bool then 5 else 0))
     else Ok 0) st.
Proof.
  intros Hv. destruct (truthy v); [|now apply refines_ret].
  apply (refines_bind (fun h => Forall2 (stands_for f h)));
    [now apply reads_refines, iter_reads|].
  intros items vitems st1 _ Hitems.
  apply (refines_bind same); [now apply (complete_refines f)|].
  intros complete ? st2 _ <-. now apply refines_ret.
Qed.

(** the dictionary that [calculate_ats_score] returns, with the
    dictionary of the sections in it *)
Lemma deref_result (f : nat) (h : list object) (breakdown : nat)
    (sections : list (string * ref)) (vsections : dict)
    (total percentage : ref) (vtotal vpercentage : value) :
  (1 < f)%nat ->
  h !! breakdown = Some (ODict sections) ->
  all_some (fun kr => option_map (pair (fst kr)) (immediate (snd kr))) sections
  = Some vsections ->
  immediate total = Some vtotal ->
  immediate percentage = Some vpercentage ->
  deref f (h ++ [ODict [ ("total_score", total); ("max_score", RInt 100);
                         ("percentage", percentage);
                         ("breakdown", RObj breakdown) ]])
    (RObj (length h))
  = Some (VDict [ ("total_score", vtotal); ("max_score", VInt 100);
                  ("percentage", vpercentage);
                  ("breakdown", VDict vsections) ]).
Proof.
  intros Hf Hb Hs Ht Hp. destruct f as [|f]; [lia|].
  cbn [deref value_of deref_object].
  rewrite lookup_app_r, Nat.sub_diag by lia. cbn [lookup list_lookup].
  cbn [all_some fst snd].
  rewrite (value_of_immediate _ _ _ Ht), (value_of_immediate _ _ _ Hp).
  cbn [value_of option_map].
  assert (E : deref f (h ++ [ODict [ ("total_score", total);
                                      ("max_score", RInt 100);
                                      ("percentage", percentage);
                                      ("breakdown", RObj breakdown) ]])
                (RObj breakdown) = Some (VDict vsections)).
  { apply deref_flat_dict with (items := sections); [lia| |exact Hs].
    rewrite lookup_app_l; [exact Hb|]. now apply lookup_lt_Some in Hb. }
  cbn [deref value_of] in E. now rewrite E.
Qed.

Lemma write_step {A' B'} (base : state)
    (rel' : list object -> A' -> B' -> Prop)
    (k : unit -> M A') (p : result B') (st : state) (l : nat)
    (items : list (string * ref)) (key : string) (r : ref) :
  heap st !! l = Some (ODict items) ->
  grows base st -> (length (heap base) <= l)%nat ->
  (forall st',
     grows base st' ->
     heap st' !! l = Some (ODict (set_item items key r)) ->
     (forall l' o, l <> l' -> heap st !! l' = Some o ->
                   heap st' !! l' = Some o) ->
     refines_from base rel' (k tt) p st') ->
  refines_from base rel' (st_bind (setitem (RObj l) key r) k) p st.
Proof.
  intros Hl Hg Hlen Hk. eapply from_step; [apply setitem_run, Hl|].
  apply Hk.
  - now apply grows_write.
  - now apply (lookup_written st l (ODict items)).
  - intros l' o. apply lookup_kept.
Qed.

Lemma alloc_step {A' B'} (base : state)
    (rel' : list object -> A' -> B' -> Prop)
    (o : object) (k : ref -> M A') (p : result B') (st : state) :
  (forall st',
     grows st st' -> heap st' !! length (heap st) = Some o ->
     refines_from base rel' (k (RObj (length (heap st)))) p st') ->
  refines_from base rel' (st_bind (alloc o) k) p st.
Proof.
  intros Hk. eapply from_step; [reflexivity|].
  apply Hk; [apply grows_alloc | apply lookup_new].
Qed.

Lemma calculate_ats_score_refines (f : nat) (self : ResumeEnhancer)
    (w : World) (resume_data : ref) (d : dict) (st : state) :
  (1 < f)%nat -> deref f (heap st) resume_data = Some (VDict d) ->
  refines (fun h r score => stands_for f h r (ats_dict score))
    (Stateful.calculate_ats_score resume_data)
    (Enhancer.calculate_ats_score self w d) st.
Proof.
  intros Hf2 Hd. assert (Hf : (0 < f)%nat) by lia.
  unfold refines, Stateful.calculate_ats_score, Enhancer.calculate_ats_score.
  cbv zeta.
  (* breakdown = {} *)
  apply alloc_step. intros st1 Hg1 Hb1.
  set (breakdown := length (heap st)) in *.
  (* personal information *)
  apply alloc_step. intros st2 Hg12 Hl2.
  assert (Hg2 : grows st st2) by (eapply grows_trans; eassumption).
  pose proof (lookup_grows _ _ _ _ Hg12 Hb1) as Hb2.
  destruct (get_dict_run f st2 resume_data d "personal_info"
              (RObj (length (heap st1))) (VDict []))
    as (personal_info & Hget & Hpi).
  { now apply (deref_grows f st). }
  { now apply deref_empty_dict. }
  eapply from_step; [exact Hget|]. clear Hget.
  eapply from_run; [apply (points_if_run f), Hpi | exact Hg2|]. intros p1 _.
  eapply from_run; [apply (points_if_run f), Hpi | exact Hg2|]. intros p2 _.
  eapply from_run; [apply (points_if_run f), Hpi | exact Hg2|]. intros p3 _.
  eapply from_run; [apply (points_if_run f), Hpi | exact Hg2|]. intros p4 _.
  eapply write_step; [exact Hb2 | exact Hg2 | reflexivity|].
  intros st3 Hg3 Hb3 _. clear Hpi Hl2 Hb2 Hg2 Hg12 Hb1 Hg1 st1 st2.
  (* experience section *)
  apply alloc_step. intros st4 Hg34 Hl4.
  assert (Hne : breakdown <> length (heap st3))
    by (apply lookup_lt_Some in Hb3; lia).
  set (default := length (heap st3)) in *. clearbody default.
  assert (Hg4 : grows st st4) by (eapply grows_trans; eassumption).
  pose proof (lookup_grows _ _ _ _ Hg34 Hb3) as Hb4.
  destruct (get_or_default f st st4 resume_data d "experience" default
              Hf Hd Hg4) as (experience & Hget & Hexp).
  eapply from_step; [exact Hget|]. clear Hget Hg34 Hb3 Hg3 st3.
  eapply from_step; [apply (truth_run f), (Hexp st4 Hg4 Hl4)|].
  eapply from_bind;
    [apply (experience_section_refines f), (Hexp st4 Hg4 Hl4); exact Hf
    | exact Hg4|].
  intros experience_score ? st5 Hg45 <-.
  assert (Hg5 : grows st st5) by (eapply grows_trans; eassumption).
  pose proof (lookup_grows _ _ _ _ Hg45 Hb4) as Hb5.
  pose proof (lookup_grows _ _ _ _ Hg45 Hl4) as Hl5.
  clear Hg45 Hb4 Hl4 Hg4 st4.
  eapply write_step; [exact Hb5 | exact Hg5 | reflexivity|].
  intros st6 Hg6 Hb6 Hkept. pose proof (Hkept _ _ Hne Hl5) as Hl6.
  clear Hkept Hb5 Hl5 Hg5 st5.
  (* education *)
  apply alloc_step. intros st7 Hg67 Hl7.
  assert (Hg7 : grows st st7) by (eapply grows_trans; eassumption).
  pose proof (lookup_grows _ _ _ _ Hg67 Hb6) as Hb7.
  pose proof (lookup_grows _ _ _ _ Hg67 Hl6) as Hd7.
  destruct (get_dict_run f st7 resume_data d "education"
              (RObj (length (heap st6))) (VList []))
    as (education & Hget & Hedu).
  { now apply (deref_grows f st). }
  { now apply deref_empty_list. }
  eapply from_step; [exact Hget|]. clear Hget Hl7 Hg67 Hb6 Hl6 Hg6 st6.
  eapply from_step; [apply (truth_run f), Hedu|].
  eapply from_bind;
    [apply (education_section_refines f), Hedu | exact Hg7|].
  intros education_score ? st8 Hg78 <-.
  assert (Hg8 : grows st st8) by (eapply grows_trans; eassumption).
  pose proof (lookup_grows _ _ _ _ Hg78 Hb7) as Hb8.
  pose proof (lookup_grows _ _ _ _ Hg78 Hd7) as Hd8.
  clear Hedu Hg78 Hb7 Hd7 Hg7 st7.
  eapply write_step; [exact Hb8 | exact Hg8 | reflexivity|].
  intros st9 Hg9 Hb9 Hkept. pose proof (Hkept _ _ Hne Hd8) as Hd9.
  clear Hkept Hb8 Hd8 Hg8 st8.
  (* skills *)
  apply alloc_step. intros st10 Hg910 Hl10.
  assert (Hg10 : grows st st10) by (eapply grows_trans; eassumption).
  pose proof (lookup_grows _ _ _ _ Hg910 Hb9) as Hb10.
  pose proof (lookup_grows _ _ _ _ Hg910 Hd9) as Hd10.
  destruct (get_dict_run f st10 resume_data d "skills"
              (RObj (length (heap st9))) (VDict []))
    as (skills & Hget & Hskills).
  { now apply (deref_grows f st). }
  { now apply deref_empty_dict. }
  eapply from_step; [exact Hget|]. clear Hget Hl10 Hg910 Hb9 Hd9 Hg9 st9.
  eapply from_bind;
    [apply (total_skills_refines f), Hskills; exact Hf | exact Hg10|].
  intros n ? st11 Hg1011 <-.
  assert (Hg11 : grows st st11) by (eapply grows_trans; eassumption).
  pose proof (lookup_grows _ _ _ _ Hg1011 Hb10) as Hb11.
  pose proof (lookup_grows _ _ _ _ Hg1011 Hd10) as Hd11.
  clear Hskills Hg1011 Hb10 Hd10 Hg10 st10.
  eapply write_step; [exact Hb11 | exact Hg11 | reflexivity|].
  intros st12 Hg12 Hb12 Hkept. pose proof (Hkept _ _ Hne Hd11) as Hd12.
  clear Hkept Hb11 Hd11 Hg11 st11.
  (* keywords and formatting *)
  eapply from_bind;
    [apply reads_refines, (iter_reads f), (Hexp st12 Hg12 Hd12) | exact Hg12|].
  intros items vitems st13 Hg1213 Hitems.
  eapply from_bind;
    [apply (parts_refines f), Hitems; exact Hf
    | eapply grows_trans; eassumption|].
  intros parts ? st14 Hg1314 Hparts. apply Forall2_same in Hparts as <-.
  assert (Hg14 : grows st st14)
    by (eapply grows_trans; [exact Hg12|]; eapply grows_trans; eassumption).
  pose proof (lookup_grows _ _ _ _ Hg1314
                (lookup_grows _ _ _ _ Hg1213 Hb12)) as Hb14.
  clear Hitems Hg1314 Hg1213 Hb12 Hd12 Hg12 st12 st13.
  eapply write_step; [exact Hb14 | exact Hg14 | reflexivity|].
  intros st15 Hg15 Hb15 _. clear Hb14 Hg14 st14.
  (* the result *)
  split; [eapply grows_trans; [exact Hg15 | apply grows_alloc]|].
  cbn [fst snd alloc with_heap heap matches]. unfold stands_for.
  apply deref_result with (1 := Hf2) (2 := Hb15); reflexivity.
Qed.

(** ** The analytics and their environment *)

Lemma refines_call_returns {A B} (limit : nat)
    (rel : list object -> A -> B -> Prop) (m : M A) (p : result B)
    (st : state) (args : list (ref * value)) :
  refines rel m p st ->
  Forall (fun arg => deref limit (heap st) (fst arg) = Some (snd arg)) args ->
  call_returns limit rel m st args p.
Proof.
  intros [Hg Hm] Hargs. pose proof Hg as (Hh & Hs & Ho).
  repeat split; try assumption.
  - intros l o Hl. exact (prefix_lookup_Some _ _ _ _ Hl Hh).
  - eapply Forall_impl; [exact Hargs|]. intros [r v]. cbn [fst snd].
    now apply deref_grows.
Qed.

(** C6 (amended).  Each of the four analytics, called in any state of
    the store, of [self] and of the output, on references that stand
    for the values of its arguments, returns what the function of these
    values in [Enhancer] returns -- the number, a new dictionary that
    stands for its dictionary, or its exception -- and leaves every
    object that was there, its arguments among them, and [self] as they
    were; [calculate_experience_years] may print a line for an entry
    whose dates raise.  So two calls on arguments with equal values
    return equal results, whatever the two states are and whatever ran
    before, when the following agree: for
    [calculate_experience_years] the year and the month of the clock
    and what the date parsers answer, for [calculate_skill_match] the
    tokenizer and the stop words, for [calculate_ats_score] and
    [analyze_career_progression] nothing. *)
Theorem analytics_read_only_their_environment
    (limit : nat) (w1 w2 : World) (st1 st2 : state) :
  (forall experience1 experience2 v,
     deref limit (heap st1) experience1 = Some v ->
     deref limit (heap st2) experience2 = Some v ->
     year (now w1) = year (now w2) -> month (now w1) = month (now w2) ->
     (forall fuzzy s, dateutil_parse w1 fuzzy s = dateutil_parse w2 fuzzy s) ->
     (forall pattern s, re_search w1 pattern s = re_search w2 pattern s) ->
     let outcome := Enhancer.calculate_experience_years (self_of st1) w1 v in
     call_returns limit same
       (Stateful.calculate_experience_years w1 experience1) st1
       [(experience1, v)] outcome
     /\ call_returns limit same
          (Stateful.calculate_experience_years w2 experience2) st2
          [(experience2, v)] outcome)
  /\ (forall resume1 resume2 requirements1 requirements2 d job_requirements,
        deref limit (heap st1) resume1 = Some (VDict d) ->
        deref limit (heap st2) resume2 = Some (VDict d) ->
        deref limit (heap st1) requirements1
        = Some (VList (map VStr job_requirements)) ->
        deref limit (heap st2) requirements2
        = Some (VList (map VStr job_requirements)) ->
        self_stop_words st1 = self_stop_words st2 ->
        (forall s, word_tokenize w1 s = word_tokenize w2 s) ->
        let outcome :=
          Enhancer.calculate_skill_match (self_of st1) w1 d job_requirements in
        call_returns limit same
          (Stateful.calculate_skill_match w1 resume1 requirements1) st1
          [(resume1, VDict d);
           (requirements1, VList (map VStr job_requirements))] outcome
        /\ call_returns limit same
             (Stateful.calculate_skill_match w2 resume2 requirements2) st2
             [(resume2, VDict d);
              (requirements2, VList (map VStr job_requirements))] outcome)
  /\ (forall resume1 resume2 d,
        (1 < limit)%nat ->
        deref limit (heap st1) resume1 = Some (VDict d) ->
        deref limit (heap st2) resume2 = Some (VDict d) ->
        let outcome := Enhancer.calculate_ats_score (self_of st1) w1 d in
        call_returns limit
          (fun h r score => deref limit h r = Some (ats_dict score))
          (Stateful.calculate_ats_score resume1) st1
          [(resume1, VDict d)] outcome
        /\ call_returns limit
             (fun h r score => deref limit h r = Some (ats_dict score))
             (Stateful.calculate_ats_score resume2) st2
             [(resume2, VDict d)] outcome)
  /\ (forall experience1 experience2 v,
        (0 < limit)%nat ->
        deref limit (heap st1) experience1 = Some v ->
        deref limit (heap st2) experience2 = Some v ->
        let outcome :=
          Enhancer.analyze_career_progression (self_of st1) w1 v in
        call_returns limit (fun h r result => deref limit h r = Some result)
          (Stateful.analyze_career_progression limit experience1) st1
          [(experience1, v)] outcome
        /\ call_returns limit
             (fun h r result => deref limit h r = Some result)
             (Stateful.analyze_career_progression limit experience2) st2
             [(experience2, v)] outcome).
Proof.
  split; [|split; [|split]].
  - intros experience1 experience2 v H1 H2 Hy Hm Hp Hr outcome. split.
    + apply refines_call_returns; [|now repeat constructor].
      now apply (calculate_experience_years_refines limit).
    + apply refines_call_returns; [|now repeat constructor].
      unfold outcome.
      rewrite (calculate_experience_years_ext (self_of st1) (self_of st2)
                 w1 w2 Hy Hm Hp Hr).
      now apply (calculate_experience_years_refines limit).
  - intros resume1 resume2 requirements1 requirements2 d job_requirements
      H1 H2 R1 R2 Hs Ht outcome. split.
    + apply refines_call_returns; [|now repeat constructor].
      now apply (calculate_skill_match_refines limit).
    + apply refines_call_returns; [|now repeat constructor].
      unfold outcome.
      rewrite (calculate_skill_match_ext (self_of st1) (self_of st2) w1 w2
                 Hs Ht).
      now apply (calculate_skill_match_refines limit).
  - intros resume1 resume2 d Hl H1 H2 outcome. split.
    + apply refines_call_returns; [|now repeat constructor].
      now apply (calculate_ats_score_refines limit).
    + apply refines_call_returns; [|now repeat constructor].
      now apply (calculate_ats_score_refines limit (self_of st1) w1).
  - intros experience1 experience2 v Hl H1 H2 outcome. split.
    + apply refines_call_returns; [|now repeat constructor].
      now apply (analyze_career_progression_refines limit).
    + apply refines_call_returns; [|now repeat constructor].
      now apply (analyze_career_progression_refines limit (self_of st1) w1).
Qed.

Lemma analytics_read_only_their_environment_witness :
  let morning := Examples.world_on 2024 1 10 in
  let evening := Examples.world_on 2024 1 31 in
  (deref 5 (heap Examples.office) Examples.office_jobs = Some Examples.current_job
   /\ deref 5 (heap Examples.archive) Examples.archive_jobs = Some Examples.current_job
   /\ deref 5 (heap Examples.office) Examples.office_resume
      = Some (VDict Examples.sample_resume)
   /\ deref 5 (heap Examples.archive) Examples.archive_resume
      = Some (VDict Examples.sample_resume)
   /\ deref 5 (heap Examples.office) Examples.office_requirements
      = Some (VList (map VStr ["Python"; "Rust"]))
   /\ deref 5 (heap Examples.archive) Examples.archive_requirements
      = Some (VList (map VStr ["Python"; "Rust"])))
  /\ (call_returns 5 same
        (Stateful.calculate_experience_years morning Examples.office_jobs) Examples.office
        [(Examples.office_jobs, Examples.current_job)]
        (Enhancer.calculate_experience_years (self_of Examples.office) morning
           Examples.current_job)
      /\ call_returns 5 same
           (Stateful.calculate_experience_years evening Examples.archive_jobs) Examples.archive
           [(Examples.archive_jobs, Examples.current_job)]
           (Enhancer.calculate_experience_years (self_of Examples.office) morning
              Examples.current_job))
  /\ (call_returns 5 same
        (Stateful.calculate_skill_match morning Examples.office_resume
           Examples.office_requirements) Examples.office
        [(Examples.office_resume, VDict Examples.sample_resume);
         (Examples.office_requirements, VList (map VStr ["Python"; "Rust"]))]
        (Enhancer.calculate_skill_match (self_of Examples.office) morning
           Examples.sample_resume ["Python"; "Rust"])
      /\ call_returns 5 same
           (Stateful.calculate_skill_match evening Examples.archive_resume
              Examples.archive_requirements) Examples.archive
           [(Examples.archive_resume, VDict Examples.sample_resume);
            (Examples.archive_requirements, VList (map VStr ["Python"; "Rust"]))]
           (Enhancer.calculate_skill_match (self_of Examples.office) morning
              Examples.sample_resume ["Python"; "Rust"]))
  /\ (call_returns 5
        (fun h r score => deref 5 h r = Some (ats_dict score))
        (Stateful.calculate_ats_score Examples.office_resume) Examples.office
        [(Examples.office_resume, VDict Examples.sample_resume)]
        (Enhancer.calculate_ats_score (self_of Examples.office) morning
           Examples.sample_resume)
      /\ call_returns 5
           (fun h r score => deref 5 h r = Some (ats_dict score))
           (Stateful.calculate_ats_score Examples.archive_resume) Examples.archive
           [(Examples.archive_resume, VDict Examples.sample_resume)]
           (Enhancer.calculate_ats_score (self_of Examples.office) morning
              Examples.sample_resume))
  /\ (call_returns 5 (fun h r result => deref 5 h r = Some result)
        (Stateful.analyze_career_progression 5 Examples.office_jobs) Examples.office
        [(Examples.office_jobs, Examples.current_job)]
        (Enhancer.analyze_career_progression (self_of Examples.office) morning
           Examples.current_job)
      /\ call_returns 5 (fun h r result => deref 5 h r = Some result)
           (Stateful.analyze_career_progression 5 Examples.archive_jobs) Examples.archive
           [(Examples.archive_jobs, Examples.current_job)]
           (Enhancer.analyze_career_progression (self_of Examples.office) morning
              Examples.current_job)).
Proof.
  intros morning evening.
  assert (J1 : deref 5 (heap Examples.office) Examples.office_jobs = Some Examples.current_job)
    by (vm_compute; reflexivity).
  assert (J2 : deref 5 (heap Examples.archive) Examples.archive_jobs
               = Some Examples.current_job) by (vm_compute; reflexivity).
  assert (R1 : deref 5 (heap Examples.office) Examples.office_resume
               = Some (VDict Examples.sample_resume))
    by (vm_compute; reflexivity).
  assert (R2 : deref 5 (heap Examples.archive) Examples.archive_resume
               = Some (VDict Examples.sample_resume))
    by (vm_compute; reflexivity).
  assert (Q1 : deref 5 (heap Examples.office) Examples.office_requirements
               = Some (VList (map VStr ["Python"; "Rust"])))
    by (vm_compute; reflexivity).
  assert (Q2 : deref 5 (heap Examples.archive) Examples.archive_requirements
               = Some (VList (map VStr ["Python"; "Rust"])))
    by (vm_compute; reflexivity).
  destruct (analytics_read_only_their_environment 5 morning evening
              Examples.office Examples.archive) as (Hyears & Hmatch & Hats & Hcareer).
  split; [repeat split; assumption|]. split; [|split; [|split]].
  - exact (Hyears _ _ _ J1 J2 eq_refl eq_refl
             (fun _ _ => eq_refl) (fun _ _ => eq_refl)).
  - exact (Hmatch _ _ _ _ _ _ R1 R2 Q1 Q2 eq_refl (fun _ => eq_refl)).
  - apply (Hats _ _ _ ltac:(lia) R1 R2).
  - apply (Hcareer _ _ _ ltac:(lia) J1 J2).
Defined.

(** what the theorem excludes can be written down: an assignment to a
    key of the resume is seen in the store, and an assignment to
    [self.stop_words] in [self] *)
Example a_write_is_seen :
  ~ call_returns 5 same (setitem Examples.office_resume "checked" (RBool true)) Examples.office
      [(Examples.office_resume, VDict Examples.sample_resume)] (Ok tt).
Proof.
  intros (H & _).
  specialize (H 8%nat _ eq_refl). vm_compute in H. discriminate H.
Qed.

Example an_assignment_to_self_is_seen :
  ~ call_returns 5 same (set_stop_words {["the"]}) Examples.office [] (Ok tt).
Proof.
  intros (_ & H & _). cbn in H.
  assert (Hin : "the" ∈ (∅ : gset string)) by (rewrite <- H; set_solver).
  set_solver.
Qed.

End StatefulFacts.

(** * Further properties of [resume_extractor.py] *)

Module ExtractorExtra.
Import Py Extractor Spec Notions Cases PyFacts ExtractorFacts.
Local Open Scope list_scope.

(** ** [clean_text] *)

Lemma single_spaced_weaken (b : bool) (s : string) :
  single_spaced true s = true -> single_spaced b s = true.
Proof.
  destruct s as [|c r]; [easy|]. simpl. destruct (is_space c); [|easy].
  rewrite andb_false_r. discriminate.
Qed.

Lemma sub_spaces_single_spaced (b : bool) (s : string) :
  single_spaced b (sub_spaces b s) = true.
Proof.
  revert b. induction s as [|c r IH]; intros b; [easy|]. simpl.
  destruct (is_space c) eqn:Hc.
  - destruct b; [apply IH|]. simpl. apply IH.
  - simpl. rewrite Hc. apply IH.
Qed.

Lemma single_spaced_lacks_newline (b : bool) (s : string) :
  single_spaced b s = true -> lacks newline s = true.
Proof.
  revert b. induction s as [|c r IH]; intros b; [easy|]. simpl.
  destruct (Ascii.eqb c newline) eqn:Hn.
  - apply Ascii.eqb_eq in Hn. subst c. simpl. discriminate.
  - destruct (is_space c); [|apply IH].
    rewrite !andb_true_iff. intros [_ H]. now apply IH in H.
Qed.

Lemma sub_blank_lines_id (s : string) :
  lacks newline s = true -> sub_blank_lines None s = s.
Proof.
  induction s as [|c r IH]; [easy|]. simpl.
  destruct (Ascii.eqb c newline); [discriminate|]. simpl.
  intros H. now rewrite IH.
Qed.

Lemma sub_spaces_id (b : bool) (s : string) :
  single_spaced b s = true -> sub_spaces b s = s.
Proof.
  revert b. induction s as [|c r IH]; intros b; [easy|]. simpl.
  destruct (is_space c) eqn:Hc.
  - rewrite !andb_true_iff. intros [[Hsp Hb] H].
    apply Ascii.eqb_eq in Hsp. subst c. destruct b; [discriminate|].
    now rewrite IH.
  - intros H. now rewrite IH.
Qed.

Lemma replace_pipe_single_spaced (b : bool) (s : string) :
  single_spaced b (replace_char "|" "I" s) = single_spaced b s.
Proof.
  revert b. induction s as [|c r IH]; intros b; [easy|]. simpl.
  destruct (Ascii.eqb c "|") eqn:Hp.
  - apply Ascii.eqb_eq in Hp. subst c. simpl. apply IH.
  - destruct (is_space c); now rewrite ?IH.
Qed.

Lemma replace_pipe_lacks (s : string) :
  lacks "|" (replace_char "|" "I" s) = true.
Proof.
  induction s as [|c r IH]; [easy|]. simpl.
  destruct (Ascii.eqb c "|") eqn:Hp; simpl; [exact IH|]. now rewrite Hp.
Qed.

Lemma replace_char_id (a b : ascii) (s : string) :
  lacks a s = true -> replace_char a b s = s.
Proof.
  induction s as [|c r IH]; [easy|]. simpl.
  destruct (Ascii.eqb c a); [discriminate|]. simpl. intros H. now rewrite IH.
Qed.

Lemma is_lower_not_space (c : ascii) : is_lower c = true -> is_space c = false.
Proof. destruct c as [[] [] [] [] [] [] [] []]; (reflexivity || discriminate). Qed.

Lemma is_upper_not_space (c : ascii) : is_upper c = true -> is_space c = false.
Proof. destruct c as [[] [] [] [] [] [] [] []]; (reflexivity || discriminate). Qed.

Lemma split_camel_cons (c c' : ascii) (r : string) :
  split_camel (String c (String c' r))
  = String c (if is_lower c && is_upper c'
              then String " " (split_camel (String c' r))
              else split_camel (String c' r)).
Proof. reflexivity. Qed.

Lemma split_camel_head (c : ascii) (r : string) :
  exists r', split_camel (String c r) = String c r'.
Proof. simpl. eauto. Qed.

Lemma split_camel_single_spaced (b : bool) (s : string) :
  single_spaced b s = true -> single_spaced b (split_camel s) = true.
Proof.
  revert b. induction s as [|c r IH]; intros b; [easy|].
  destruct r as [|c' r']; [easy|]. rewrite split_camel_cons.
  destruct (is_lower c && is_upper c') eqn:Hcamel.
  - apply andb_true_iff in Hcamel as [Hl Hu].
    apply is_lower_not_space in Hl. apply is_upper_not_space in Hu.
    cbn [single_spaced]. rewrite Hl, Hu. cbn [single_spaced] in IH.
    intros H. specialize (IH false). rewrite Hu in IH. specialize (IH H).
    destruct (split_camel_head c' r') as [r'' E]. rewrite E in *.
    simpl. simpl in IH. rewrite Hu in *. exact IH.
  - cbn [single_spaced]. destruct (is_space c).
    + rewrite !andb_true_iff. intros [[H1 H2] H3]. repeat split; auto.
    + apply IH.
Qed.

Lemma split_camel_lacks (a : ascii) (s : string) :
  Ascii.eqb " " a = false ->
  lacks a s = true -> lacks a (split_camel s) = true.
Proof.
  intros Ha. induction s as [|c r IH]; [easy|].
  destruct r as [|c' r']; [easy|]. rewrite split_camel_cons.
  cbn [lacks]. rewrite andb_true_iff. intros [Hc Hr].
  rewrite Hc. specialize (IH Hr).
  destruct (is_lower c && is_upper c'); [|exact IH].
  cbn [lacks]. rewrite Ha. exact IH.
Qed.

Lemma split_camel_no_camel (s : string) : no_camel (split_camel s) = true.
Proof.
  induction s as [|c r IH]; [easy|].
  destruct r as [|c' r']; [easy|]. rewrite split_camel_cons.
  destruct (split_camel_head c' r') as [r'' E]. rewrite E in *.
  destruct (is_lower c && is_upper c') eqn:Hcamel.
  - cbn [no_camel] in *. rewrite IH. now rewrite andb_false_r.
  - cbn [no_camel] in *. now rewrite Hcamel, IH.
Qed.

Lemma split_camel_id (s : string) : no_camel s = true -> split_camel s = s.
Proof.
  induction s as [|c r IH]; [easy|].
  destruct r as [|c' r']; [easy|]. rewrite split_camel_cons.
  cbn [no_camel]. cbn [no_camel] in IH.
  rewrite andb_true_iff. intros [Hc Hr]. apply negb_true_iff in Hc.
  rewrite Hc. now rewrite (IH Hr).
Qed.

(** *** Stripping *)

Lemma lstrip_single_spaced (b : bool) (s : string) :
  single_spaced b s = true -> single_spaced true (lstrip s) = true.
Proof.
  revert b. induction s as [|c r IH]; intros b; [easy|]. simpl.
  destruct (is_space c) eqn:Hc.
  - rewrite !andb_true_iff. intros [_ H]. now apply IH in H.
  - simpl. now rewrite Hc.
Qed.

Lemma lstrip_lacks (a : ascii) (s : string) :
  lacks a s = true -> lacks a (lstrip s) = true.
Proof.
  induction s as [|c r IH]; [easy|]. simpl.
  destruct (is_space c); [|easy]. rewrite andb_true_iff. intros [_ H]. auto.
Qed.

Lemma lstrip_no_camel (s : string) :
  no_camel s = true -> no_camel (lstrip s) = true.
Proof.
  induction s as [|c r IH]; [easy|]. cbn [lstrip].
  destruct (is_space c); [|easy]. cbn [no_camel].
  rewrite andb_true_iff. intros [_ H]. auto.
Qed.

Lemma rstrip_cons (c : ascii) (r : string) :
  rstrip (String c r)
  = match rstrip r with
    | EmptyString => if is_space c then EmptyString else String c EmptyString
    | r' => String c r'
    end.
Proof. reflexivity. Qed.

(** [rstrip] keeps the first character of what it leaves of the rest *)
Lemma rstrip_head (c : ascii) (r : string) :
  rstrip (String c r) = EmptyString
  \/ rstrip (String c r) = String c (rstrip r).
Proof.
  rewrite rstrip_cons. destruct (rstrip r); [|auto].
  destruct (is_space c); auto.
Qed.

Lemma rstrip_single_spaced (b : bool) (s : string) :
  single_spaced b s = true -> single_spaced b (rstrip s) = true.
Proof.
  revert b. induction s as [|c r IH]; intros b; [easy|].
  destruct (rstrip_head c r) as [-> | ->]; [easy|]. simpl.
  destruct (is_space c).
  - rewrite !andb_true_iff. intros [[H1 H2] H3]. repeat split; auto.
  - apply IH.
Qed.

Lemma rstrip_lacks (a : ascii) (s : string) :
  lacks a s = true -> lacks a (rstrip s) = true.
Proof.
  induction s as [|c r IH]; [easy|].
  destruct (rstrip_head c r) as [-> | ->]; [easy|]. simpl.
  rewrite !andb_true_iff. intros [H1 H2]. auto.
Qed.

Lemma rstrip_no_camel (s : string) :
  no_camel s = true -> no_camel (rstrip s) = true.
Proof.
  induction s as [|c r IH]; [easy|].
  destruct (rstrip_head c r) as [-> | ->]; [easy|].
  cbn [no_camel]. rewrite !andb_true_iff. intros [H1 H2]. split; [|auto].
  destruct r as [|c' r']; [easy|].
  destruct (rstrip_head c' r') as [-> | ->]; [easy | exact H1].
Qed.

Lemma rstrip_idem (s : string) : rstrip (rstrip s) = rstrip s.
Proof.
  induction s as [|c r IH]; [easy|]. rewrite rstrip_cons.
  destruct (rstrip r) as [|d r'] eqn:E.
  - destruct (is_space c) eqn:Hc; [easy|]. rewrite rstrip_cons. simpl.
    now rewrite Hc.
  - rewrite rstrip_cons, IH. reflexivity.
Qed.

Lemma lstrip_rstrip_lstrip (s : string) :
  lstrip (rstrip (lstrip s)) = rstrip (lstrip s).
Proof.
  induction s as [|c r IH]; [easy|]. cbn [lstrip].
  destruct (is_space c) eqn:Hc; [exact IH|].
  rewrite rstrip_cons. destruct (rstrip r); rewrite ?Hc; simpl; now rewrite Hc.
Qed.

Lemma strip_idem (s : string) : strip (strip s) = strip s.
Proof. unfold strip. now rewrite lstrip_rstrip_lstrip, rstrip_idem. Qed.

(** the three substitutions that do something, before the final strip *)
Lemma clean_text_steps (text : string) :
  clean_text text
  = strip (split_camel (replace_char "|" "I" (sub_spaces false text))).
Proof.
  unfold clean_text. rewrite sub_blank_lines_id; [reflexivity|].
  apply (single_spaced_lacks_newline false), sub_spaces_single_spaced.
Qed.

Lemma clean_text_normal (text : string) :
  single_spaced true (clean_text text) = true
  /\ strip (clean_text text) = clean_text text
  /\ lacks newline (clean_text text) = true
  /\ lacks "|" (clean_text text) = true
  /\ no_camel (clean_text text) = true.
Proof.
  assert (H1 : single_spaced true (clean_text text) = true).
  { rewrite clean_text_steps. unfold strip.
    apply rstrip_single_spaced, (lstrip_single_spaced false).
    apply split_camel_single_spaced. rewrite replace_pipe_single_spaced.
    apply sub_spaces_single_spaced. }
  split; [exact H1|]. split; [|split; [|split]].
  - rewrite clean_text_steps. apply strip_idem.
  - exact (single_spaced_lacks_newline _ _ H1).
  - rewrite clean_text_steps. unfold strip.
    apply rstrip_lacks, lstrip_lacks, split_camel_lacks; [reflexivity|].
    apply replace_pipe_lacks.
  - rewrite clean_text_steps. unfold strip.
    apply rstrip_no_camel, lstrip_no_camel, split_camel_no_camel.
Qed.


(** X2.  Cleaning a text that is already clean changes nothing. *)
Theorem clean_text_idempotent (text : string) :
  clean_text (clean_text text) = clean_text text.
Proof.
  destruct (clean_text_normal text) as (Hs & Hstrip & _ & Hpipe & Hcamel).
  rewrite (clean_text_steps (clean_text text)).
  rewrite (sub_spaces_id false) by now apply single_spaced_weaken.
  rewrite (replace_char_id _ _ _ Hpipe), (split_camel_id _ Hcamel).
  exact Hstrip.
Qed.

(** ** [clean_json_response] *)

Lemma find_char_app (c : ascii) (pre rest : string) :
  lacks c pre = true ->
  find_char c (pre ++ String c rest)%string = Some (String.length pre).
Proof.
  intros H. induction pre as [|c' pre IH]; simpl.
  - now rewrite Ascii.eqb_refl.
  - simpl in H. apply andb_true_iff in H as [Hc Hpre].
    apply negb_true_iff in Hc. rewrite Hc, (IH Hpre). reflexivity.
Qed.

Lemma rfind_char_lacks (c : ascii) (s : string) :
  lacks c s = true -> rfind_char c s = None.
Proof.
  induction s as [|c' s IH]; simpl; [easy|].
  rewrite andb_true_iff, negb_true_iff. intros [-> H]. now rewrite (IH H).
Qed.

Lemma rfind_char_app (c : ascii) (pre post : string) :
  lacks c post = true ->
  rfind_char c (pre ++ String c post)%string = Some (String.length pre).
Proof.
  intros H. induction pre as [|c' pre IH]; simpl.
  - now rewrite (rfind_char_lacks _ _ H), Ascii.eqb_refl.
  - now rewrite IH.
Qed.

Lemma substring_skip (pre s : string) (n : nat) :
  String.substring (String.length pre) n (pre ++ s) = String.substring 0 n s.
Proof. induction pre as [|c pre IH]; simpl; [reflexivity | exact IH]. Qed.

Lemma substring_take (a b : string) :
  String.substring 0 (String.length a) (a ++ b) = a.
Proof.
  induction a as [|c a IH]; simpl; [now destruct b | now rewrite IH].
Qed.

Lemma length_append (a b : string) :
  String.length (a ++ b) = (String.length a + String.length b)%nat.
Proof. induction a as [|c a IH]; simpl; [reflexivity | now rewrite IH]. Qed.

Lemma sub_marker_plain (marker : string) (c0 : ascii) (s : string) :
  lacks c0 s = true ->
  (exists m, marker = String c0 m) ->
  sub_marker marker 0 false s = s.
Proof.
  intros H [m ->]. induction s as [|c s IH]; [reflexivity|].
  simpl in H. apply andb_true_iff in H as [Hc Hs].
  cbn [sub_marker andb]. cbn [String.prefix].
  destruct (ascii_dec c0 c) as [<-|_].
  - now rewrite Ascii.eqb_refl in Hc.
  - now rewrite (IH Hs).
Qed.

(** X3.  From a reply that, once the code fences are removed, holds an
    opening brace and later a closing one, [clean_json_response] returns
    exactly the text from the first opening brace to the last closing
    brace: whatever the model wrote before and after its JSON object is
    dropped. *)
Theorem clean_json_response_extracts (text pre mid post : string) :
  without_fences text = (pre ++ String "{" (mid ++ String "}" post))%string ->
  lacks "{" pre = true ->
  lacks "}" post = true ->
  clean_json_response text = String "{" (mid ++ "}")%string.
Proof.
  intros Htext Hpre Hpost. unfold clean_json_response.
  fold (without_fences text). rewrite Htext.
  rewrite (find_char_app _ _ _ Hpre).
  replace (pre ++ String "{" (mid ++ String "}" post))%string
    with ((pre ++ String "{" mid) ++ String "}" post)%string
    by now rewrite append_assoc, append_cons.
  rewrite (rfind_char_app _ _ _ Hpost).
  rewrite append_assoc, append_cons. unfold slice.
  rewrite length_append. cbn [String.length].
  replace (String.length pre + S (String.length mid) + 1 - String.length pre)%nat
    with (String.length (String "{" (mid ++ "}")))%nat
    by (cbn [String.length]; rewrite length_append; simpl; lia).
  rewrite substring_skip.
  replace (String "{" (mid ++ String "}" post))
    with (String "{" (mid ++ "}") ++ post)%string
    by (rewrite append_cons, append_assoc; reflexivity).
  apply substring_take.
Qed.

Lemma clean_json_response_extracts_witness :
  clean_json_response "Sure! ```json {'a': {'b': 1}} ``` Done."
  = "{'a': {'b': 1}}".
Proof.
  apply (clean_json_response_extracts _ "Sure! " "'a': {'b': 1}" " Done.");
    reflexivity.
Defined.

(** *** No fence is left *)

Lemma prefix_fence (s : string) :
  String.prefix "```" s = true <-> (3 <= leading "`" s)%nat.
Proof.
  destruct s as [|c1 [|c2 [|c3 r]]]; cbn [String.prefix leading];
    repeat match goal with
           | |- context [ascii_dec ?a ?b] => destruct (ascii_dec a b) as [<-|?]
           | |- context [Ascii.eqb ?a ?b] => destruct (Ascii.eqb_spec a b)
           end; subst; try congruence; split; intros;
    try lia; try discriminate; try reflexivity; try (now destruct r).
Qed.

Lemma prefix_fence_false (s : string) :
  String.prefix "```" s = false <-> (leading "`" s <= 2)%nat.
Proof.
  pose proof (prefix_fence s). destruct (String.prefix "```" s); split; intros.
  - discriminate.
  - assert (3 <= leading "`" s)%nat by now apply H. lia.
  - destruct (le_lt_dec 3 (leading "`" s)); [|lia].
    apply H in l. discriminate.
  - reflexivity.
Qed.

Lemma str_in_cons (needle : string) (c : ascii) (hay : string) :
  str_in needle (String c hay)
  = if String.prefix needle (String c hay) then true else str_in needle hay.
Proof. reflexivity. Qed.

Lemma sub_fence_invariant (s : string) : forall (skip : nat) (b : bool),
  str_in "```" (sub_marker "```" skip b s) = false
  /\ (leading "`" (sub_marker "```" skip b s) <= 2)%nat
  /\ (skip = 0%nat -> b = false -> (leading "`" s <= 2)%nat ->
      leading "`" (sub_marker "```" skip b s) = leading "`" s).
Proof.
  induction s as [|c r IH]; intros skip b.
  - cbn. repeat split; lia.
  - assert (Hemit :
      String.prefix "```" (String c r) = false ->
      str_in "```" (String c (sub_marker "```" 0 false r)) = false
      /\ (leading "`" (String c (sub_marker "```" 0 false r)) <= 2)%nat
      /\ leading "`" (String c (sub_marker "```" 0 false r))
         = leading "`" (String c r)).
    { intros Hp. apply prefix_fence_false in Hp.
      destruct (IH 0%nat false) as (Hin & Hle & Heq).
      cbn [leading] in *. destruct (Ascii.eqb c "`") eqn:Hc.
      - rewrite (Heq eq_refl eq_refl) by lia.
        rewrite str_in_cons.
        assert (Hn : String.prefix "```" (String c (sub_marker "```" 0 false r)) = false).
        { apply prefix_fence_false. cbn [leading]. rewrite Hc.
          rewrite (Heq eq_refl eq_refl); lia. }
        rewrite Hn. repeat split; try assumption; lia.
      - rewrite str_in_cons.
        assert (Hn : String.prefix "```" (String c (sub_marker "```" 0 false r)) = false).
        { apply prefix_fence_false. cbn [leading]. rewrite Hc. lia. }
        rewrite Hn. repeat split; try assumption; lia. }
    cbn [sub_marker]. destruct skip as [|k].
    + destruct (b && is_space c) eqn:Hws.
      * destruct (IH 0%nat true) as (Hin & Hle & _).
        repeat split; try assumption. intros _ ->. discriminate.
      * destruct (String.prefix "```" (String c r)) eqn:Hp.
        -- destruct (IH (String.length "```" - 1)%nat true) as (Hin & Hle & _).
           repeat split; try assumption. intros _ _ Hlead.
           apply prefix_fence in Hp. lia.
        -- destruct (Hemit eq_refl) as (Hin & Hle & Heq).
           split; [exact Hin|]. split; [exact Hle|]. intros _ _ _. exact Heq.
    + destruct (IH k true) as (Hin & Hle & _).
      repeat split; try assumption. discriminate.
Qed.

Lemma prefix_substring (m s : string) (n : nat) :
  String.prefix m (String.substring 0 n s) = true -> String.prefix m s = true.
Proof.
  revert s n. induction m as [|a m IH]; intros s n; [now destruct s|].
  destruct s as [|c s]; [now destruct n|].
  destruct n as [|n]; [discriminate|]. cbn [String.substring String.prefix].
  destruct (ascii_dec a c); [apply IH | discriminate].
Qed.

Lemma str_in_empty (m : string) :
  str_in m "" = true -> forall s, str_in m s = true.
Proof.
  destruct m; [|discriminate]. intros _ s. now destruct s.
Qed.

Lemma str_in_substring (m s : string) (i n : nat) :
  str_in m (String.substring i n s) = true -> str_in m s = true.
Proof.
  revert i n. induction s as [|c s IH]; intros i n.
  - now destruct i, n.
  - destruct i as [|i].
    + destruct n as [|n].
      * intros H. now apply str_in_empty.
      * cbn [String.substring]. rewrite !str_in_cons.
        destruct (String.prefix m (String c (String.substring 0 n s))) eqn:Hp.
        -- intros _.
           rewrite (prefix_substring m (String c s) (S n)); [reflexivity|exact Hp].
        -- intros H. apply IH in H. rewrite H.
           destruct (String.prefix m (String c s)); reflexivity.
    + cbn [String.substring]. intros H. apply IH in H.
      rewrite str_in_cons, H.
      destruct (String.prefix m (String c s)); reflexivity.
Qed.

(** X4.  The text that [clean_json_response] returns holds no code
    fence: three backticks in a row never survive, also not where the
    removal of a fence brings backticks together.  A reply without a
    backtick passes the fence removal unchanged. *)
Theorem clean_json_response_no_fence (text : string) :
  str_in "```" (clean_json_response text) = false
  /\ (lacks "`" text = true -> without_fences text = text).
Proof.
  split.
  - unfold clean_json_response. cbv zeta. fold (without_fences text).
    assert (H : str_in "```" (without_fences text) = false)
      by apply (sub_fence_invariant _ 0%nat false).
    destruct (find_char "{" (without_fences text)) as [i|]; [|exact H].
    destruct (rfind_char "}" (without_fences text)) as [j|]; [|exact H].
    destruct (str_in "```" (slice (without_fences text) i (j + 1))) eqn:E;
      [|reflexivity].
    unfold slice in E. apply str_in_substring in E. congruence.
  - intros H. unfold without_fences.
    rewrite (sub_marker_plain "```json" "`" text H) by eauto.
    apply (sub_marker_plain "```" "`" text H). eauto.
Qed.

Lemma clean_json_response_no_fence_witness :
  without_fences "{ 'a': 1 }" = "{ 'a': 1 }".
Proof. apply (clean_json_response_no_fence "{ 'a': 1 }"). reflexivity. Defined.

(** ** [extract_with_llm] *)

Section RetryOutcomes.
Variables (w : World) (prompt : string) (max_retries : Z).

(** an attempt that fails before the last one only moves on *)
Lemma retry_loop_failed_step (attempt remaining : nat)
    (json_text : option string) :
  is_ok (attempt_result w prompt attempt) = false ->
  Z.of_nat attempt <> max_retries - 1 ->
  exists json_text',
    retry_loop w prompt max_retries attempt (S remaining) json_text
    = retry_loop w prompt max_retries (S attempt) remaining json_text'.
Proof.
  intros Hfail Hlast. apply Z.eqb_neq in Hlast.
  unfold attempt_result in Hfail. cbn [retry_loop]. rewrite Hlast.
  destruct (ollama_chat w attempt prompt) as [e|content].
  - destruct (is_JSONDecodeError e); eauto.
  - destruct (json_loads w (clean_json_response content)) as [data|e];
      [discriminate|].
    destruct (is_JSONDecodeError e); eauto.
Qed.

Lemma retry_loop_first_success (k : nat) (data : value) :
  Z.of_nat k < max_retries ->
  (forall i, (i < k)%nat -> is_ok (attempt_result w prompt i) = false) ->
  attempt_result w prompt k = Ok data ->
  forall (remaining attempt : nat) (json_text : option string),
    (attempt <= k < attempt + remaining)%nat ->
    retry_loop w prompt max_retries attempt remaining json_text
    = (Ok data, S k).
Proof.
  intros Hk Hfail Hok. induction remaining as [|remaining IH];
    intros attempt json_text Hrange; [lia|].
  destruct (Nat.eq_dec attempt k) as [->|Hne].
  - unfold attempt_result in Hok. cbn [retry_loop].
    destruct (ollama_chat w k prompt) as [e|content]; [discriminate|].
    now rewrite Hok.
  - destruct (retry_loop_failed_step attempt remaining json_text) as [t ->].
    + apply Hfail. lia.
    + lia.
    + apply IH. lia.
Qed.

Lemma retry_loop_last_raises (e : exn) :
  0 < max_retries ->
  (forall i, Z.of_nat i < max_retries - 1 ->
     is_ok (attempt_result w prompt i) = false) ->
  attempt_result w prompt (Z.to_nat (max_retries - 1)) = Raise e ->
  is_JSONDecodeError e = false ->
  forall (remaining attempt : nat) (json_text : option string),
    (attempt + remaining)%nat = Z.to_nat max_retries ->
    (0 < remaining)%nat ->
    retry_loop w prompt max_retries attempt remaining json_text
    = (Raise e, Z.to_nat max_retries).
Proof.
  intros Hpos Hfail Hlast He. induction remaining as [|remaining IH];
    intros attempt json_text Hsum Hrem; [lia|].
  destruct remaining as [|remaining].
  - assert (Ha : attempt = Z.to_nat (max_retries - 1)) by lia.
    assert (Hl : (Z.of_nat attempt =? max_retries - 1) = true)
      by (apply Z.eqb_eq; lia).
    rewrite <- Ha in Hlast. unfold attempt_result in Hlast.
    cbn [retry_loop]. rewrite Hl.
    replace (Z.to_nat max_retries) with (S attempt) by lia.
    destruct (ollama_chat w attempt prompt) as [e'|content].
    + injection Hlast as ->. now rewrite He.
    + rewrite Hlast. now rewrite He.
  - destruct (retry_loop_failed_step attempt (S remaining) json_text)
      as [t ->].
    + apply Hfail. lia.
    + lia.
    + apply IH; lia.
Qed.

End RetryOutcomes.

(** X5.  The first reply that parses is what [extract_with_llm]
    returns, and no further call is made: when the attempts before
    attempt [k] (counted from 0, [k] below [max_retries]) fail, in
    whatever way, and the cleaned reply to attempt [k] parses to [data],
    the function returns [data] after exactly [k + 1] calls. *)
Theorem extract_with_llm_first_success (w : World) (text : string)
    (max_retries : Z) (k : nat) (data : value) :
  let prompt := create_extraction_prompt w text in
  Z.of_nat k < max_retries ->
  (forall i, (i < k)%nat -> is_ok (attempt_result w prompt i) = false) ->
  attempt_result w prompt k = Ok data ->
  extract_with_llm w text max_retries = (Ok data, S k).
Proof.
  intros prompt Hk Hfail Hok. unfold extract_with_llm. fold prompt.
  apply (retry_loop_first_success w prompt max_retries k data Hk Hfail Hok).
  lia.
Qed.

(** X6.  Errors other than garbled JSON are not repaired.  When every
    attempt fails and the last one fails with an exception that is not a
    JSON decoding error, [extract_with_llm] raises that exception, after
    [max_retries] calls; the exceptions of the earlier attempts are
    lost.  With [max_retries] zero or negative the loop body never runs:
    no call is made and the function returns [None]. *)
Theorem extract_with_llm_failures (w : World) (text : string)
    (max_retries : Z) :
  let prompt := create_extraction_prompt w text in
  (forall e,
     0 < max_retries ->
     (forall i, Z.of_nat i < max_retries - 1 ->
        is_ok (attempt_result w prompt i) = false) ->
     attempt_result w prompt (Z.to_nat (max_retries - 1)) = Raise e ->
     is_JSONDecodeError e = false ->
     extract_with_llm w text max_retries = (Raise e, Z.to_nat max_retries))
  /\ (max_retries <= 0 -> extract_with_llm w text max_retries = (Ok VNone, 0%nat)).
Proof.
  intros prompt. split.
  - intros e Hpos Hfail Hlast He. unfold extract_with_llm. fold prompt.
    apply (retry_loop_last_raises w prompt max_retries e Hpos Hfail Hlast He);
      lia.
  - intros Hle. unfold extract_with_llm.
    replace (Z.to_nat max_retries) with 0%nat by lia. reflexivity.
Qed.

Lemma extract_with_llm_first_success_witness :
  extract_with_llm second_try_world "Ada Lovelace" 3 = (Ok (VDict []), 2%nat).
Proof.
  apply (extract_with_llm_first_success second_try_world "Ada Lovelace" 3 1).
  - lia.
  - intros i Hi. assert (i = 0%nat) as -> by lia. reflexivity.
  - reflexivity.
Defined.

Lemma extract_with_llm_failures_witness :
  extract_with_llm offline_world "Ada Lovelace" 3
  = (Raise (Exn RuntimeError "connection refused"), 3%nat)
  /\ extract_with_llm offline_world "Ada Lovelace" 0 = (Ok VNone, 0%nat).
Proof.
  split.
  - apply (proj1 (extract_with_llm_failures offline_world "Ada Lovelace" 3));
      [lia | intros; reflexivity | reflexivity | reflexivity].
  - apply (proj2 (extract_with_llm_failures offline_world "Ada Lovelace" 0)).
    lia.
Defined.

(** ** [validate_and_enhance] on its own output *)

Lemma ensure_personal_info_id (data : dict) :
  dict_contains data "personal_info" = true ->
  ensure_personal_info data = data.
Proof. unfold ensure_personal_info. now intros ->. Qed.

Lemma dict_contains_set_ne (d : dict) (k k' : string) (v : value) :
  k <> k' -> dict_contains (dict_set d k v) k' = dict_contains d k'.
Proof. intros H. unfold dict_contains. now rewrite dict_lookup_set_ne. Qed.

Lemma dict_contains_set_eq (d : dict) (k : string) (v : value) :
  dict_contains (dict_set d k v) k = true.
Proof. unfold dict_contains. now rewrite dict_lookup_set_eq. Qed.

Lemma dict_set_set (d : dict) (k : string) (v v' : value) :
  dict_set (dict_set d k v) k v' = dict_set d k v'.
Proof.
  induction d as [|[k0 v0] d IH]; simpl.
  - now rewrite String.eqb_refl.
  - destruct (String.eqb k0 k) eqn:E; simpl; rewrite E; [reflexivity|].
    now rewrite IH.
Qed.

Lemma check_email_settled (data : dict) (info : value) :
  dict_lookup data "personal_info" = Some info ->
  email_settled info = true ->
  check_email data = Ok data.
Proof.
  intros Hl. unfold check_email, email_settled. simpl py_getitem. rewrite Hl.
  cbn [bind].
  destruct (py_contains "email" info) as [[|]|]; cbn [bind];
    try discriminate; [|reflexivity].
  destruct (py_getitem info "email") as [email|]; cbn [bind];
    [|discriminate].
  destruct (truthy email); [|reflexivity]. cbn [negb orb].
  destruct (py_contains "@" email) as [[|]|]; cbn [bind];
    try discriminate. reflexivity.
Qed.

Lemma check_email_settles (data data' : dict) :
  check_email data = Ok data' ->
  exists info, dict_lookup data' "personal_info" = Some info
               /\ email_settled info = true.
Proof.
  unfold check_email, email_settled. simpl py_getitem.
  destruct (dict_lookup data "personal_info") as [info|] eqn:Hl;
    cbn [bind]; [|discriminate].
  destruct (py_contains "email" info) as [[|]|] eqn:Hc; cbn [bind];
    try discriminate.
  2: { intros H. injection H as <-. exists info. now rewrite Hl, Hc. }
  destruct (py_getitem info "email") as [email|] eqn:Hg; cbn [bind];
    [|discriminate].
  destruct (truthy email) eqn:Ht.
  2: { intros H. injection H as <-. exists info. now rewrite Hl, Hc, Hg, Ht. }
  destruct (py_contains "@" email) as [[|]|] eqn:Ha; cbn [bind negb];
    try discriminate.
  { intros H. injection H as <-. exists info.
    rewrite Hl, Hc, Hg, Ht, Ha. now split. }
  destruct info as [| | | | | |i]; cbn [py_setitem bind]; try discriminate.
  intros H. injection H as <-. eexists. rewrite dict_lookup_set_eq.
  split; [reflexivity|].
  unfold py_contains, py_getitem, dict_contains.
  now rewrite dict_lookup_set_eq.
Qed.

Section SortAgain.
Context {A : Type}.
Implicit Types (l : list (bool * A)).

Lemma filter_filter_same (p : bool * A -> bool) l :
  List.filter p (List.filter p l) = List.filter p l.
Proof.
  induction l as [|x l IH]; simpl; [easy|].
  destruct (p x) eqn:E; simpl; [rewrite E|]; now rewrite ?IH.
Qed.

Lemma filter_filter_none (p q : bool * A -> bool) l :
  (forall x, p x = true -> q x = false) ->
  List.filter q (List.filter p l) = [].
Proof.
  intros H. induction l as [|x l IH]; simpl; [easy|].
  destruct (p x) eqn:E; simpl; [rewrite (H _ E)|]; exact IH.
Qed.

Lemma sort_desc_idem l : sort_desc (sort_desc l) = sort_desc l.
Proof.
  rewrite (sort_desc_partition (sort_desc l)), (sort_desc_partition l).
  rewrite !List.filter_app, !filter_filter_same.
  rewrite (filter_filter_none (fun y => negb (fst y)) fst)
    by (intros x Hx; now destruct (fst x)).
  rewrite (filter_filter_none fst (fun y => negb (fst y)))
    by (intros x ->; reflexivity).
  now rewrite app_nil_r.
Qed.

Lemma sort_desc_Forall (P : bool * A -> Prop) l :
  Forall P l -> Forall P (sort_desc l).
Proof.
  intros H. rewrite sort_desc_partition. apply Forall_app.
  split; apply List.Forall_forall; intros x Hx; apply filter_In in Hx as [Hx _];
    rewrite List.Forall_forall in H; now apply H.
Qed.

Lemma sort_desc_perm l : Permutation l (sort_desc l).
Proof.
  rewrite sort_desc_partition. induction l as [|x l IH]; simpl; [constructor|].
  destruct (fst x); simpl.
  - now constructor.
  - now apply Permutation_cons_app.
Qed.

Variable key : A -> result bool.

Lemma keyed_Forall (items : list A) l :
  mapM (fun x => k <- key x ;; Ok (k, x)) items = Ok l ->
  Forall (fun y => (k <- key (snd y) ;; Ok (k, snd y)) = Ok y) l
  /\ map snd l = items.
Proof.
  revert l. induction items as [|x items IH]; intros l; simpl.
  - intros H. injection H as <-. now split.
  - destruct (key x) as [k|] eqn:Ek; cbn [bind]; [|discriminate].
    destruct (mapM _ items) as [l'|]; cbn [bind]; [|discriminate].
    intros H. injection H as <-. destruct (IH l' eq_refl) as [HF Hm].
    split; [|simpl; now rewrite Hm].
    constructor; [|exact HF]. simpl. now rewrite Ek.
Qed.

Lemma mapM_keyed_again l :
  Forall (fun y => (k <- key (snd y) ;; Ok (k, snd y)) = Ok y) l ->
  mapM (fun x => k <- key x ;; Ok (k, x)) (map snd l) = Ok l.
Proof.
  induction 1 as [|y l Hy _ IH]; simpl; [easy|].
  rewrite Hy. cbn [bind]. now rewrite IH.
Qed.

Lemma sorted_reverse_idem (items sorted : list A) :
  sorted_reverse key items = Ok sorted ->
  sorted_reverse key sorted = Ok sorted.
Proof.
  unfold sorted_reverse.
  destruct (mapM _ items) as [l|] eqn:E; cbn [bind]; [|discriminate].
  intros H. injection H as <-. apply keyed_Forall in E as [HF _].
  rewrite (mapM_keyed_again _ (sort_desc_Forall _ _ HF)). cbn [bind].
  now rewrite sort_desc_idem.
Qed.

Lemma sorted_reverse_perm (items sorted : list A) :
  sorted_reverse key items = Ok sorted -> Permutation items sorted.
Proof.
  unfold sorted_reverse.
  destruct (mapM _ items) as [l|] eqn:E; cbn [bind]; [|discriminate].
  intros H. injection H as <-. apply keyed_Forall in E as [_ <-].
  apply Permutation_map, sort_desc_perm.
Qed.

End SortAgain.

Lemma sort_experience_shape (data data' : dict) :
  sort_experience data = Ok data' ->
  data' = data
  \/ exists items sorted,
       py_iter (dict_get data "experience" VNone) = Ok items
       /\ truthy (dict_get data "experience" VNone) = true
       /\ sorted_reverse present_key items = Ok sorted
       /\ data' = dict_set data "experience" (VList sorted).
Proof.
  unfold sort_experience.
  destruct (dict_contains data "experience") eqn:Hc; cbn [andb].
  2: { intros H. left. congruence. }
  destruct (truthy _) eqn:Ht.
  2: { intros H. left. congruence. }
  destruct (py_iter _) as [items|] eqn:Hi; cbn [bind]; [|discriminate].
  destruct (sorted_reverse _ _) as [sorted|] eqn:Hs; cbn [bind];
    [|discriminate].
  intros H. injection H as <-. right. now exists items, sorted.
Qed.

Lemma truthy_iter_nonempty (v : value) (items : list value) :
  truthy v = true -> py_iter v = Ok items -> items <> [].
Proof.
  destruct v as [| | | |s|l|d]; simpl; try discriminate.
  - destruct s; [discriminate|]. intros _ H. injection H as <-. discriminate.
  - destruct l; [discriminate|]. intros _ H. injection H as <-. discriminate.
  - destruct d; [discriminate|]. intros _ H. injection H as <-. discriminate.
Qed.

Lemma sort_experience_again (data data' : dict) :
  sort_experience data = Ok data' -> sort_experience data' = Ok data'.
Proof.
  intros H. destruct (sort_experience_shape _ _ H)
    as [->|(items & sorted & Hi & Ht & Hs & ->)]; [exact H|].
  unfold sort_experience, dict_get.
  rewrite dict_contains_set_eq, dict_lookup_set_eq.
  assert (Hne : sorted <> []).
  { intros ->. apply sorted_reverse_perm in Hs.
    apply Permutation_nil_r in Hs. subst items.
    now apply (truthy_iter_nonempty _ _ Ht Hi). }
  destruct sorted as [|x sorted]; [congruence|]. cbn [truthy andb py_iter bind].
  rewrite (sorted_reverse_idem _ _ _ Hs). cbn [bind].
  now rewrite dict_set_set.
Qed.

(** X7.  Running [validate_and_enhance] on the dictionary a first run
    left behind changes nothing more: the second run leaves the same
    dictionary and returns, or raises, the same as the first. *)
Theorem validate_and_enhance_idempotent (data : dict) :
  validate_and_enhance (fst (validate_and_enhance data))
  = validate_and_enhance data.
Proof.
  unfold validate_and_enhance at 2 3.
  pose proof (ensure_personal_info_present data) as H1.
  set (data1 := ensure_personal_info data) in *.
  destruct (check_email data1) as [data2|e] eqn:E2.
  - destruct (check_email_settles _ _ E2) as (info & Hinfo & Hset).
    destruct (sort_experience data2) as [data3|e] eqn:E3; cbn [fst].
    + assert (Hinfo3 : dict_lookup data3 "personal_info" = Some info).
      { rewrite <- Hinfo. apply (sort_experience_other _ _ _ E3). discriminate. }
      unfold validate_and_enhance.
      rewrite (ensure_personal_info_id data3 (contains_lookup _ _ _ Hinfo3)).
      rewrite (check_email_settled _ _ Hinfo3 Hset).
      now rewrite (sort_experience_again _ _ E3).
    + unfold validate_and_enhance.
      rewrite (ensure_personal_info_id data2 (contains_lookup _ _ _ Hinfo)).
      now rewrite (check_email_settled _ _ Hinfo Hset), E3.
  - cbn [fst]. unfold validate_and_enhance.
    rewrite (ensure_personal_info_id data1 H1). now rewrite E2.
Qed.

(** X8.  What [validate_and_enhance] does to its argument is confined,
    whether it returns or raises: it removes no key; it leaves every key
    other than [personal_info] and [experience] as it was; of a
    [personal_info] dictionary it can change the [email] only; and an
    experience list keeps its entries, in some order. *)
Theorem validate_and_enhance_frame (data : dict) :
  let data' := fst (validate_and_enhance data) in
  (forall k, dict_contains data k = true -> dict_contains data' k = true)
  /\ (forall k, k <> "personal_info" -> k <> "experience" ->
      dict_lookup data' k = dict_lookup data k)
  /\ (forall info, dict_lookup data "personal_info" = Some (VDict info) ->
      exists info', dict_lookup data' "personal_info" = Some (VDict info')
                    /\ forall f, f <> "email" ->
                         dict_lookup info' f = dict_lookup info f)
  /\ (forall items, dict_lookup data "experience" = Some (VList items) ->
      exists items', dict_lookup data' "experience" = Some (VList items')
                     /\ Permutation items items').
Proof.
  intros data'.
  (* the three statements, one after the other *)
  assert (Hsteps : exists data1 data2,
    (forall k, dict_contains data k = true -> dict_contains data1 k = true)
    /\ (forall k, k <> "personal_info" ->
          dict_lookup data1 k = dict_lookup data k)
    /\ (forall info, dict_lookup data "personal_info" = Some info ->
          dict_lookup data1 "personal_info" = Some info)
    /\ (data2 = data1
         \/ exists info, dict_lookup data1 "personal_info" = Some (VDict info)
                         /\ data2 = dict_set data1 "personal_info"
                                      (VDict (dict_set info "email" VNone)))
    /\ (data' = data2
         \/ exists items sorted,
              py_iter (dict_get data2 "experience" VNone) = Ok items
              /\ Permutation items sorted
              /\ data' = dict_set data2 "experience" (VList sorted))).
  { exists (ensure_personal_info data).
    assert (Hens : forall info, dict_lookup data "personal_info" = Some info ->
              dict_lookup (ensure_personal_info data) "personal_info" = Some info).
    { intros info Hl. unfold ensure_personal_info.
      now rewrite (contains_lookup _ _ _ Hl). }
    assert (Hkeep : forall k, dict_contains data k = true ->
              dict_contains (ensure_personal_info data) k = true).
    { intros k Hk. unfold ensure_personal_info.
      destruct (dict_contains data "personal_info") eqn:E; [exact Hk|].
      cbn [negb]. rewrite dict_contains_set_ne; [exact Hk|].
      intros <-. congruence. }
    subst data'. unfold validate_and_enhance.
    destruct (check_email (ensure_personal_info data)) as [data2|e] eqn:E2.
    - exists data2. split; [exact Hkeep|].
      split; [apply ensure_personal_info_other|]. split; [exact Hens|].
      split; [apply (check_email_shape _ _ E2)|].
      destruct (sort_experience data2) as [data3|e] eqn:E3; cbn [fst];
        [|now left].
      destruct (sort_experience_shape _ _ E3)
        as [->|(items & sorted & Hi & _ & Hs & ->)]; [now left|].
      right. exists items, sorted. split; [exact Hi|]. split; [|reflexivity].
      apply (sorted_reverse_perm _ _ _ Hs).
    - exists (ensure_personal_info data). cbn [fst]. split; [exact Hkeep|].
      split; [apply ensure_personal_info_other|]. split; [exact Hens|].
      split; now left. }
  destruct Hsteps as (data1 & data2 & Hkeep & Hother & Hinfo & H2 & H3).
  assert (Hk2 : forall k, dict_contains data1 k = true ->
            dict_contains data2 k = true).
  { intros k Hk. destruct H2 as [->|(info & Hl & ->)]; [exact Hk|].
    destruct (String.eqb_spec "personal_info" k) as [<-|Hne].
    - apply dict_contains_set_eq.
    - now rewrite dict_contains_set_ne. }
  assert (Hk3 : forall k, dict_contains data2 k = true ->
            dict_contains data' k = true).
  { intros k Hk. destruct H3 as [->|(items & sorted & _ & _ & ->)]; [exact Hk|].
    destruct (String.eqb_spec "experience" k) as [<-|Hne].
    - apply dict_contains_set_eq.
    - now rewrite dict_contains_set_ne. }
  assert (Ho2 : forall k, k <> "personal_info" ->
            dict_lookup data2 k = dict_lookup data1 k).
  { intros k Hk. destruct H2 as [->|(info & Hl & ->)]; [reflexivity|].
    apply dict_lookup_set_ne. congruence. }
  assert (Ho3 : forall k, k <> "experience" ->
            dict_lookup data' k = dict_lookup data2 k).
  { intros k Hk. destruct H3 as [->|(items & sorted & _ & _ & ->)];
      [reflexivity|].
    apply dict_lookup_set_ne. congruence. }
  split; [|split; [|split]].
  - intros k Hk. auto.
  - intros k Hp He. now rewrite (Ho3 k He), (Ho2 k Hp), (Hother k Hp).
  - intros info Hl. rewrite (Ho3 "personal_info") by discriminate.
    apply Hinfo in Hl. destruct H2 as [->|(info1 & Hl1 & ->)].
    + exists info. now split.
    + rewrite Hl in Hl1. injection Hl1 as <-.
      exists (dict_set info "email" VNone). rewrite dict_lookup_set_eq.
      split; [reflexivity|]. intros f Hf. apply dict_lookup_set_ne. congruence.
  - intros items Hl.
    assert (Hl2 : dict_lookup data2 "experience" = Some (VList items)).
    { rewrite (Ho2 "experience") by discriminate.
      now rewrite (Hother "experience") by discriminate. }
    destruct H3 as [->|(items' & sorted & Hi & Hp & ->)].
    + exists items. now split.
    + unfold dict_get in Hi. rewrite Hl2 in Hi. injection Hi as <-.
      exists sorted. rewrite dict_lookup_set_eq. now split.
Qed.

Lemma validate_and_enhance_frame_witness :
  dict_lookup (fst (validate_and_enhance dated_jobs)) "summary"
  = Some (VStr "Analyst").
Proof.
  rewrite (proj1 (proj2 (validate_and_enhance_frame dated_jobs)) "summary")
    by discriminate.
  reflexivity.
Defined.

(** ** The validated record and its dictionary *)

Lemma mapM_In {A B} (f : A -> result B) (l : list A) (l' : list B) (y : B) :
  mapM f l = Ok l' -> In y l' -> exists x, In x l /\ f x = Ok y.
Proof.
  revert l'. induction l as [|x l IH]; intros l'; simpl.
  - intros H. injection H as <-. intros [].
  - destruct (f x) as [y0|] eqn:Ex; cbn [bind]; [|discriminate].
    destruct (mapM f l) as [ys|]; cbn [bind]; [|discriminate].
    intros H. injection H as <-. intros [<-|Hy].
    + exists x. split; [now left | exact Ex].
    + destruct (IH ys eq_refl Hy) as (x' & Hx' & Hf). exists x'.
      split; [now right | exact Hf].
Qed.

Lemma mapM_map_id {A B} (f : A -> result B) (g : B -> A) (l : list B) :
  (forall y, In y l -> f (g y) = Ok y) -> mapM f (map g l) = Ok l.
Proof.
  induction l as [|y l IH]; intros H; simpl; [easy|].
  rewrite (H y) by now left. cbn [bind].
  rewrite IH by (intros z Hz; apply H; now right). reflexivity.
Qed.

Lemma parse_dates_normal (v : value) (o : option string) :
  (v' <- parse_dates v ;; as_opt_str v') = Ok o -> date_normal o = true.
Proof.
  unfold parse_dates. destruct (truthy v) eqn:Ht.
  - destruct v as [| | | |s| |]; cbn [py_lower bind]; try discriminate.
    destruct (is_present_word (lower s)) eqn:Hp; cbn [bind as_opt_str].
    + intros H. injection H as <-. reflexivity.
    + intros H. injection H as <-. simpl. now rewrite Hp.
  - cbn [bind]. destruct v as [| | | |s| |]; cbn [as_opt_str]; try discriminate.
    + intros H. injection H as <-. reflexivity.
    + destruct s; [|discriminate Ht]. intros H. injection H as <-. reflexivity.
Qed.

Lemma field_date_normal (d : dict) (k : string) (o : option string) :
  field_date d k = Ok o -> date_normal o = true.
Proof.
  unfold field_date. destruct (dict_lookup d k) as [v|].
  - apply parse_dates_normal.
  - intros H. injection H as <-. reflexivity.
Qed.

Lemma validate_Experience_dates (v : value) (e : Experience.t) :
  validate_Experience v = Ok e ->
  date_normal (Experience.start_date e) = true
  /\ date_normal (Experience.end_date e) = true.
Proof.
  destruct v as [| | | | | |d]; try discriminate. unfold validate_Experience.
  destruct (field_str d "company"); cbn [bind]; [|discriminate].
  destruct (field_str d "position"); cbn [bind]; [|discriminate].
  destruct (field_date d "start_date") as [sd|] eqn:Hs; cbn [bind];
    [|discriminate].
  destruct (field_date d "end_date") as [ed|] eqn:He; cbn [bind];
    [|discriminate].
  destruct (field_opt_str d "location"); cbn [bind]; [|discriminate].
  destruct (field_list as_str d "responsibilities"); cbn [bind];
    [|discriminate].
  intros H. injection H as <-. simpl.
  split; eapply field_date_normal; eassumption.
Qed.

Lemma validated_experience (data : dict) (r : ResumeData.t) (e : Experience.t) :
  validate_ResumeData data = Ok r ->
  In e (ResumeData.experience r) ->
  exists v, validate_Experience v = Ok e.
Proof.
  intros H Hin. apply validate_ResumeData_fields in H as [_ H].
  unfold field_list in H.
  destruct (dict_lookup data "experience") as [[| | | | |l|]|];
    try discriminate.
  - destruct (mapM_In _ _ _ _ H Hin) as (v & _ & Hv). eauto.
  - injection H as H. rewrite <- H in Hin. destruct Hin.
Qed.

(** X9.  In a record that passed validation, an experience start or
    end date that reads present, current or now, in whatever letter
    case, is spelled exactly 'Present'. *)
Theorem experience_dates_normalised (data : dict) (r : ResumeData.t)
    (e : Experience.t) (d : string) :
  validate_ResumeData data = Ok r ->
  In e (ResumeData.experience r) ->
  Experience.start_date e = Some d \/ Experience.end_date e = Some d ->
  is_present_word (lower d) = true ->
  d = "Present".
Proof.
  intros Hr He Hd Hp. destruct (validated_experience _ _ _ Hr He) as [v Hv].
  apply validate_Experience_dates in Hv as [Hs Hn].
  assert (H : date_normal (Some d) = true)
    by (destruct Hd as [Hd|Hd]; rewrite <- Hd; assumption).
  simpl in H. rewrite Hp in H. now apply String.eqb_eq in H.
Qed.

Lemma experience_dates_normalised_witness :
  In (Experience.mk "Acme" "Engineer" (Some "2021") (Some "Present") None [])
    (match validate_ResumeData dated_jobs with
     | Ok r => ResumeData.experience r
     | Raise _ => []
     end)
  /\ "Present" = "Present".
Proof.
  split; [right; left; reflexivity|].
  eapply (experience_dates_normalised dated_jobs _
            (Experience.mk "Acme" "Engineer" (Some "2021") (Some "Present")
               None []) "Present").
  - reflexivity.
  - right. left. reflexivity.
  - right. reflexivity.
  - reflexivity.
Defined.

Lemma parse_dates_fixed (o : option string) :
  date_normal o = true ->
  (v' <- parse_dates (opt_str o) ;; as_opt_str v') = Ok o.
Proof.
  destruct o as [d|]; [|reflexivity]. simpl. unfold parse_dates.
  destruct (truthy (VStr d)); [|reflexivity]. cbn [py_lower bind].
  destruct (is_present_word (lower d)); [|reflexivity]. simpl.
  intros H. apply String.eqb_eq in H. now subst d.
Qed.

Lemma as_str_strings (l : list string) : mapM as_str (map VStr l) = Ok l.
Proof. now apply mapM_map_id. Qed.

Lemma validate_PersonalInfo_dict_id (p : PersonalInfo.t) :
  validate_PersonalInfo (VDict (PersonalInfo_dict p)) = Ok p.
Proof. destruct p as [n [?|] [?|] [?|] [?|] [?|] [?|]]; reflexivity. Qed.

Lemma validate_Education_dict_id (e : Education.t) :
  validate_Education (VDict (Education_dict e)) = Ok e.
Proof. destruct e as [i d [?|] [?|] [?|] [?|] [?|]]; reflexivity. Qed.

Lemma validate_Skills_dict_id (k : Skills.t) :
  validate_Skills (VDict (Skills_dict k)) = Ok k.
Proof.
  destruct k as [t s l o]. unfold validate_Skills, Skills_dict, field_list.
  cbn [dict_lookup String.eqb Ascii.eqb Bool.eqb Skills.technical Skills.soft
       Skills.languages Skills.tools str_list].
  now rewrite !as_str_strings.
Qed.

Lemma validate_project_dict_id (p : list (string * string)) :
  validate_project (VDict (project_dict p)) = Ok p.
Proof.
  unfold validate_project, project_dict. apply mapM_map_id.
  now intros [k s] _.
Qed.

Lemma validate_Experience_dict_id (e : Experience.t) :
  date_normal (Experience.start_date e) = true ->
  date_normal (Experience.end_date e) = true ->
  validate_Experience (VDict (Experience_dict e)) = Ok e.
Proof.
  destruct e as [c p sd ed loc resp]. cbn [Experience.start_date Experience.end_date].
  intros Hs He. unfold validate_Experience, Experience_dict, field_str,
    field_date, field_opt_str, field_list.
  cbn [dict_lookup String.eqb Ascii.eqb Bool.eqb Experience.company
       Experience.position Experience.start_date Experience.end_date
       Experience.location Experience.responsibilities str_list as_str bind].
  rewrite (parse_dates_fixed _ Hs). cbn [bind].
  rewrite (parse_dates_fixed _ He). cbn [bind].
  rewrite as_str_strings. now destruct loc.
Qed.

(** X10.  A validated record survives its serialisation: validating the
    dictionary [.dict()] makes of a record that came out of the
    validation gives that record back. *)
Theorem validate_to_dict_round_trip (data : dict) (r : ResumeData.t) :
  validate_ResumeData data = Ok r ->
  validate_ResumeData (to_dict r) = Ok r.
Proof.
  intros Hr.
  assert (Hexp : mapM validate_Experience
                   (map (fun e => VDict (Experience_dict e))
                      (ResumeData.experience r))
                 = Ok (ResumeData.experience r)).
  { apply mapM_map_id. intros e He.
    destruct (validated_experience _ _ _ Hr He) as [v Hv].
    apply validate_Experience_dates in Hv as [Hs Hn].
    now apply validate_Experience_dict_id. }
  clear Hr. destruct r as [p s ex ed sk ce pr ac].
  cbn [ResumeData.experience] in Hexp.
  unfold validate_ResumeData, to_dict, field_list, field_opt_str.
  cbn [dict_lookup String.eqb Ascii.eqb Bool.eqb ResumeData.personal_info
       ResumeData.summary ResumeData.experience ResumeData.education
       ResumeData.skills ResumeData.certifications ResumeData.projects
       ResumeData.achievements str_list].
  rewrite validate_PersonalInfo_dict_id. cbn [bind].
  replace (as_opt_str (opt_str s)) with (Ok s) by now destruct s.
  cbn [bind]. rewrite Hexp. cbn [bind].
  rewrite (mapM_map_id validate_Education)
    by (intros; apply validate_Education_dict_id).
  cbn [bind]. rewrite validate_Skills_dict_id. cbn [bind].
  rewrite !as_str_strings.
  rewrite (mapM_map_id validate_project)
    by (intros; apply validate_project_dict_id).
  reflexivity.
Qed.

Lemma validate_to_dict_round_trip_witness :
  exists r, validate_ResumeData dated_jobs = Ok r
            /\ validate_ResumeData (to_dict r) = Ok r.
Proof.
  eexists. split; [reflexivity|].
  apply (validate_to_dict_round_trip dated_jobs). reflexivity.
Defined.

(** ** Without the OCR engine *)

Lemma pages_loop_no_ocr (w : World) (pages : list Page) :
  ocr w = None ->
  forall (page_num : nat) (text : string) (calls : list ocr_call),
    (existsb needs_ocr pages = false ->
     pages_loop w page_num pages text calls
     = (Ok (text ++ text_layers pages)%string, calls))
    /\ (existsb needs_ocr pages = true ->
        exists msg,
          pages_loop w page_num pages text calls
          = (Raise (Exn AttributeError msg), calls)).
Proof.
  intros Hocr. induction pages as [|page pages IH]; intros page_num text calls.
  - split; [|discriminate]. intros _. cbn. now rewrite append_nil_r.
  - cbn [pages_loop existsb]. rewrite Hocr.
    destruct (needs_ocr page); cbn [orb].
    + split; [discriminate|]. intros _. eauto.
    + destruct (IH (S page_num)
                  (text ++ get_text page ++ String newline "")%string calls)
        as [Hok Hraise].
      split; [|exact Hraise]. intros Hno. rewrite (Hok Hno).
      unfold text_layers, line_break. cbn [map join_all fold_right].
      now rewrite !append_assoc.
Qed.

(** X11.  Without the OCR engine (its start-up failed and [ocr] is
    [None]) a document is read only when none of its pages needs OCR:
    the result is then the cleaned concatenation of the text layers.
    One page whose stripped text layer has fewer than 50 characters
    makes the whole extraction raise an [AttributeError]; the text of
    the other pages is lost. *)
Theorem extract_text_from_pdf_without_ocr (w : World) (pdf : string)
    (pages : list Page) :
  fitz_open w pdf = Ok pages ->
  ocr w = None ->
  (existsb needs_ocr pages = false ->
   extract_text_from_pdf w pdf = (Ok (clean_text (text_layers pages)), []))
  /\ (existsb needs_ocr pages = true ->
      exists msg,
        extract_text_from_pdf w pdf = (Raise (Exn AttributeError msg), [])).
Proof.
  intros Hopen Hocr. unfold extract_text_from_pdf. rewrite Hopen.
  destruct (pages_loop_no_ocr w pages Hocr 0 "" []) as [Hok Hraise]. split.
  - intros H. now rewrite (Hok H).
  - intros H. destruct (Hraise H) as [msg ->]. now exists msg.
Qed.

Lemma extract_text_from_pdf_without_ocr_witness :
  (exists text, extract_text_from_pdf no_ocr_world "cv" = (Ok text, []))
  /\ (exists msg,
        extract_text_from_pdf no_ocr_world "scan"
        = (Raise (Exn AttributeError msg), [])).
Proof.
  split.
  - eexists.
    apply (proj1 (extract_text_from_pdf_without_ocr no_ocr_world "cv"
                    [long_page] eq_refl eq_refl)).
    reflexivity.
  - apply (proj2 (extract_text_from_pdf_without_ocr no_ocr_world "scan"
                    [long_page; Examples.scanned_page] eq_refl eq_refl)).
    reflexivity.
Defined.

(** ** The endpoint when the model fails *)

(** X12.  A model that never answers with JSON does not make the
    request fail.  When the document gives enough text, every reply to
    the three attempts is garbled and the repair of the last one does
    not parse either, [POST /extract] answers with a resume all the
    same: the placeholder, named 'Error parsing resume', with empty
    lists. *)
Theorem extract_endpoint_placeholder (w : World) (filename file text : string) :
  endswith filename ".pdf" = true ->
  fst (extract_text_from_pdf w file) = Ok text ->
  100 <= Z.of_nat (String.length (strip text)) ->
  all_garbled w (create_extraction_prompt w text) 0 3 ->
  (forall content,
     ollama_chat w 2 (create_extraction_prompt w text) = ChatContent content ->
     is_ok (json_loads w (repair_json (clean_json_response content))) = false) ->
  extract_endpoint w filename file = JSONResponse (to_dict placeholder_record)
  /\ PersonalInfo.name (ResumeData.personal_info placeholder_record)
     = "Error parsing resume".
Proof.
  intros Hpdf Htext Hlen Hall Hrepair. split; [|reflexivity].
  unfold extract_endpoint. rewrite Hpdf. cbn [negb].
  unfold extract_resume. rewrite Htext. cbn [bind].
  replace (Z.of_nat (String.length (strip text)) <? 100) with false
    by (symmetry; apply Z.ltb_ge; lia).
  unfold extract_with_llm, default_max_retries.
  change (Z.to_nat 3) with 3%nat.
  destruct (retry_loop_all_garbled w (create_extraction_prompt w text) 3
              2 0 None eq_refl Hall) as (content & Hlast & ->).
  cbn [fst].
  rewrite (fix_json_errors_placeholder _ _ (Hrepair content Hlast)).
  cbn [bind]. reflexivity.
Qed.

Lemma extract_endpoint_placeholder_witness :
  json_loads unhelpful_world "{}" = Ok (VDict [])
  /\ extract_endpoint unhelpful_world "cv.pdf" "cv"
     = JSONResponse (to_dict placeholder_record).
Proof.
  split; [reflexivity|].
  refine (proj1 (extract_endpoint_placeholder unhelpful_world "cv.pdf" "cv" _
                   eq_refl eq_refl _ _ _)).
  - vm_compute. discriminate.
  - intros i _. eexists _, _. repeat split; reflexivity.
  - intros content H. injection H as <-. reflexivity.
Defined.

(** ** A reply that is no JSON object *)

Lemma ensure_personal_info_of_dict (d : dict) :
  ensure_personal_info_of (VDict d) = Ok (VDict (ensure_personal_info d)).
Proof.
  unfold ensure_personal_info_of, ensure_personal_info. cbn [py_contains bind].
  now destruct (dict_contains d "personal_info").
Qed.

Lemma check_email_of_dict (d : dict) :
  check_email_of (VDict d) = (d' <- check_email d ;; Ok (VDict d')).
Proof.
  unfold check_email_of, check_email.
  destruct (py_getitem (VDict d) "personal_info") as [info|]; cbn [bind];
    [|reflexivity].
  destruct (py_contains "email" info) as [[|]|]; cbn [bind]; try reflexivity.
  destruct (py_getitem info "email") as [email|]; cbn [bind]; [|reflexivity].
  destruct (truthy email); [|reflexivity].
  destruct (py_contains "@" email) as [[|]|]; cbn [bind negb]; try reflexivity.
  now destruct (py_setitem info "email" VNone).
Qed.

Lemma sort_experience_of_dict (d : dict) :
  sort_experience_of (VDict d) = (d' <- sort_experience d ;; Ok (VDict d')).
Proof.
  unfold sort_experience_of, sort_experience, dict_contains, dict_get.
  cbn [py_contains py_getitem bind]. unfold dict_contains.
  destruct (dict_lookup d "experience") as [experience|]; cbn [bind andb];
    [|reflexivity].
  destruct (truthy experience); [|reflexivity].
  destruct (py_iter experience) as [items|]; cbn [bind]; [|reflexivity].
  now destruct (sorted_reverse present_key items).
Qed.

Lemma validate_and_enhance_value_dict (d : dict) :
  validate_and_enhance_value (VDict d)
  = (VDict (fst (validate_and_enhance d)), snd (validate_and_enhance d)).
Proof.
  unfold validate_and_enhance_value, validate_and_enhance.
  rewrite ensure_personal_info_of_dict, check_email_of_dict.
  destruct (check_email (ensure_personal_info d)) as [d2|]; cbn [bind fst snd];
    [|reflexivity].
  rewrite sort_experience_of_dict.
  now destruct (sort_experience d2).
Qed.

Lemma validate_and_enhance_value_refuses (data : value) :
  is_dict data = false ->
  exists msg,
    validate_and_enhance_value data = (data, Raise (Exn TypeError msg)).
Proof.
  unfold validate_and_enhance_value, ensure_personal_info_of.
  destruct data as [| | | |s|l|d]; cbn [is_dict py_contains bind];
    try discriminate; intros _; try (eexists; reflexivity).
  - destruct (str_in "personal_info" s); cbn [negb]; eexists; reflexivity.
  - destruct (existsb _ l); cbn [negb]; eexists; reflexivity.
Qed.

(** X13.  A reply of the model that parses to JSON which is no object
    (a list, a string, a number, a truth value or [null]) is refused:
    [validate_and_enhance] raises a [TypeError] at its first or second
    statement and leaves the value as it was, and [POST /extract]
    answers 500 with the message of that error (here for the reply to
    the first attempt, the document giving enough text).  On an object
    the function does what it does on the dictionary. *)
Theorem non_object_reply_refused (w : World)
    (filename file text : string) (data : value) :
  endswith filename ".pdf" = true ->
  fst (extract_text_from_pdf w file) = Ok text ->
  100 <= Z.of_nat (String.length (strip text)) ->
  attempt_result w (create_extraction_prompt w text) 0 = Ok data ->
  is_dict data = false ->
  (exists msg,
     validate_and_enhance_value data = (data, Raise (Exn TypeError msg))
     /\ extract_endpoint w filename file = HTTPException 500 msg)
  /\ (forall d,
        validate_and_enhance_value (VDict d)
        = (VDict (fst (validate_and_enhance d)),
           snd (validate_and_enhance d))).
Proof.
  intros Hpdf Htext Hlen Hreply Hnd.
  split; [|apply validate_and_enhance_value_dict].
  destruct (validate_and_enhance_value_refuses data Hnd) as [msg Hmsg].
  exists msg. split; [exact Hmsg|].
  assert (Hllm : extract_with_llm w text default_max_retries = (Ok data, 1%nat)).
  { unfold extract_with_llm.
    apply (retry_loop_first_success w _ default_max_retries 0 data);
      [reflexivity | intros i Hi; lia | exact Hreply
      | unfold default_max_retries; simpl; lia]. }
  unfold extract_endpoint. rewrite Hpdf. cbn [negb].
  unfold extract_resume. rewrite Htext. cbn [bind].
  replace (Z.of_nat (String.length (strip text)) <? 100) with false
    by (symmetry; apply Z.ltb_ge; lia).
  rewrite Hllm. cbn [fst bind]. now rewrite Hmsg.
Qed.

Lemma non_object_reply_refused_witness :
  exists msg,
    extract_endpoint list_reply_world "cv.pdf" "cv" = HTTPException 500 msg.
Proof.
  destruct (non_object_reply_refused list_reply_world "cv.pdf" "cv" _
              (VList []) eq_refl eq_refl ltac:(vm_compute; discriminate)
              eq_refl eq_refl) as [(msg & _ & H) _].
  now exists msg.
Defined.

(** ** The repair of the JSON text *)

Lemma lacks_app (a : ascii) (x y : string) :
  lacks a (x ++ y)%string = lacks a x && lacks a y.
Proof.
  induction x as [|c x IH]; [reflexivity|].
  rewrite append_cons. cbn [lacks]. now rewrite IH, andb_assoc.
Qed.

Lemma replace_char_lacks (a b : ascii) (s : string) :
  Ascii.eqb b a = false -> lacks a (replace_char a b s) = true.
Proof.
  intros Hab. induction s as [|c r IH]; [easy|]. simpl.
  destruct (Ascii.eqb c a) eqn:Hc; simpl; [now rewrite Hab | now rewrite Hc].
Qed.

Lemma replace_char_length (a b : ascii) (s : string) :
  String.length (replace_char a b s) = String.length s.
Proof. induction s as [|c r IH]; simpl; [reflexivity | now rewrite IH]. Qed.

Lemma sub_trailing_comma_lacks (a close : ascii) (s : string) :
  forall pending,
    lacks a s = true ->
    lacks a (match pending with Some buf => buf | None => "" end) = true ->
    lacks a (sub_trailing_comma close pending s) = true.
Proof.
  induction s as [|c r IH]; intros pending Hs Hheld; [exact Hheld|].
  cbn [lacks] in Hs. apply andb_true_iff in Hs as [Hc Hr].
  cbn [sub_trailing_comma]. destruct (Ascii.eqb_spec c ",") as [->|Hcomma].
  - rewrite lacks_app, Hheld. apply (IH (Some ",") Hr). cbn [lacks].
    now rewrite Hc.
  - destruct pending as [buf|].
    + destruct (is_space c).
      * apply (IH (Some (buf ++ String c "")%string) Hr).
        rewrite lacks_app, Hheld. cbn [lacks]. now rewrite Hc.
      * destruct (Ascii.eqb_spec c close) as [<-|Hclose].
        -- cbn [lacks]. rewrite Hc. now apply (IH None Hr).
        -- rewrite lacks_app, Hheld. cbn [lacks]. rewrite Hc.
           now apply (IH None Hr).
    + cbn [lacks]. rewrite Hc. now apply (IH None Hr).
Qed.

Lemma sub_trailing_comma_length (close : ascii) (s : string) :
  forall pending,
    (String.length (sub_trailing_comma close pending s)
     <= String.length (match pending with Some buf => buf | None => "" end)
        + String.length s)%nat.
Proof.
  induction s as [|c r IH]; intros pending; [simpl; lia|].
  cbn [sub_trailing_comma String.length]. destruct (Ascii.eqb c ",").
  - rewrite length_append. specialize (IH (Some ",")). simpl in IH. lia.
  - destruct pending as [buf|].
    + destruct (is_space c).
      * specialize (IH (Some (buf ++ String c "")%string)). cbn beta iota in IH.
        rewrite length_append in IH. simpl in IH. lia.
      * destruct (Ascii.eqb c close).
        -- specialize (IH None). simpl in *. lia.
        -- rewrite length_append. specialize (IH None). simpl in *. lia.
    + specialize (IH None). simpl in *. lia.
Qed.

Lemma sub_trailing_comma_id (close : ascii) (s : string) :
  lacks "," s = true -> sub_trailing_comma close None s = s.
Proof.
  induction s as [|c r IH]; [reflexivity|]. cbn [lacks sub_trailing_comma].
  rewrite andb_true_iff, negb_true_iff. intros [-> Hr]. now rewrite (IH Hr).
Qed.

(** X14.  The repair made before the last parse leaves no single quote
    in the text, an apostrophe inside a value included, and never makes
    the text longer; a text without single quote and without comma is
    left as it is. *)
Theorem repair_json_effect (json_text : string) :
  lacks "'" (repair_json json_text) = true
  /\ (String.length (repair_json json_text) <= String.length json_text)%nat
  /\ (lacks "'" json_text = true -> lacks "," json_text = true ->
      repair_json json_text = json_text).
Proof.
  unfold repair_json. split; [|split].
  - apply sub_trailing_comma_lacks; [|reflexivity].
    apply sub_trailing_comma_lacks; [|reflexivity].
    now apply replace_char_lacks.
  - pose proof (sub_trailing_comma_length "]"
                  (sub_trailing_comma "}" None
                     (replace_char "'" double_quote json_text)) None) as H1.
    pose proof (sub_trailing_comma_length "}"
                  (replace_char "'" double_quote json_text) None) as H2.
    rewrite replace_char_length in H2. simpl in *. lia.
  - intros Hq Hc. rewrite (replace_char_id _ _ _ Hq).
    rewrite (sub_trailing_comma_id "}" _ Hc).
    apply (sub_trailing_comma_id "]" _ Hc).
Qed.

Lemma repair_json_effect_witness : repair_json "{}" = "{}".
Proof.
  apply (proj2 (proj2 (repair_json_effect "{}"))); reflexivity.
Defined.

End ExtractorExtra.

(** * More about the analytics *)

Module EnhancerExtra.
Import Py Enhancer Reports Spec Notions Cases PyFacts EnhancerFacts.
Local Open Scope list_scope.

(** ** Career progression *)

Lemma pair_score_step (current previous : string) (same_company : bool)
    (indicators : list string) (score : Z) :
  let result :=
    fold_left
      (fun score indicator =>
         if str_in indicator current && negb (str_in indicator previous)
         then score + 2
         else if str_in indicator current && str_in indicator previous
         then (if same_company then score + 1 else score)
         else score)
      indicators score in
  score <= result <= score + 2 * Z.of_nat (length indicators).
Proof.
  revert score. induction indicators as [|i l IH]; intros score; simpl; [lia|].
  match goal with |- _ <= fold_left _ _ ?s <= _ => specialize (IH s) end.
  simpl in IH.
  destruct (str_in i current && negb (str_in i previous));
    [|destruct (str_in i current && str_in i previous);
      [destruct same_company|]]; lia.
Qed.

Lemma pair_score_bounds (current previous : string) (same_company : bool) :
  0 <= pair_score current previous same_company <= 12.
Proof.
  pose proof (pair_score_step current previous same_company promotion 0) as H.
  exact H.
Qed.

Lemma progression_loop_bounds (positions : list string) :
  forall (companies : list value) (score : Z),
    length companies = length positions ->
    exists total,
      progression_loop (map VStr positions) companies score = Ok total
      /\ score <= total
         <= score + 12 * Z.of_nat (length positions - 1).
Proof.
  induction positions as [|p positions IH]; intros companies score Hlen.
  - exists score. simpl. split; [reflexivity | lia].
  - destruct positions as [|p' positions].
    + exists score. simpl. split; [now destruct companies | lia].
    + destruct companies as [|c [|c' companies]]; try discriminate Hlen.
      cbn [map progression_loop py_lower bind].
      pose proof (pair_score_bounds (lower p) (lower p') (py_eq c c')) as Hp.
      destruct (IH (c' :: companies)
                  (score + pair_score (lower p) (lower p') (py_eq c c')))
        as (total & Ht & Hb); [simpl in *; lia|].
      exists total. cbn [map] in Ht. split; [exact Ht|].
      cbn [length] in *. lia.
Qed.

Lemma distinct_length (items : list value) :
  (length (distinct items) <= length items)%nat
  /\ (items <> [] -> 1 <= length (distinct items))%nat.
Proof.
  induction items as [|x items [IH1 IH2]]; simpl; [split; [lia|congruence]|].
  destruct (existsb (py_eq x) items) eqn:E; simpl; split; try lia.
  intros _. apply IH2. intros ->. discriminate.
Qed.

Lemma titled_inv (v : value) :
  titled v = true ->
  exists e p, v = VDict e /\ dict_get e "position" (VStr "") = VStr p
              /\ hashable (dict_get e "company" (VStr "")) = true.
Proof.
  destruct v as [| | | | | |e]; try discriminate. simpl.
  rewrite andb_true_iff. intros [Hp Hc].
  destruct (is_str_inv _ Hp) as [p Hp']. now exists e, p.
Qed.

Lemma titled_positions (items : list value) :
  forallb titled items = true ->
  exists positions companies,
    mapM (fun exp => py_get exp "position" (VStr "")) items
    = Ok (map VStr positions)
    /\ mapM (fun exp => py_get exp "company" (VStr "")) items = Ok companies
    /\ length positions = length items
    /\ length companies = length items
    /\ forallb hashable companies = true.
Proof.
  induction items as [|x items IH]; simpl.
  - intros _. now exists [], [].
  - rewrite andb_true_iff. intros [Hx Hitems].
    destruct (titled_inv _ Hx) as (e & p & -> & Hp & Hc).
    destruct (IH Hitems) as (ps & cs & Hps & Hcs & Hl1 & Hl2 & Hh).
    exists (p :: ps), (dict_get e "company" (VStr "") :: cs).
    cbn [py_get bind]. rewrite Hps, Hcs, Hp. cbn [bind map length forallb].
    rewrite Hc, Hh. repeat split; congruence.
Qed.

(** X15.  On a non-empty list of entries whose positions are strings,
    [analyze_career_progression] returns a report in which
    [total_positions] is the number of entries, [progression_score] lies
    between 0 and 12 for each pair of neighbouring entries, and
    [unique_companies] between 1 and the number of entries.  With one
    entry alone the score is 0. *)
Theorem career_progression_bounds (self : ResumeEnhancer) (w : World)
    (items : list value) :
  items <> [] ->
  forallb titled items = true ->
  exists (progression_type : string) (score unique : Z),
    analyze_career_progression self w (VList items)
    = Ok (VDict [ ("progression_type", VStr progression_type);
                  ("progression_score", VInt score);
                  ("total_positions", VInt (Z.of_nat (length items)));
                  ("unique_companies", VInt unique) ])
    /\ 0 <= score <= 12 * (Z.of_nat (length items) - 1)
    /\ 1 <= unique <= Z.of_nat (length items)
    /\ (length items = 1%nat -> score = 0).
Proof.
  intros Hne Ht.
  destruct (titled_positions items Ht) as (ps & cs & Hps & Hcs & Hl1 & Hl2 & Hh).
  destruct (progression_loop_bounds ps cs 0 ltac:(congruence))
    as (score & Hscore & Hb).
  unfold analyze_career_progression.
  destruct items as [|x items]; [congruence|]. cbn [truthy negb py_iter bind].
  rewrite Hps, Hcs. cbn [bind]. rewrite Hscore. cbn [bind].
  unfold len_set. rewrite Hh. cbn [bind].
  rewrite length_map, Hl1.
  destruct (distinct_length cs) as [Hd1 Hd2].
  assert (Hcne : cs <> []) by (intros ->; discriminate Hl2).
  specialize (Hd2 Hcne).
  eexists _, score, _. split; [reflexivity|].
  rewrite Hl1 in Hb. rewrite Hl2 in Hd1.
  cbn [length] in *. repeat split; lia.
Qed.

Lemma career_progression_bounds_witness :
  exists (progression_type : string) (score unique : Z),
    analyze_career_progression Examples.no_stop_words
      (Examples.world_on 2024 1 10)
      (VList [Examples.job "Present"; Examples.job "2019"])
    = Ok (VDict [ ("progression_type", VStr progression_type);
                  ("progression_score", VInt score);
                  ("total_positions", VInt 2);
                  ("unique_companies", VInt unique) ])
    /\ 0 <= score <= 12.
Proof.
  destruct (career_progression_bounds Examples.no_stop_words
              (Examples.world_on 2024 1 10)
              [Examples.job "Present"; Examples.job "2019"])
    as (t & score & unique & Heq & Hb & _); [discriminate | reflexivity |].
  exists t, score, unique. split; [exact Heq | exact Hb].
Defined.

(** ** The sections of the ATS score *)

Lemma dict_get_set_ne (d : dict) (k k' : string) (v default : value) :
  k <> k' -> dict_get (dict_set d k v) k' default = dict_get d k' default.
Proof. intros H. unfold dict_get. now rewrite dict_lookup_set_ne. Qed.

(** X16.  Each section of the breakdown of [calculate_ats_score] takes
    one of a few values and stays within the points the section is
    worth: 20 for the personal information, 30 for the experience, 15
    for the education, 20 for the skills, 15 for the keywords.  The
    score reads the four keys [personal_info], [experience], [education]
    and [skills] only: setting any other key of the resume, such as the
    summary, the certifications or the projects, never changes it. *)
Theorem ats_breakdown_sections (self : ResumeEnhancer) (w : World)
    (resume_data : dict) :
  (forall r, calculate_ats_score self w resume_data = Ok r ->
     In (Breakdown.personal_info (breakdown r)) [0; 5; 10; 15; 20]
     /\ In (Breakdown.experience (breakdown r)) [0; 10; 20; 30]
     /\ In (Breakdown.education (breakdown r)) [0; 10; 15]
     /\ In (Breakdown.skills (breakdown r)) [0; 10; 20]
     /\ In (Breakdown.keywords (breakdown r)) [0; 5; 10; 15])
  /\ (forall k v, ~ In k ats_keys ->
        calculate_ats_score self w (dict_set resume_data k v)
        = calculate_ats_score self w resume_data).
Proof.
  split.
  - unfold calculate_ats_score. intros r H. open_blocks.
    all: cbn [breakdown Breakdown.personal_info Breakdown.experience
              Breakdown.education Breakdown.skills Breakdown.keywords In].
    all: repeat split.
    all: repeat match goal with
                | |- context [if ?b then _ else _] => destruct b
                end; lia.
  - intros k v Hk. unfold calculate_ats_score.
    rewrite !dict_get_set_ne; [reflexivity|..];
      intros ->; apply Hk; cbn; tauto.
Qed.

Lemma ats_breakdown_sections_witness :
  calculate_ats_score Examples.no_stop_words (Examples.world_on 2024 1 10)
    (dict_set Examples.sample_resume "summary" (VStr "Engineer"))
  = calculate_ats_score Examples.no_stop_words (Examples.world_on 2024 1 10)
      Examples.sample_resume.
Proof.
  apply (proj2 (ats_breakdown_sections Examples.no_stop_words
                  (Examples.world_on 2024 1 10) Examples.sample_resume)).
  cbn. intros [H|[H|[H|[H|[]]]]]; discriminate.
Defined.

(** ** [suggest_improvements] *)









(** ** Substrings *)

Lemma prefix_append (m s : string) :
  String.prefix m s = true <-> exists y, s = (m ++ y)%string.
Proof.
  revert s. induction m as [|a m IH]; intros s.
  - split; [intros _; now exists s | intros _; now destruct s].
  - destruct s as [|c s]; simpl.
    + split; [discriminate|]. intros [y Hy].
      rewrite ExtractorFacts.append_cons in Hy. discriminate.
    + destruct (ascii_dec a c) as [->|Hne].
      * rewrite IH. split; intros [y Hy]; exists y.
        -- now rewrite Hy.
        -- rewrite ExtractorFacts.append_cons in Hy. congruence.
      * split; [discriminate|]. intros [y Hy].
        rewrite ExtractorFacts.append_cons in Hy. congruence.
Qed.

Lemma str_in_append (m s : string) :
  str_in m s = true <-> exists x y, s = (x ++ m ++ y)%string.
Proof.
  induction s as [|c s IH].
  - cbn [str_in]. destruct (String.prefix m "") eqn:Hp.
    + apply prefix_append in Hp as [y Hy]. split; [|reflexivity].
      intros _. now exists "", y.
    + split; [discriminate|]. intros (x & y & H).
      destruct x; [|discriminate].
      assert (String.prefix m "" = true) by (apply prefix_append; now exists y).
      congruence.
  - rewrite ExtractorExtra.str_in_cons.
    destruct (String.prefix m (String c s)) eqn:Hp.
    + apply prefix_append in Hp as [y Hy]. split; [|reflexivity].
      intros _. now exists "", y.
    + rewrite IH. split.
      * intros (x & y & ->). now exists (String c x), y.
      * intros (x & y & H). destruct x as [|c' x].
        -- assert (String.prefix m (String c s) = true)
             by (apply prefix_append; now exists y).
           congruence.
        -- injection H as _ ->. now exists x, y.
Qed.

Lemma str_in_trans (a b c : string) :
  str_in a b = true -> str_in b c = true -> str_in a c = true.
Proof.
  rewrite !str_in_append. intros (x & y & ->) (x' & y' & ->).
  exists (x' ++ x)%string, (y ++ y')%string.
  now rewrite !ExtractorFacts.append_assoc.
Qed.

(** ** [extract_industry_keywords] *)

Lemma responsibilities_text_spec (items : list value) :
  forallb entry_shaped items = true ->
  forall all_text,
    responsibilities_text items all_text
    = Ok (all_text ++ map VStr (flat_map entry_responsibilities items)).
Proof.
  induction items as [|x items IH]; intros Hs all_text.
  - simpl. now rewrite app_nil_r.
  - simpl in Hs. apply andb_true_iff in Hs as [Hx Hitems].
    destruct (entry_shaped_inv _ Hx) as (e & l & -> & Hl & Hstr).
    cbn [responsibilities_text py_get bind flat_map entry_responsibilities].
    rewrite Hl. cbn [py_iter bind]. rewrite (IH Hitems).
    rewrite map_app, app_assoc. now rewrite <- (strings_of_shaped l Hstr).
Qed.

Lemma listed_lookup (s : dict) (k : string) :
  forallb (fun kv => list_of is_str (snd kv)) s = true ->
  list_of is_str (dict_get s k (VList [])) = true.
Proof.
  unfold dict_get. induction s as [|[k' v] s IH]; simpl; [reflexivity|].
  rewrite andb_true_iff. intros [Hv Hs].
  destruct (String.eqb k' k); [exact Hv | exact (IH Hs)].
Qed.

Lemma skills_text_spec (s : dict) (entries : list (string * value)) :
  forallb (fun kv => list_of is_str (snd kv)) s = true ->
  forall all_text,
    skills_text (VDict s) (map (fun kv => VStr (fst kv)) entries) all_text
    = Ok (all_text
          ++ map VStr
               (flat_map (fun kv => strings_of (dict_get s (fst kv) (VList [])))
                  entries)).
Proof.
  intros Hs. induction entries as [|[k v] entries IH]; intros all_text.
  - simpl. now rewrite app_nil_r.
  - cbn [map skills_text py_get bind flat_map fst].
    destruct (list_of_inv _ _ (listed_lookup s k Hs)) as (l & Hl & Hstr).
    rewrite Hl. cbn [py_iter bind]. rewrite IH.
    rewrite map_app, app_assoc. now rewrite <- (strings_of_shaped l Hstr).
Qed.

Lemma py_join_strings (sep : string) (ss : list string) :
  py_join sep (VList (map VStr ss)) = Ok (String.concat sep ss).
Proof.
  unfold py_join. cbn [py_iter bind].
  rewrite (mapM_Ok_map _ (fun x => match x with VStr s => s | _ => "" end)).
  - cbn [bind]. rewrite map_map. now rewrite map_id.
  - apply List.Forall_forall. intros x Hx. apply in_map_iff in Hx as (s & <- & _).
    reflexivity.
Qed.

Lemma extract_industry_keywords_text (self : ResumeEnhancer) (w : World)
    (d : dict) :
  resume_shaped d = true ->
  skills_listed (dict_get d "skills" (VDict [])) = true ->
  extract_industry_keywords self w d = Ok (detect_industries (resume_text d)).
Proof.
  intros Hs Hlisted. unfold extract_industry_keywords, resume_text,
    resume_strings, responsibilities_of.
  destruct (shaped_experience _ Hs) as (exps & -> & Hshaped).
  destruct (dict_get d "skills" (VDict [])) as [| | | | | |s]; try discriminate.
  cbn [py_iter bind]. rewrite (responsibilities_text_spec exps Hshaped).
  cbn [bind app]. rewrite (skills_text_spec s s Hlisted). cbn [bind].
  rewrite <- map_app, py_join_strings. reflexivity.
Qed.

Lemma detect_industries_spec (text industry : string) (kws : list string) :
  In (industry, kws) (detect_industries text)
  <-> exists keywords,
        In (industry, keywords) industry_keywords
        /\ kws = List.filter (fun kw => str_in kw text) keywords
        /\ kws <> [].
Proof.
  unfold detect_industries. rewrite in_flat_map. split.
  - intros ([i keywords] & Hin & H). cbn [fst snd] in H.
    destruct (List.filter _ keywords) as [|kw m] eqn:E; [destruct H|].
    destruct H as [H|[]]. injection H as <- <-.
    exists keywords. rewrite E. repeat split; [exact Hin | discriminate].
  - intros (keywords & Hin & -> & Hne). exists (industry, keywords).
    split; [exact Hin|]. cbn [fst snd].
    destruct (List.filter _ keywords); [congruence | now left].
Qed.

(** X18.  On a resume-shaped dictionary whose skill categories all
    hold lists of strings, [extract_industry_keywords] reports, for each
    of its five industries, the keywords of that industry that occur in
    the lowercased text of the responsibilities and skills, and it
    reports an industry only with a keyword.  A keyword counts wherever
    it occurs as a substring, inside a longer word too: a resume whose
    text holds the word 'career' is reported under healthcare, with the
    keyword 'care'. *)
Theorem industry_keywords_by_substring (self : ResumeEnhancer) (w : World)
    (d : dict) :
  resume_shaped d = true ->
  skills_listed (dict_get d "skills" (VDict [])) = true ->
  exists detected,
    extract_industry_keywords self w d = Ok detected
    /\ (forall industry kw,
          (exists kws, In (industry, kws) detected /\ In kw kws)
          <-> (exists keywords,
                 In (industry, keywords) industry_keywords
                 /\ In kw keywords
                 /\ str_in kw (resume_text d) = true))
    /\ (forall industry kws, In (industry, kws) detected -> kws <> [])
    /\ (str_in "career" (resume_text d) = true ->
        exists kws, In ("healthcare", kws) detected /\ In "care" kws).
Proof.
  intros Hs Hlisted. exists (detect_industries (resume_text d)).
  split; [now apply extract_industry_keywords_text|].
  assert (Hchar : forall industry kw,
    (exists kws, In (industry, kws) (detect_industries (resume_text d))
                 /\ In kw kws)
    <-> (exists keywords,
           In (industry, keywords) industry_keywords
           /\ In kw keywords
           /\ str_in kw (resume_text d) = true)).
  { intros industry kw. split.
    - intros (kws & Hin & Hkw).
      apply detect_industries_spec in Hin as (keywords & Hk & -> & _).
      apply filter_In in Hkw as [Hkw Ht]. now exists keywords.
    - intros (keywords & Hk & Hkw & Ht).
      exists (List.filter (fun kw => str_in kw (resume_text d)) keywords).
      assert (Hin : In kw (List.filter (fun kw => str_in kw (resume_text d))
                             keywords)) by now apply filter_In.
      split; [|exact Hin]. apply detect_industries_spec.
      exists keywords. repeat split; [exact Hk|].
      intros E. rewrite E in Hin. destruct Hin. }
  split; [exact Hchar|]. split.
  - intros industry kws Hin.
    now apply detect_industries_spec in Hin as (_ & _ & _ & Hne).
  - intros Hcareer. apply Hchar.
    eexists. split; [|split].
    + unfold industry_keywords. do 3 right. left. reflexivity.
    + cbn. tauto.
    + now apply (str_in_trans "care" "career").
Qed.

Lemma industry_keywords_by_substring_witness :
  exists kws,
    In ("healthcare", kws)
      (match extract_industry_keywords Examples.no_stop_words
               (Examples.world_on 2024 1 10) careers with
       | Ok detected => detected
       | Raise _ => []
       end)
    /\ In "care" kws.
Proof.
  destruct (industry_keywords_by_substring Examples.no_stop_words
              (Examples.world_on 2024 1 10) careers eq_refl eq_refl)
    as (detected & -> & _ & _ & H).
  apply H. reflexivity.
Defined.

(** ** [extract_achievements] *)

Lemma responsibilities_achievements_spec (ss : list string) :
  forall achievements,
    responsibilities_achievements (map VStr ss) achievements
    = Ok (achievements ++ map VStr (List.filter is_achievement ss)).
Proof.
  induction ss as [|s ss IH]; intros achievements.
  - simpl. now rewrite app_nil_r.
  - cbn [map responsibilities_achievements matches_achievement bind List.filter].
    rewrite IH. destruct (is_achievement s); [|reflexivity].
    unfold list_append. now rewrite <- app_assoc.
Qed.

Lemma experience_achievements_spec (items : list value) :
  forallb entry_shaped items = true ->
  forall achievements,
    experience_achievements items achievements
    = Ok (achievements
          ++ map VStr (List.filter is_achievement
                         (flat_map entry_responsibilities items))).
Proof.
  induction items as [|x items IH]; intros Hs achievements.
  - simpl. now rewrite app_nil_r.
  - simpl in Hs. apply andb_true_iff in Hs as [Hx Hitems].
    destruct (entry_shaped_inv _ Hx) as (e & l & -> & Hl & Hstr).
    cbn [experience_achievements py_get bind flat_map entry_responsibilities].
    rewrite Hl. cbn [py_iter bind].
    rewrite (strings_of_shaped l Hstr) at 1.
    rewrite responsibilities_achievements_spec. cbn [bind].
    rewrite (IH Hitems). now rewrite List.filter_app, map_app, app_assoc.
Qed.

Lemma seen_string (x : string) (seen : list string) :
  existsb (py_eq (VStr x)) (map VStr seen) = true <-> In x seen.
Proof.
  rewrite existsb_exists. split.
  - intros (v & Hv & He). apply in_map_iff in Hv as (s & <- & Hs).
    simpl in He. apply String.eqb_eq in He. now subst.
  - intros H. exists (VStr x). split; [now apply in_map|].
    simpl. apply String.eqb_refl.
Qed.

Lemma first_distinct_strings (ss : list string) :
  forall seen,
    exists kept,
      first_distinct (map VStr seen) (map VStr ss) = map VStr kept
      /\ List.NoDup kept
      /\ forall s, In s kept <-> In s ss /\ ~ In s seen.
Proof.
  induction ss as [|x ss IH]; intros seen.
  - exists []. repeat split; try constructor; simpl; tauto.
  - cbn [map first_distinct].
    destruct (existsb (py_eq (VStr x)) (map VStr seen)) eqn:E.
    + apply seen_string in E. destruct (IH seen) as (kept & -> & Hnd & Hin).
      exists kept. split; [reflexivity|]. split; [exact Hnd|].
      intros s. rewrite Hin. cbn [In]. split; [tauto|].
      intros [[<-|H1] H2]; tauto.
    + assert (Hx : ~ In x seen).
      { intros H. apply seen_string in H. congruence. }
      destruct (IH (x :: seen)) as (kept & Hk & Hnd & Hin).
      exists (x :: kept). change (VStr x :: map VStr seen) with (map VStr (x :: seen)).
      rewrite Hk. split; [reflexivity|]. split.
      * constructor; [|exact Hnd]. intros H. apply Hin in H as [_ H].
        apply H. now left.
      * intros s. cbn [In]. rewrite Hin. cbn [In].
        destruct (string_dec x s) as [->|Hne]; tauto.
Qed.

(** X19.  On a resume-shaped dictionary whose achievements, if any,
    are a list of strings, [extract_achievements] returns a list of
    strings without duplicates that holds exactly the achievements of
    the resume and those responsibilities that one of the six patterns
    matches; the order of the list is not fixed. *)
Theorem extract_achievements_characterised (self : ResumeEnhancer) (w : World)
    (d : dict) :
  resume_shaped d = true ->
  achievements_listed d = true ->
  exists found,
    extract_achievements self w d = Ok (map VStr found)
    /\ List.NoDup found
    /\ forall s,
         In s found
         <-> In s (strings_of (dict_get d "achievements" (VList [])))
             \/ (In s (responsibilities_of d) /\ is_achievement s = true).
Proof.
  intros Hs Ha. unfold extract_achievements, responsibilities_of.
  destruct (shaped_experience _ Hs) as (exps & -> & Hshaped).
  cbn [py_iter bind]. rewrite (experience_achievements_spec exps Hshaped).
  cbn [bind app].
  apply (opt_key_get _ _ _ (VList [])) in Ha; [|reflexivity].
  apply list_of_inv in Ha as (l & -> & Hstr).
  pose proof (strings_of_shaped l Hstr) as El.
  set (explicit := strings_of (VList l)) in *. clearbody explicit. subst l.
  cbn [py_iter bind]. rewrite <- map_app. unfold list_set.
  assert (Hh : forall ss, forallb hashable (map VStr ss) = true)
    by (induction ss; simpl; auto).
  rewrite Hh.
  destruct (first_distinct_strings
              (List.filter is_achievement (flat_map entry_responsibilities exps)
               ++ explicit) [])
    as (kept & Hk & Hnd & Hin).
  cbn [map] in Hk. exists kept. split; [now rewrite Hk|].
  split; [exact Hnd|]. intros s.
  rewrite Hin, in_app_iff, filter_In.
  cbn [In]. tauto.
Qed.

Lemma extract_achievements_characterised_witness :
  exists found,
    extract_achievements Examples.no_stop_words (Examples.world_on 2024 1 10)
      careers = Ok (map VStr found)
    /\ List.NoDup found.
Proof.
  destruct (extract_achievements_characterised Examples.no_stop_words
              (Examples.world_on 2024 1 10) careers eq_refl eq_refl)
    as (found & Hf & Hnd & _).
  exists found. split; [exact Hf | exact Hnd].
Defined.

End EnhancerExtra.
